(** * Remita table chart plugin: selection store, event de-duplication,
      pagination read-out and action visibility

    A shallow embedding of the pure logic of
    [plugin-chart-remita-table/src/TableChart.tsx],
    [plugin-chart-remita-table/src/DataTable/DataTable.tsx] and
    [plugin-chart-remita-table/src/ActionCell.tsx].

    React state is threaded explicitly: a [setSelectedRows(prev => ...)]
    updater is a function from the previous [Map] to the next one, a
    [useRef] cell is an extra component of the state, [localStorage] is a
    finite map from keys to text, and [Date.now()] is an argument. *)

From Stdlib Require Import ZArith List String Ascii Bool Lia.
From Stdlib Require Import DecimalString DecimalZ DecimalFacts DecimalPos.
From stdpp Require Import gmap strings.
Import ListNotations.

Local Open Scope string_scope.

Set Warnings "-register-all".

(** ** JavaScript values

    The fragment of the value universe that the embedded functions touch.
    A number is a whole number ([VNum]) or a number that is not whole
    ([VDec]).  The latter is given by the decimal that the language prints
    for it, which is also the shortest decimal that reads back as the same
    number: its sign, its significant digits [d1 d2 ... dk] (the first and
    the last of them not [0]) and the place [n] of the decimal point, the
    number being [0.d1 d2 ... dk] times [10^n], with [n < k].  There is no
    NaN, no infinity and no negative zero.  A [Date] is represented by the
    two texts the code can observe, the result of [toJSON()] and the result
    of [toString()].  An object carries its own enumerable properties in
    enumeration order; what it inherits from [Object.prototype] is given by
    [Object_prototype] below.  A [VFun] is a function object of the
    language itself, such as [Object], known by its name. *)

Inductive JsVal : Type :=
| VUndefined
| VNull
| VBool (b : bool)
| VNum (z : Z)
| VBigInt (z : Z)
| VStr (s : string)
| VDate (iso display : string)
| VArr (elems : list JsVal)
| VObj (props : list (string * JsVal))
| VSet (members : list JsVal)
| VDec (negative : bool) (digits : string) (point : Z)
| VFun (name : string).

(** A row of the result set ([D extends DataRecord]): a plain object. *)
Definition Row : Type := list (string * JsVal).

Section JsVal_induction.
Variable P : JsVal -> Prop.
Hypothesis Hundef : P VUndefined.
Hypothesis Hnull : P VNull.
Hypothesis Hbool : forall b, P (VBool b).
Hypothesis Hnum : forall z, P (VNum z).
Hypothesis Hbig : forall z, P (VBigInt z).
Hypothesis Hstr : forall s, P (VStr s).
Hypothesis Hdate : forall i d, P (VDate i d).
Hypothesis Harr : forall l, Forall P l -> P (VArr l).
Hypothesis Hobj : forall l, Forall (fun kv => P (snd kv)) l -> P (VObj l).
Hypothesis Hset : forall l, Forall P l -> P (VSet l).
Hypothesis Hdec : forall negative digits point, P (VDec negative digits point).
Hypothesis Hfun : forall name, P (VFun name).

Fixpoint JsVal_nested_ind (v : JsVal) : P v :=
  match v with
  | VUndefined => Hundef
  | VNull => Hnull
  | VBool b => Hbool b
  | VNum z => Hnum z
  | VBigInt z => Hbig z
  | VStr s => Hstr s
  | VDate i d => Hdate i d
  | VArr l =>
      Harr l ((fix all (l : list JsVal) : Forall P l :=
                 match l with
                 | [] => @List.Forall_nil _ P
                 | x :: r => @List.Forall_cons _ P x r (JsVal_nested_ind x) (all r)
                 end) l)
  | VObj l =>
      Hobj l ((fix all (l : list (string * JsVal))
                 : Forall (fun kv => P (snd kv)) l :=
                 match l with
                 | [] => @List.Forall_nil _ _
                 | kv :: r =>
                     @List.Forall_cons _ _ kv r (JsVal_nested_ind (snd kv)) (all r)
                 end) l)
  | VSet l =>
      Hset l ((fix all (l : list JsVal) : Forall P l :=
                 match l with
                 | [] => @List.Forall_nil _ P
                 | x :: r => @List.Forall_cons _ P x r (JsVal_nested_ind x) (all r)
                 end) l)
  | VDec negative digits point => Hdec negative digits point
  | VFun name => Hfun name
  end.
End JsVal_induction.

(** Decimal text of an integer, as [Number.prototype.toString] and
    [BigInt.prototype.toString] print it. *)
Definition Z_to_string (z : Z) : string :=
  NilZero.string_of_int (Z.to_int z).

(** [n] zeros, and a text cut after its first [n] characters. *)
Fixpoint zeros (n : nat) : string :=
  match n with
  | O => EmptyString
  | S m => String "0" (zeros m)
  end.

Fixpoint first_chars (n : nat) (s : string) : string :=
  match n, s with
  | S m, String c r => String c (first_chars m r)
  | _, _ => EmptyString
  end.

Fixpoint after_chars (n : nat) (s : string) : string :=
  match n, s with
  | S m, String _ r => after_chars m r
  | _, _ => s
  end.

(** [Number::toString] in radix 10 for a positive number, from the digits
    [s] of its shortest decimal, their number [k] and the place [n] of the
    decimal point: plain notation for [n] from -5 to 21, and otherwise the
    first digit, the others after a point, and the exponent [n - 1]. *)
Definition digits_text (s : string) (n : Z) : string :=
  let k := Z.of_nat (String.length s) in
  if (-5 <=? n)%Z && (n <=? 21)%Z then
    if (k <=? n)%Z then s ++ zeros (Z.to_nat (n - k))
    else if (0 <? n)%Z then
      first_chars (Z.to_nat n) s ++ "." ++ after_chars (Z.to_nat n) s
    else "0." ++ zeros (Z.to_nat (- n)) ++ s
  else
    let e := (n - 1)%Z in
    let exponent :=
      String (if (e <? 0)%Z then "-" else "+")%char (Z_to_string (Z.abs e)) in
    match s with
    | EmptyString => EmptyString
    | String d EmptyString => String d ("e" ++ exponent)
    | String d more => String d ("." ++ more ++ "e" ++ exponent)
    end.

(** The text of a number that is not whole. *)
Definition number_text (negative : bool) (digits : string) (point : Z)
  : string :=
  if negative then String "-" (digits_text digits point)
  else digits_text digits point.

(** The source text that the language shows for one of its own functions. *)
Definition function_text (name : string) : string :=
  "function " ++ name ++ "() { [native code] }".

(** [ToBoolean]: the test behind [!x], [x || y] and [if (x)]. *)
Definition truthy (v : JsVal) : bool :=
  match v with
  | VUndefined | VNull => false
  | VBool b => b
  | VNum z | VBigInt z => negb (Z.eqb z 0)
  | VStr s => negb (String.eqb s EmptyString)
  | VDate _ _ | VArr _ | VObj _ | VSet _ | VDec _ _ _ | VFun _ => true
  end.

(** [String(v)], that is [ToString]; an array prints as its elements joined
    by commas, with [null] and [undefined] elements printed as nothing. *)
Fixpoint ToString (v : JsVal) : string :=
  match v with
  | VUndefined => "undefined"
  | VNull => "null"
  | VBool true => "true"
  | VBool false => "false"
  | VNum z => Z_to_string z
  | VBigInt z => Z_to_string z
  | VStr s => s
  | VDate _ display => display
  | VArr l =>
      String.concat ","
        ((fix each (l : list JsVal) : list string :=
            match l with
            | [] => []
            | x :: r =>
                match x with
                | VUndefined | VNull => EmptyString
                | _ => ToString x
                end :: each r
            end) l)
  | VObj _ => "[object Object]"
  | VSet _ => "[object Set]"
  | VDec negative digits point => number_text negative digits point
  | VFun name => function_text name
  end.

(** The read [o[key]] of an own property, which is the read [o[key]] for a
    name that [Object.prototype] does not have; a missing property reads
    as [undefined]. *)
Fixpoint lookup_prop (key : string) (props : list (string * JsVal)) : JsVal :=
  match props with
  | [] => VUndefined
  | (k, v) :: rest => if String.eqb k key then v else lookup_prop key rest
  end.

Definition get_prop (v : JsVal) (key : string) : JsVal :=
  match v with
  | VObj props => lookup_prop key props
  | _ => VUndefined
  end.

(** [Object.hasOwn(o, key)]: whether [key] names an own property.  This is
    also [key in o] for a name that [Object.prototype] does not have. *)
Definition has_prop (key : string) (props : list (string * JsVal)) : bool :=
  List.existsb (fun kv => String.eqb (fst kv) key) props.

(** What a plain object inherits: the members of [Object.prototype].  They
    are functions of the language, except [__proto__], which reads as
    [Object.prototype] itself, an object without enumerable properties. *)
Definition Object_prototype : list (string * JsVal) :=
  [("constructor", VFun "Object");
   ("__defineGetter__", VFun "__defineGetter__");
   ("__defineSetter__", VFun "__defineSetter__");
   ("hasOwnProperty", VFun "hasOwnProperty");
   ("__lookupGetter__", VFun "__lookupGetter__");
   ("__lookupSetter__", VFun "__lookupSetter__");
   ("isPrototypeOf", VFun "isPrototypeOf");
   ("propertyIsEnumerable", VFun "propertyIsEnumerable");
   ("toString", VFun "toString");
   ("valueOf", VFun "valueOf");
   ("__proto__", VObj []);
   ("toLocaleString", VFun "toLocaleString")].

(** [o[key]] and [key in o] for a plain object [o] and a name that is
    computed: the own property, and failing that the inherited one. *)
Definition read_prop (key : string) (props : list (string * JsVal)) : JsVal :=
  if has_prop key props then lookup_prop key props
  else lookup_prop key Object_prototype.

Definition in_object (key : string) (props : list (string * JsVal)) : bool :=
  has_prop key props || has_prop key Object_prototype.

(** ** JSON text

    [JSON.stringify] without indentation and [JSON.parse] without reviver, on
    the value fragment above.  Text is a byte string; a character is one code
    unit below 256, and an escape for a code unit of 256 or more is not
    read.  A whole number is printed in plain decimal (as the language does
    below 10^21).  A numeric literal is read as the decimal that it writes,
    with its fraction and its exponent.  That the language rounds a literal
    to the nearest number it has (and a literal beyond its range to
    infinity or to zero) is not modelled; the text that the language prints
    for a number is read back as that number. *)

(** One hexadecimal digit, written and read. *)
Definition hex_digit (n : nat) : ascii :=
  match n with
  | 0 => "0" | 1 => "1" | 2 => "2" | 3 => "3" | 4 => "4" | 5 => "5"
  | 6 => "6" | 7 => "7" | 8 => "8" | 9 => "9" | 10 => "a" | 11 => "b"
  | 12 => "c" | 13 => "d" | 14 => "e" | _ => "f"
  end%char.

Definition hex_value (c : ascii) : option nat :=
  let n := nat_of_ascii c in
  if Nat.leb 48 n && Nat.leb n 57 then Some (n - 48)
  else if Nat.leb 97 n && Nat.leb n 102 then Some (n - 87)
  else if Nat.leb 65 n && Nat.leb n 70 then Some (n - 55)
  else None.

(** [QuoteJSONString], one code unit at a time: the quote, the backslash and
    the control characters are escaped, everything else is copied. *)
Definition quote_char (c : ascii) : string :=
  match c with
  | "034"%char => String "\" (String "034" EmptyString)
  | "\"%char => "\\"
  | "008"%char => "\b"
  | "009"%char => "\t"
  | "010"%char => "\n"
  | "012"%char => "\f"
  | "013"%char => "\r"
  | _ =>
      let n := nat_of_ascii c in
      if Nat.ltb n 32 then
        String "\" (String "u" (String "0" (String "0"
          (String (hex_digit (Nat.div n 16))
             (String (hex_digit (Nat.modulo n 16)) EmptyString)))))
      else String c EmptyString
  end.

Fixpoint quote_body (s : string) : string :=
  match s with
  | EmptyString => EmptyString
  | String c r => quote_char c ++ quote_body r
  end.

Definition quote (s : string) : string :=
  String "034" (quote_body s ++ String "034" EmptyString).

(** What [SerializeJSONProperty] can produce: a text, [undefined] (the
    property is left out, or printed as [null] inside an array; so it is
    for [undefined] and for a function), or a [TypeError] (a BigInt has no
    JSON form). *)
Inductive Serialized : Type :=
| Text (s : string)
| Omitted
| TypeError.

Fixpoint serialize (v : JsVal) : Serialized :=
  match v with
  | VUndefined => Omitted
  | VNull => Text "null"
  | VBool true => Text "true"
  | VBool false => Text "false"
  | VNum z => Text (Z_to_string z)
  | VBigInt _ => TypeError
  | VStr s => Text (quote s)
  | VDate iso _ => Text (quote iso)
  | VArr l =>
      match
        (fix elems (l : list JsVal) : option (list string) :=
           match l with
           | [] => Some []
           | x :: r =>
               match serialize x, elems r with
               | Text t, Some ts => Some (t :: ts)
               | Omitted, Some ts => Some ("null" :: ts)
               | _, _ => None
               end
           end) l
      with
      | Some ts => Text ("[" ++ String.concat "," ts ++ "]")
      | None => TypeError
      end
  | VObj l =>
      match
        (fix members (l : list (string * JsVal)) : option (list string) :=
           match l with
           | [] => Some []
           | (k, x) :: r =>
               match serialize x, members r with
               | Text t, Some ts => Some ((quote k ++ ":" ++ t) :: ts)
               | Omitted, Some ts => Some ts
               | _, _ => None
               end
           end) l
      with
      | Some ts => Text ("{" ++ String.concat "," ts ++ "}")
      | None => TypeError
      end
  | VSet _ => Text "{}"
  | VDec negative digits point => Text (number_text negative digits point)
  | VFun _ => Omitted
  end.

(** [JSON.stringify(v)]. *)
Definition JSON_stringify (v : JsVal) : Serialized := serialize v.

(** *** Reading JSON text *)

(** JSON white space: space, tab, line feed, carriage return. *)
Definition is_ws (c : ascii) : bool :=
  match c with
  | " "%char | "009"%char | "010"%char | "013"%char => true
  | _ => false
  end.

Fixpoint skip_ws (s : string) : string :=
  match s with
  | String c r => if is_ws c then skip_ws r else s
  | EmptyString => s
  end.

Fixpoint strip_prefix (p s : string) : option string :=
  match p, s with
  | EmptyString, _ => Some s
  | String a p', String b s' =>
      if Ascii.eqb a b then strip_prefix p' s' else None
  | String _ _, EmptyString => None
  end.

(** The characters of a string literal after its opening quote, up to and
    including the closing quote. *)
Fixpoint parse_string_body (s : string) : option (string * string) :=
  match s with
  | EmptyString => None
  | String "034" rest => Some (EmptyString, rest)
  | String "\" (String e rest) =>
      let plain (c : ascii) :=
        match parse_string_body rest with
        | Some (str, rest') => Some (String c str, rest')
        | None => None
        end in
      match e with
      | "034"%char => plain "034"%char
      | "\"%char => plain "\"%char
      | "/"%char => plain "/"%char
      | "b"%char => plain "008"%char
      | "f"%char => plain "012"%char
      | "n"%char => plain "010"%char
      | "r"%char => plain "013"%char
      | "t"%char => plain "009"%char
      | "u"%char =>
          match rest with
          | String h1 (String h2 (String h3 (String h4 rest4))) =>
              match hex_value h1, hex_value h2, hex_value h3, hex_value h4 with
              | Some a, Some b, Some c, Some d =>
                  let code := ((a * 16 + b) * 16 + c) * 16 + d in
                  if Nat.ltb code 256 then
                    match parse_string_body rest4 with
                    | Some (str, rest') =>
                        Some (String (ascii_of_nat code) str, rest')
                    | None => None
                    end
                  else None
              | _, _, _, _ => None
              end
          | _ => None
          end
      | _ => None
      end
  | String "\" EmptyString => None
  | String c rest =>
      if Nat.ltb (nat_of_ascii c) 32 then None
      else
        match parse_string_body rest with
        | Some (str, rest') => Some (String c str, rest')
        | None => None
        end
  end.

(** The longest prefix of decimal digits. *)
Fixpoint read_digits (s : string) : Decimal.uint * string :=
  match s with
  | String c r =>
      let more (k : Decimal.uint -> Decimal.uint) :=
        let (d, r') := read_digits r in (k d, r') in
      match c with
      | "0"%char => more Decimal.D0 | "1"%char => more Decimal.D1
      | "2"%char => more Decimal.D2 | "3"%char => more Decimal.D3
      | "4"%char => more Decimal.D4 | "5"%char => more Decimal.D5
      | "6"%char => more Decimal.D6 | "7"%char => more Decimal.D7
      | "8"%char => more Decimal.D8 | "9"%char => more Decimal.D9
      | _ => (Decimal.Nil, s)
      end
  | EmptyString => (Decimal.Nil, s)
  end.

(** The whole number that a run of digits writes. *)
Definition digits_value (s : string) : Z := Z.of_uint (fst (read_digits s)).

(** A run of digits without the zeros at its front, and without the zeros
    at its back. *)
Fixpoint strip_leading_zeros (s : string) : string :=
  match s with
  | String "0" r => strip_leading_zeros r
  | _ => s
  end.

Fixpoint strip_trailing_zeros (s : string) : string :=
  match s with
  | EmptyString => EmptyString
  | String c r =>
      match strip_trailing_zeros r with
      | EmptyString =>
          if Ascii.eqb c "0" then EmptyString else String c EmptyString
      | r' => String c r'
      end
  end.

(** The number written by the digits [s] with the decimal point after the
    first [point] of them: zero, a whole number, or a number that is not
    whole, given by its digits without zeros at the two ends. *)
Definition make_number (negative : bool) (s : string) (point : Z) : JsVal :=
  let s1 := strip_leading_zeros s in
  let n := (point - Z.of_nat (String.length s - String.length s1))%Z in
  let whole (z : Z) := VNum (if negative then (- z)%Z else z) in
  match s1 with
  | EmptyString => VNum 0
  | _ =>
      if (Z.of_nat (String.length s1) <=? n)%Z then
        whole (digits_value s1 * 10 ^ (n - Z.of_nat (String.length s1)))%Z
      else
        let s2 := strip_trailing_zeros s1 in
        let k := Z.of_nat (String.length s2) in
        if (k <=? n)%Z then whole (digits_value s2 * 10 ^ (n - k))%Z
        else VDec negative s2 n
  end.

(** The fraction of a numeric literal, a point and at least one digit, and
    its exponent, [e] or [E], an optional sign and at least one digit; both
    may be absent. *)
Definition read_fraction (s : string) : option (string * string) :=
  match s with
  | String "." r =>
      let '(d, rest) := read_digits r in
      match d with
      | Decimal.Nil => None
      | _ => Some (NilEmpty.string_of_uint d, rest)
      end
  | _ => Some (EmptyString, s)
  end.

Definition read_exponent (s : string) : option (Z * string) :=
  match s with
  | String ("e" | "E") r =>
      let '(negative, r1) :=
        match r with
        | String "-" r' => (true, r')
        | String "+" r' => (false, r')
        | _ => (false, r)
        end in
      let '(d, rest) := read_digits r1 in
      match d with
      | Decimal.Nil => None
      | _ => Some (if negative then (- Z.of_uint d)%Z else Z.of_uint d, rest)
      end
  | _ => Some (0%Z, s)
  end.

(** A numeric literal: an optional minus sign, then [0] or a digit string
    without leading zero, then an optional fraction and an optional
    exponent. *)
Definition parse_number (s : string) : option (JsVal * string) :=
  let '(negative, s1) :=
    match s with
    | String "-" r => (true, r)
    | _ => (false, s)
    end in
  let '(d, s2) := read_digits s1 in
  match d with
  | Decimal.Nil => None
  | Decimal.D0 (Decimal.D0 _ | Decimal.D1 _ | Decimal.D2 _ | Decimal.D3 _
               | Decimal.D4 _ | Decimal.D5 _ | Decimal.D6 _ | Decimal.D7 _
               | Decimal.D8 _ | Decimal.D9 _) => None
  | _ =>
      match read_fraction s2 with
      | Some (fraction, s3) =>
          match read_exponent s3 with
          | Some (exponent, rest) =>
              let whole := NilEmpty.string_of_uint d in
              Some (make_number negative (whole ++ fraction)
                      (Z.of_nat (String.length whole) + exponent),
                    rest)
          | None => None
          end
      | None => None
      end
  end.

(** [CreateDataProperty] on an ordinary object: an existing key keeps its
    place and takes the new value, a new key goes last. *)
Fixpoint set_prop {A : Type} (k : string) (v : A) (props : list (string * A))
  : list (string * A) :=
  match props with
  | [] => [(k, v)]
  | (k', v') :: rest =>
      if String.eqb k' k then (k', v) :: rest
      else (k', v') :: set_prop k v rest
  end.

(** The object of a member list read from left to right.  The properties
    are listed in the order of the text; that an object enumerates names
    that are array indices first is not modelled here. *)
Definition build_object (members : list (string * JsVal)) : JsVal :=
  VObj (fold_left (fun acc kv => set_prop (fst kv) (snd kv) acc) members []).

Fixpoint parse_value (fuel : nat) (s : string) {struct fuel}
  : option (JsVal * string) :=
  match fuel with
  | O => None
  | S n =>
      let s0 := skip_ws s in
      match s0 with
      | String "n" _ =>
          match strip_prefix "null" s0 with
          | Some r => Some (VNull, r) | None => None end
      | String "t" _ =>
          match strip_prefix "true" s0 with
          | Some r => Some (VBool true, r) | None => None end
      | String "f" _ =>
          match strip_prefix "false" s0 with
          | Some r => Some (VBool false, r) | None => None end
      | String "034" r =>
          match parse_string_body r with
          | Some (str, r') => Some (VStr str, r') | None => None end
      | String "[" r =>
          match skip_ws r with
          | String "]" r' => Some (VArr [], r')
          | _ =>
              match parse_elements n r with
              | Some (l, r') => Some (VArr l, r') | None => None end
          end
      | String "{" r =>
          match skip_ws r with
          | String "}" r' => Some (VObj [], r')
          | _ =>
              match parse_members n r with
              | Some (l, r') => Some (build_object l, r') | None => None end
          end
      | _ => parse_number s0
      end
  end
with parse_elements (fuel : nat) (s : string) {struct fuel}
  : option (list JsVal * string) :=
  match fuel with
  | O => None
  | S n =>
      match parse_value n s with
      | Some (v, r1) =>
          match skip_ws r1 with
          | String "," r2 =>
              match parse_elements n r2 with
              | Some (l, r3) => Some (v :: l, r3) | None => None end
          | String "]" r2 => Some ([v], r2)
          | _ => None
          end
      | None => None
      end
  end
with parse_members (fuel : nat) (s : string) {struct fuel}
  : option (list (string * JsVal) * string) :=
  match fuel with
  | O => None
  | S n =>
      match skip_ws s with
      | String "034" r0 =>
          match parse_string_body r0 with
          | Some (k, r1) =>
              match skip_ws r1 with
              | String ":" r2 =>
                  match parse_value n r2 with
                  | Some (v, r3) =>
                      match skip_ws r3 with
                      | String "," r4 =>
                          match parse_members n r4 with
                          | Some (l, r5) => Some ((k, v) :: l, r5)
                          | None => None
                          end
                      | String "}" r4 => Some ([(k, v)], r4)
                      | _ => None
                      end
                  | None => None
                  end
              | _ => None
              end
          | None => None
          end
      | _ => None
      end
  end.

(** [JSON.parse(text)]; [None] stands for the [SyntaxError]. *)
Definition JSON_parse (text : string) : option JsVal :=
  match parse_value (S (String.length text)) text with
  | Some (v, rest) =>
      match skip_ws rest with
      | EmptyString => Some v
      | String _ _ => None
      end
  | None => None
  end.

(** ** [Map] and [Set]

    A [Map<string, V>] is the list of its entries in insertion order, one
    entry per key.  A [Set] is the list of its members in insertion order. *)

Definition JsMap (V : Type) : Type := list (string * V).

(** [m.get(k)], [m.has(k)], [m.set(k, v)] and [m.delete(k)]. *)
Fixpoint map_get {V : Type} (k : string) (m : JsMap V) : option V :=
  match m with
  | [] => None
  | (k', v) :: rest => if String.eqb k' k then Some v else map_get k rest
  end.

Definition map_has {V : Type} (k : string) (m : JsMap V) : bool :=
  match map_get k m with Some _ => true | None => false end.

Definition map_set {V : Type} (k : string) (v : V) (m : JsMap V) : JsMap V :=
  set_prop k v m.

Definition map_delete {V : Type} (k : string) (m : JsMap V) : JsMap V :=
  List.filter (fun kv => negb (String.eqb (fst kv) k)) m.

(** [SameValueZero], the membership test of [Set] and of
    [Array.prototype.includes].  Primitives are compared by value; an object
    is the same value only as itself, and every object occurrence in a value
    tree is taken to be an object of its own, except a function of the
    language, which is the one object of its name. *)
Definition SameValueZero (a b : JsVal) : bool :=
  match a, b with
  | VUndefined, VUndefined => true
  | VNull, VNull => true
  | VBool x, VBool y => Bool.eqb x y
  | VNum x, VNum y => Z.eqb x y
  | VBigInt x, VBigInt y => Z.eqb x y
  | VStr x, VStr y => String.eqb x y
  | VDec nx dx px, VDec ny dy py =>
      Bool.eqb nx ny && String.eqb dx dy && Z.eqb px py
  | VFun x, VFun y => String.eqb x y
  | _, _ => false
  end.

(** [s.add(x)]. *)
Definition set_add (s : list JsVal) (x : JsVal) : list JsVal :=
  if List.existsb (SameValueZero x) s then s else s ++ [x].

(** [new Set(array)]. *)
Definition new_Set (l : list JsVal) : list JsVal :=
  fold_left set_add l [].

(** ** Event de-duplication ([TableChart.tsx], lines 293-347) *)

(** [DEDUPE_TTL_MS]; [ttl] is the reading of [getRemitaDedupeTtlMs()]. *)
Definition DEDUPE_TTL_MS (dedupeEnabled : bool) (ttl : Z) : Z :=
  if dedupeEnabled then ttl else 0%Z.

(** The object [{ action, chartId, actionType, values }] built from
    [msg || {}]. *)
Definition keyPayload (msg : JsVal) : JsVal :=
  let m := if truthy msg then msg else VObj [] in
  VObj [("action", get_prop m "action");
        ("chartId", get_prop m "chartId");
        ("actionType", get_prop m "actionType");
        ("values", get_prop m "values")].

(** [clock] is what [Date.now()] returns if the [catch] branch runs. *)
Definition makeEventKey (msg : JsVal) (clock : Z) : string :=
  match JSON_stringify (keyPayload msg) with
  | Text keyText => keyText
  | Omitted => ToString VUndefined
  | TypeError => ToString (VNum clock)
  end.

(** [recentEventsRef.current.get(key) || 0]. *)
Definition last_sent (recent : gmap string Z) (key : string) : Z :=
  match recent !! key with
  | Some ts => if Z.eqb ts 0 then 0%Z else ts
  | None => 0%Z
  end.

(** [shouldSendMessage]: the answer and the new content of
    [recentEventsRef.current].  [clock] and [now] are the two readings of
    [Date.now()], the first inside [makeEventKey]. *)
Definition shouldSendMessage (dedupeEnabled : bool) (ttl : Z)
    (recent : gmap string Z) (msg : JsVal) (clock now : Z)
  : bool * gmap string Z :=
  let TTL := DEDUPE_TTL_MS dedupeEnabled ttl in
  if negb dedupeEnabled || (TTL <=? 0)%Z then (true, recent)
  else
    let key := makeEventKey msg clock in
    let last := last_sent recent key in
    if (now - last <? TTL)%Z then (false, recent)
    else
      let recent1 := <[key := now]> recent in
      if Nat.ltb 200 (size recent1) then
        let cutoff := (now - TTL)%Z in
        (true, filter (fun kts : string * Z => ~ (snd kts < cutoff)%Z) recent1)
      else (true, recent1).

(** ** Selection store ([TableChart.tsx], lines 432-500 and 624-648) *)

Definition Selection : Type := JsMap Row.

(** [String(row[bulk_action_id_column])]. *)
Definition row_id (idColumn : string) (row : Row) : string :=
  ToString (lookup_prop idColumn row).

(** [ids.indexOf(x)], with [None] for [-1]. *)
Fixpoint indexOf (x : string) (ids : list string) : option nat :=
  match ids with
  | [] => None
  | y :: rest =>
      if String.eqb y x then Some 0
      else match indexOf x rest with
           | Some i => Some (S i)
           | None => None
           end
  end.

(** [rows.slice(from, to)] for indices inside the array. *)
Definition slice {A : Type} (from to : nat) (rows : list A) : list A :=
  firstn (to - from) (skipn from rows).

Definition select_rows (idColumn : string) (rows : list Row)
    (selected : Selection) : Selection :=
  fold_left (fun acc row => map_set (row_id idColumn row) row acc)
    rows selected.

(** [lastSelectedRow.current] used as a condition. *)
Definition anchor_of (lastSelectedRow : option string) : option string :=
  match lastSelectedRow with
  | Some id => if String.eqb id EmptyString then None else Some id
  | None => None
  end.

(** The updater of [handleRowSelect] together with its write to
    [lastSelectedRow.current].  [shiftKey] is [event?.shiftKey]. *)
Definition handleRowSelect (selection_mode : string) (data : list Row)
    (bulk_action_id_column : string) (rowId : string) (shiftKey : bool)
    (prev : Selection) (lastSelectedRow : option string)
  : Selection * option string :=
  let newSelected := prev in
  match List.find
          (fun row => String.eqb (row_id bulk_action_id_column row) rowId)
          data with
  | None => (newSelected, lastSelectedRow)
  | Some rowData =>
      if String.eqb selection_mode "single" then
        ([(rowId, rowData)], lastSelectedRow)
      else
        match (if shiftKey then anchor_of lastSelectedRow else None) with
        | Some anchor =>
            let visibleRows := data in
            let visibleIds :=
              List.map (row_id bulk_action_id_column) visibleRows in
            match indexOf anchor visibleIds, indexOf rowId visibleIds with
            | Some startIdx, Some endIdx =>
                let lo := Nat.min startIdx endIdx in
                let hi := Nat.max startIdx endIdx in
                (select_rows bulk_action_id_column
                   (slice lo (hi + 1) visibleRows) newSelected,
                 lastSelectedRow)
            | _, _ => (newSelected, lastSelectedRow)
            end
        | None =>
            (if map_has rowId newSelected then map_delete rowId newSelected
             else map_set rowId rowData newSelected,
             Some rowId)
        end
  end.

(** The updater of [handleBulkSelect]. *)
Definition handleBulkSelect (bulk_action_id_column : string)
    (visibleData : list Row) (prev : Selection) : Selection :=
  let newSelected := prev in
  let visibleIds := List.map (row_id bulk_action_id_column) visibleData in
  let allVisibleSelected :=
    Nat.ltb 0 (List.length visibleIds)
    && List.forallb (fun id => map_has id prev) visibleIds in
  if allVisibleSelected then
    fold_left (fun acc id => map_delete id acc) visibleIds newSelected
  else select_rows bulk_action_id_column visibleData newSelected.

(** ** Persisted selection ([TableChart.tsx], lines 438-461 and 548-559)

    [localStorage] is a finite map from keys to text.  The state variable
    [selectedRows] has the type [Map<string, D>], but what the restore
    effect puts into it is whatever [new Map] makes of the stored text; the
    state is therefore a [Map] with keys and values of any kind, given by
    its entries in insertion order. *)

Definition AnyMap : Type := list (JsVal * JsVal).

(** [m.set(k, v)]: keys are compared with [SameValueZero]; the entry of a
    key that the map has keeps its place. *)
Fixpoint anymap_set (k v : JsVal) (m : AnyMap) : AnyMap :=
  match m with
  | [] => [(k, v)]
  | (k', v') :: rest =>
      if SameValueZero k' k then (k', v) :: rest
      else (k', v') :: anymap_set k v rest
  end.

(** The state that holds a selection: ids as keys, rows as values. *)
Definition selection_state (selectedRows : Selection) : AnyMap :=
  List.map (fun kv => (VStr (fst kv), VObj (snd kv))) selectedRows.

Definition storage_key (sliceId : JsVal) : string :=
  "selectedRows_" ++ ToString sliceId.

(** [Array.from(selectedRows.entries())], for a selection and for a state
    of any kind. *)
Definition entries_value (selectedRows : Selection) : JsVal :=
  VArr (List.map (fun kv => VArr [VStr (fst kv); VObj (snd kv)]) selectedRows).

Definition state_entries (selectedRows : AnyMap) : JsVal :=
  VArr (List.map (fun kv => VArr [fst kv; snd kv]) selectedRows).

(** The effect that runs on every change of the selection. *)
Definition persist_effect (retainSelectionAcrossNavigation : bool)
    (sliceId : JsVal) (selectedRows : AnyMap)
    (localStorage : gmap string string) : gmap string string :=
  if retainSelectionAcrossNavigation then
    match JSON_stringify (state_entries selectedRows) with
    | Text serialized => <[storage_key sliceId := serialized]> localStorage
    | Omitted | TypeError => localStorage
    end
  else delete (storage_key sliceId) localStorage.

(** One entry of the iterable given to [new Map(...)]: [entry[0]] and
    [entry[1]], whatever they are; [None] for an entry that is not an
    object, on which the constructor throws. *)
Definition entry_of (entry : JsVal) : option (JsVal * JsVal) :=
  match entry with
  | VArr elems => Some (List.nth 0 elems VUndefined, List.nth 1 elems VUndefined)
  | VObj props => Some (read_prop "0" props, read_prop "1" props)
  | VDate _ _ | VSet _ | VFun _ => Some (VUndefined, VUndefined)
  | VUndefined | VNull | VBool _ | VNum _ | VDec _ _ _ | VBigInt _
  | VStr _ => None
  end.

Fixpoint add_entries (entries : list JsVal) (m : AnyMap) : option AnyMap :=
  match entries with
  | [] => Some m
  | entry :: rest =>
      match entry_of entry with
      | Some (k, v) => add_entries rest (anymap_set k v m)
      | None => None
      end
  end.

(** [new Map(iterable)]; [None] when the constructor throws.  [undefined]
    and [null] give the empty map; an array and a [Set] are walked; a text
    is walked by its characters, which are not objects, so that only the
    empty text is accepted; nothing else is iterable. *)
Definition new_Map (iterable : JsVal) : option AnyMap :=
  match iterable with
  | VUndefined | VNull => Some []
  | VArr entries => add_entries entries []
  | VSet members => add_entries members []
  | VStr text => if String.eqb text EmptyString then Some [] else None
  | VBool _ | VNum _ | VDec _ _ _ | VBigInt _ | VDate _ _ | VObj _
  | VFun _ => None
  end.

(** The mount-time effect guarded by [firstLoadRef]: the selection it hands
    to [setSelectedRows] (if any) and the storage it leaves. *)
Definition restore_effect (retainSelectionAcrossNavigation : bool)
    (sliceId : JsVal) (firstLoadRef : bool)
    (localStorage : gmap string string)
  : option AnyMap * gmap string string :=
  if firstLoadRef then (None, localStorage)
  else if retainSelectionAcrossNavigation then
    match localStorage !! storage_key sliceId with
    | Some savedSelectedRows =>
        if String.eqb savedSelectedRows EmptyString then (None, localStorage)
        else
          match JSON_parse savedSelectedRows with
          | Some parsed => (new_Map parsed, localStorage)
          | None => (None, localStorage)
          end
    | None => (None, localStorage)
    end
  else (None, delete (storage_key sliceId) localStorage).

(** First mount: the selection starts empty, the restore effect runs, then
    the persist effect of the same render, and after a [setSelectedRows] the
    persist effect of the next render. *)
Definition mount (retainSelectionAcrossNavigation : bool) (sliceId : JsVal)
    (localStorage : gmap string string) : AnyMap * gmap string string :=
  let '(restored, ls1) :=
    restore_effect retainSelectionAcrossNavigation sliceId false localStorage in
  let ls2 := persist_effect retainSelectionAcrossNavigation sliceId [] ls1 in
  match restored with
  | Some parsed =>
      (parsed, persist_effect retainSelectionAcrossNavigation sliceId parsed ls2)
  | None => ([], ls2)
  end.

(** ** Pagination read-out ([DataTable.tsx], lines 158, 168, 563-593, 684) *)

Record ServerPaginationData : Type := {
  sp_pageSize : option Z;
  sp_currentPage : option Z
}.

(** [a?.field ?? fallback]. *)
Definition optional_field {A : Type} (data : option ServerPaginationData)
    (field : ServerPaginationData -> option A) (fallback : A) : A :=
  match data with
  | Some d => match field d with Some x => x | None => fallback end
  | None => fallback
  end.

(** [Math.ceil(a / b)] for a non-zero divisor. *)
Definition ceil_div (a b : Z) : Z := (- ((- a) / b))%Z.

(** [Math.ceil(rowCount / size)], replaced by [0] when it is not finite:
    the quotient is infinite or NaN exactly when the divisor is zero. *)
Definition finite_page_count (rowCount size : Z) : Z :=
  if Z.eqb size 0 then 0%Z else ceil_div rowCount size.

Record PaginationProps : Type := {
  serverPagination : bool;
  rowCount : Z;
  data_length : Z;
  serverPaginationData : option ServerPaginationData;
  initialPageSize : Z;
  pageSizeOptions : list Z;
  (* state of the table hook *)
  pageCount : Z;
  pageSize : Z;
  pageIndex : Z
}.

Record PaginationView : Type := {
  resultPageCount : Z;
  resultCurrentPageSize : Z;
  resultCurrentPage : Z;
  (* whether the pagination bar is rendered at all *)
  paginationRendered : bool
}.

Definition resultsSize (p : PaginationProps) : Z :=
  if serverPagination p then rowCount p else data_length p.

Definition hasPagination (p : PaginationProps) : bool :=
  (0 <? initialPageSize p)%Z && (0 <? resultsSize p)%Z.

Definition render_pagination (p : PaginationProps) : PaginationView :=
  if serverPagination p then
    let serverPageSize :=
      optional_field (serverPaginationData p) sp_pageSize (initialPageSize p) in
    let count := finite_page_count (rowCount p) serverPageSize in
    let size :=
      if List.existsb (Z.eqb serverPageSize) (pageSizeOptions p)
      then serverPageSize
      else match List.last (List.map Some (pageSizeOptions p)) None with
           | Some fallback => fallback
           | None => serverPageSize
           end in
    {| resultPageCount := count;
       resultCurrentPageSize := size;
       resultCurrentPage :=
         optional_field (serverPaginationData p) sp_currentPage 0%Z;
       paginationRendered := hasPagination p && (1 <? count)%Z |}
  else
    {| resultPageCount := pageCount p;
       resultCurrentPageSize :=
         if Z.eqb (initialPageSize p) 0 then 0%Z else pageSize p;
       resultCurrentPage := pageIndex p;
       paginationRendered := hasPagination p && (1 <? pageCount p)%Z |}.

(** ** Action visibility ([ActionCell.tsx], lines 15-59) *)

(** [String.prototype.trim] on code units below 256: tab, line feed,
    vertical tab, form feed, carriage return, space, no-break space. *)
Definition is_space (c : ascii) : bool :=
  match c with
  | " "%char | "160"%char | "013"%char | "010"%char | "009"%char
  | "012"%char | "011"%char => true
  | _ => false
  end.

Fixpoint trim_start (s : string) : string :=
  match s with
  | String c r => if is_space c then trim_start r else s
  | EmptyString => s
  end.

Fixpoint trim_end (s : string) : string :=
  match s with
  | String c r =>
      match trim_end r with
      | EmptyString => if is_space c then EmptyString else String c EmptyString
      | r' => String c r'
      end
  | EmptyString => s
  end.

Definition trim (s : string) : string := trim_end (trim_start s).

(** [s.split(sep)] for a one-character separator. *)
Fixpoint split (sep : ascii) (s : string) : list string :=
  match s with
  | EmptyString => [EmptyString]
  | String c r =>
      if Ascii.eqb c sep then EmptyString :: split sep r
      else match split sep r with
           | piece :: pieces => String c piece :: pieces
           | [] => [String c EmptyString]
           end
  end.

(** [list.includes(x)] on strings. *)
Definition includes (x : string) (list : list string) : bool :=
  List.existsb (String.eqb x) list.

(** [String(condValue).split(",").map(s => s.trim())]. *)
Definition condition_list (condValue : JsVal) : list string :=
  List.map trim (split "," (ToString condValue)).

Section Operators.
(** The language's comparison primitives: [IsLooselyEqual] behind [==],
    and [IsLessThan] behind the four ordering operators, whose answer is
    [None] when an operand converts to NaN. *)
Variable IsLooselyEqual : JsVal -> JsVal -> bool.
Variable IsLessThan : JsVal -> JsVal -> option bool.

Definition js_eq (a b : JsVal) : bool := IsLooselyEqual a b.
Definition js_ne (a b : JsVal) : bool := negb (IsLooselyEqual a b).
Definition js_lt (a b : JsVal) : bool :=
  match IsLessThan a b with Some r => r | None => false end.
Definition js_gt (a b : JsVal) : bool :=
  match IsLessThan b a with Some r => r | None => false end.
Definition js_le (a b : JsVal) : bool :=
  match IsLessThan b a with Some r => negb r | None => false end.
Definition js_ge (a b : JsVal) : bool :=
  match IsLessThan a b with Some r => negb r | None => false end.

Definition evaluateVisibilityCondition (condition : JsVal) (row : Row)
  : bool :=
  if negb (truthy condition)
     || negb (truthy (get_prop condition "column"))
     || negb (truthy (get_prop condition "operator"))
  then true
  else
    let colKey :=
      match get_prop condition "column" with
      | VArr l => List.nth 0 l VUndefined
      | column => column
      end in
    let rowValue := read_prop (ToString colKey) row in
    let condValue := get_prop condition "value" in
    match get_prop condition "operator" with
    | VStr operator =>
        if String.eqb operator "==" then js_eq rowValue condValue
        else if String.eqb operator "!=" then js_ne rowValue condValue
        else if String.eqb operator ">" then js_gt rowValue condValue
        else if String.eqb operator "<" then js_lt rowValue condValue
        else if String.eqb operator ">=" then js_ge rowValue condValue
        else if String.eqb operator "<=" then js_le rowValue condValue
        else if String.eqb operator "IS NULL" then
          match rowValue with
          | VNull | VUndefined => true
          | _ => false
          end
        else if String.eqb operator "IS NOT NULL" then
          match rowValue with
          | VNull | VUndefined => false
          | _ => true
          end
        else if String.eqb operator "IN" then
          includes (ToString rowValue) (condition_list condValue)
        else if String.eqb operator "NOT IN" then
          negb (includes (ToString rowValue) (condition_list condValue))
        else true
    | _ => true
    end.
End Operators.

(** ** Action lists ([TableChart.tsx], lines 403-422) *)

Section ActionLists.
(** [JSON.parse], with [None] for a thrown [SyntaxError]. *)
Variable parse : string -> option JsVal.

Definition parseOrConvertToSet (input : JsVal) : list JsVal :=
  match input with
  | VStr text =>
      match parse text with
      | Some (VArr parsed) => new_Set parsed
      | Some _ => []
      | None => []
      end
  | VArr elems => new_Set elems
  | VSet members => members
  | _ => []
  end.
End ActionLists.

(** * Notions used in the statements, and sample data *)

Local Open Scope list_scope.

(** Test texts are written with apostrophes standing for double quotes. *)
Definition dq (s : string) : string :=
  string_of_list_ascii
    (List.map (fun c => if Ascii.eqb c "'" then "034"%char else c)
       (list_ascii_of_string s)).

(** ** Selections *)

(** Membership of an id in a list of ids, as a boolean. *)
Definition id_in (ids : list string) (id : string) : bool :=
  List.existsb (String.eqb id) ids.

(** The entries of a map whose keys are outside [ids], in order. *)
Definition without (ids : list string) {V : Type} (m : JsMap V) : JsMap V :=
  List.filter (fun kv => negb (id_in ids (fst kv))) m.

(** The last row of [rows] that carries the id [id]. *)
Fixpoint last_with_id (idColumn id : string) (rows : list Row) : option Row :=
  match rows with
  | [] => None
  | row :: rest =>
      match last_with_id idColumn id rest with
      | Some later => Some later
      | None => if String.eqb (row_id idColumn row) id then Some row else None
      end
  end.

(** Sample rows. *)
Definition row_a : Row := [("id", VStr "a"); ("amount", VNum 10)].
Definition row_b : Row := [("id", VStr "b"); ("amount", VNum 20)].
Definition row_c : Row := [("id", VStr "c"); ("amount", VNum 30)].

(** ** Messages *)

(** The message of the scenario in the description of the component. *)
Definition approve_message : JsVal :=
  VObj [("action", VStr "bulk-action"); ("chartId", VNum 1);
        ("actionType", VStr "approve");
        ("values", VArr [VObj [("id", VNum 1)]]);
        ("origin", VStr "bulk")].

(** The four fields the fingerprint is computed from, read off [msg || {}]. *)
Definition stable_fields (msg : JsVal) : JsVal * JsVal * JsVal * JsVal :=
  let m := if truthy msg then msg else VObj [] in
  (get_prop m "action", get_prop m "chartId", get_prop m "actionType",
   get_prop m "values").

(** Structural equality that disregards the order of object properties. *)
Fixpoint unordered_equal (a b : JsVal) : bool :=
  match a, b with
  | VUndefined, VUndefined => true
  | VNull, VNull => true
  | VBool x, VBool y => Bool.eqb x y
  | VNum x, VNum y => Z.eqb x y
  | VBigInt x, VBigInt y => Z.eqb x y
  | VStr x, VStr y => String.eqb x y
  | VDate x _, VDate y _ => String.eqb x y
  | VDec nx dx px, VDec ny dy py =>
      Bool.eqb nx ny && String.eqb dx dy && Z.eqb px py
  | VFun x, VFun y => String.eqb x y
  | VArr xs, VArr ys =>
      (fix each (xs ys : list JsVal) : bool :=
         match xs, ys with
         | [], [] => true
         | x :: xs', y :: ys' => unordered_equal x y && each xs' ys'
         | _, _ => false
         end) xs ys
  | VObj ps, VObj qs =>
      Nat.eqb (List.length ps) (List.length qs)
      && (fix each (ps : list (string * JsVal)) : bool :=
            match ps with
            | [] => true
            | (k, x) :: ps' =>
                List.existsb (fun kv => String.eqb (fst kv) k) qs
                && unordered_equal x (lookup_prop k qs)
                && each ps'
            end) ps
  | _, _ => false
  end.

(** Two messages that differ in the order of the properties of the row
    inside [values], and in nothing else. *)
Definition message_row_first : JsVal :=
  VObj [("action", VStr "bulk-action"); ("chartId", VNum 1);
        ("actionType", VStr "approve");
        ("values", VArr [VObj [("id", VNum 1); ("name", VStr "x")]]);
        ("origin", VStr "bulk")].

Definition message_row_second : JsVal :=
  VObj [("action", VStr "bulk-action"); ("chartId", VNum 1);
        ("actionType", VStr "approve");
        ("values", VArr [VObj [("name", VStr "x"); ("id", VNum 1)]]);
        ("origin", VStr "bulk")].

(** ** Pagination *)

Local Open Scope Z_scope.

(** 25 rows in pages of 10, with a page index left over from a longer
    result. *)
Definition stale_page_props : PaginationProps :=
  {| serverPagination := true;
     rowCount := 25;
     data_length := 10;
     serverPaginationData :=
       Some {| sp_pageSize := Some 10; sp_currentPage := Some 5 |};
     initialPageSize := 10;
     pageSizeOptions := [10; 20];
     pageCount := 3;
     pageSize := 10;
     pageIndex := 5 |}.

Local Close Scope Z_scope.

(** ** Visibility conditions *)

(** The value the condition is about: [row[colKey]], where [colKey] is the
    column of the condition, or its first element when it is an array.  It
    is the first property of the row with the name [String(colKey)]; for a
    row without such a property, the member of [Object.prototype] with that
    name; and [undefined] when there is no such member either. *)
Definition named_value (name : string) (props : list (string * JsVal))
  : option JsVal :=
  option_map snd (List.find (fun kv => String.eqb (fst kv) name) props).

Definition inherited_value (name : string) (props : list (string * JsVal))
  : JsVal :=
  match named_value name props with
  | Some value => value
  | None =>
      match named_value name Object_prototype with
      | Some value => value
      | None => VUndefined
      end
  end.

Definition condition_row_value (condition : JsVal) (row : Row) : JsVal :=
  let colKey :=
    match get_prop condition "column" with
    | VArr l => List.nth 0 l VUndefined
    | column => column
    end in
  inherited_value (ToString colKey) row.

(** White space of the language among the code units below 256: tab, line
    feed, vertical tab, form feed, carriage return, space and no-break
    space. *)
Definition white_space (c : ascii) : Prop :=
  In (nat_of_ascii c) [9; 10; 11; 12; 13; 32; 160].

Definition all_white (s : string) : Prop :=
  forall c, In c (list_ascii_of_string s) -> white_space c.

(** [t] is [s] without the white space at its two ends: [s] is [t] between
    two runs of white space, and [t] neither starts nor ends with white
    space. *)
Definition trimmed (s t : string) : Prop :=
  exists before after,
    s = (before ++ t ++ after)%string
    /\ all_white before /\ all_white after
    /\ (forall c r, t = String c r -> ~ white_space c)
    /\ (forall r c, t = (r ++ String c EmptyString)%string -> ~ white_space c).

(** [pieces] are the pieces of [text] between its commas: joined with
    commas they give [text], and none of them holds a comma. *)
Definition comma_pieces (text : string) (pieces : list string) : Prop :=
  pieces <> []
  /\ String.concat "," pieces = text
  /\ Forall (fun piece => ~ In ","%char (list_ascii_of_string piece)) pieces.

(** The text [x] is one of the pieces of [text] between commas, white space
    at the ends of the piece apart. *)
Definition listed (text x : string) : Prop :=
  exists pieces,
    comma_pieces text pieces
    /\ exists piece, In piece pieces /\ trimmed piece x.

(** The operators that [evaluateVisibilityCondition] has a case for. *)
Definition known_operators : list string :=
  ["=="; "!="; ">"; "<"; ">="; "<="; "IS NULL"; "IS NOT NULL"; "IN"; "NOT IN"].

(** [v === null || v === undefined]. *)
Definition is_nullish (v : JsVal) : bool :=
  match v with
  | VNull | VUndefined => true
  | _ => false
  end.

(** An instance of the two comparison primitives for [undefined], [null],
    booleans, whole numbers and texts that are literals of whole numbers,
    used to run the function on examples.  On other operands it answers as
    for operands that do not compare. *)
Fixpoint all_digits (s : string) : bool :=
  match s with
  | EmptyString => true
  | String c r =>
      Nat.leb 48 (nat_of_ascii c) && Nat.leb (nat_of_ascii c) 57
      && all_digits r
  end.

(** [StringToNumber] on integer literals; [None] is NaN. *)
Definition string_to_number (s : string) : option Z :=
  let t := trim s in
  match t with
  | EmptyString => Some 0%Z
  | String sign r =>
      let digits := if Ascii.eqb sign "-" || Ascii.eqb sign "+" then r else t in
      match digits with
      | EmptyString => None
      | _ =>
          if all_digits digits then
            let '(d, _) := read_digits digits in
            Some (if Ascii.eqb sign "-" then (- Z.of_uint d)%Z else Z.of_uint d)
          else None
      end
  end.

Definition to_number (v : JsVal) : option Z :=
  match v with
  | VNull => Some 0%Z
  | VBool b => Some (if b then 1 else 0)%Z
  | VNum z | VBigInt z => Some z
  | VStr s => string_to_number s
  | _ => None
  end.

Definition prim_loosely_equal (a b : JsVal) : bool :=
  match a, b with
  | (VUndefined | VNull), (VUndefined | VNull) => true
  | (VUndefined | VNull), _ | _, (VUndefined | VNull) => false
  | VStr x, VStr y => String.eqb x y
  | (VDate _ _ | VArr _ | VObj _ | VSet _ | VFun _), _
  | _, (VDate _ _ | VArr _ | VObj _ | VSet _ | VFun _) => false
  | _, _ =>
      match to_number a, to_number b with
      | Some x, Some y => Z.eqb x y
      | _, _ => false
      end
  end.

Definition prim_less_than (a b : JsVal) : option bool :=
  match a, b with
  | VStr x, VStr y =>
      Some match String.compare x y with Lt => true | _ => false end
  | _, _ =>
      match to_number a, to_number b with
      | Some x, Some y => Some (Z.ltb x y)
      | _, _ => None
      end
  end.

(** A condition on the column [status], and a row to evaluate it on. *)
Definition status_condition (operator : string) (value : JsVal) : JsVal :=
  VObj [("column", VStr "status"); ("operator", VStr operator);
        ("value", value)].

Definition pending_row : Row :=
  [("id", VNum 7); ("status", VStr "pending"); ("amount", VNum 120)].

(** ** Sets *)

(** No two members of a set are the same value. *)
Fixpoint distinct_members (s : list JsVal) : Prop :=
  match s with
  | [] => True
  | x :: rest =>
      (forall y, In y rest -> SameValueZero x y = false)
      /\ distinct_members rest
  end.

(** ** JSON text *)

Local Open Scope string_scope.

(** What follows a value in JSON text does not start with a digit. *)
Definition no_digit_ahead (rest : string) : Prop :=
  read_digits rest = (Decimal.Nil, rest).

(** No key occurs twice. *)
Fixpoint unique_keys {A : Type} (l : list (string * A)) : bool :=
  match l with
  | [] => true
  | (k, _) :: rest =>
      negb (List.existsb (fun kv => String.eqb (fst kv) k) rest)
      && unique_keys rest
  end.

(** The whole number that a run of digits writes, digit by digit. *)
Fixpoint digits_from (acc : Z) (s : string) : Z :=
  match s with
  | EmptyString => acc
  | String c r => digits_from (10 * acc + Z.of_nat (nat_of_ascii c - 48)) r
  end.

(** The form in which a number that is not whole is given: digits only,
    the first and the last of them not [0], and the decimal point before
    the last of them. *)
Definition decimal_form (digits : string) (point : Z) : bool :=
  all_digits digits
  && match digits with
     | String c _ => negb (Ascii.eqb c "0")
     | EmptyString => false
     end
  && String.eqb (strip_trailing_zeros digits) digits
  && (point <? Z.of_nat (String.length digits))%Z.

(** Values that JSON text represents as they are: [null], booleans,
    numbers, texts, arrays and objects of such values, every object with
    distinct property names. *)
Fixpoint json_plain (v : JsVal) : bool :=
  match v with
  | VNull | VBool _ | VNum _ | VStr _ => true
  | VUndefined | VBigInt _ | VDate _ _ | VSet _ | VFun _ => false
  | VDec _ digits point => decimal_form digits point
  | VArr l =>
      (fix all (l : list JsVal) : bool :=
         match l with
         | [] => true
         | x :: r => json_plain x && all r
         end) l
  | VObj l =>
      unique_keys l
      && (fix all (l : list (string * JsVal)) : bool :=
            match l with
            | [] => true
            | kv :: r => json_plain (snd kv) && all r
            end) l
  end.

(** The fuel that reading a value back takes. *)
Fixpoint parse_cost (v : JsVal) : nat :=
  match v with
  | VArr l =>
      S ((fix sum (l : list JsVal) : nat :=
            match l with
            | [] => 0
            | x :: r => S (parse_cost x + sum r)
            end) l)
  | VObj l =>
      S ((fix sum (l : list (string * JsVal)) : nat :=
            match l with
            | [] => 0
            | kv :: r => S (parse_cost (snd kv) + sum r)
            end) l)
  | _ => 1
  end.

(** The same for the elements of an array and the members of an object. *)
Fixpoint elements_cost (l : list JsVal) : nat :=
  match l with
  | [] => 0
  | x :: r => S (parse_cost x + elements_cost r)
  end.

Fixpoint members_cost (l : list (string * JsVal)) : nat :=
  match l with
  | [] => 0
  | kv :: r => S (parse_cost (snd kv) + members_cost r)
  end.

(** The two loops of [serialize], named. *)
Fixpoint serialize_elements (l : list JsVal) : option (list string) :=
  match l with
  | [] => Some []
  | x :: r =>
      match serialize x, serialize_elements r with
      | Text t, Some ts => Some (t :: ts)
      | Omitted, Some ts => Some ("null" :: ts)
      | _, _ => None
      end
  end.

Fixpoint serialize_members (l : list (string * JsVal))
  : option (list string) :=
  match l with
  | [] => Some []
  | (k, x) :: r =>
      match serialize x, serialize_members r with
      | Text t, Some ts => Some ((quote k ++ ":" ++ t) :: ts)
      | Omitted, Some ts => Some ts
      | _, _ => None
      end
  end.

(** The characters a JSON value can start with. *)
Definition value_start (c : ascii) : bool :=
  match c with
  | "n" | "t" | "f" | "034" | "[" | "{" | "-"
  | "0" | "1" | "2" | "3" | "4" | "5" | "6" | "7" | "8" | "9" => true
  | _ => false
  end%char.

(** The characters a numeric literal can start with. *)
Definition number_start (c : ascii) : bool :=
  match c with
  | "-" | "0" | "1" | "2" | "3" | "4" | "5" | "6" | "7" | "8" | "9" => true
  | _ => false
  end%char.

(** The text is not empty and its first character passes the test. *)
Definition starts_with (test : ascii -> bool) (s : string) : Prop :=
  match s with
  | String c _ => test c = true
  | EmptyString => False
  end.

(** What follows a value inside JSON text, or the end of the text. *)
Definition delimited (rest : string) : Prop :=
  match rest with
  | EmptyString => True
  | String c _ => c = ","%char \/ c = "]"%char \/ c = "}"%char
  end.

(** A value is read back from its text, whatever delimiter follows. *)
Definition reads_back (v : JsVal) : Prop :=
  json_plain v = true ->
  exists t,
    serialize v = Text t
    /\ starts_with value_start t
    /\ parse_cost v <= String.length t
    /\ forall fuel rest,
         parse_cost v <= fuel -> delimited rest ->
         parse_value fuel (t ++ rest) = Some (v, rest).

(** The character a member of an object starts with. *)
Definition quote_start (c : ascii) : bool := Ascii.eqb c "034".

Local Close Scope string_scope.

(** ** Persisted selections *)

(** A selection with one entry per id whose rows are JSON data. *)
Definition selection_plain (selectedRows : Selection) : bool :=
  unique_keys selectedRows
  && List.forallb (fun kv => json_plain (VObj (snd kv))) selectedRows.

(** A row with a temporal column, which the chart holds as a [Date]. *)
Definition dated_row : Row :=
  [("id", VNum 1);
   ("created",
    VDate "2024-01-01T00:00:00.000Z"
      "Mon Jan 01 2024 00:00:00 GMT+0000 (Coordinated Universal Time)")].

(** * Further parts of the component

    The functions around the ones above: the settings of the
    de-duplication, the messages that the action handlers build, the bulk
    action bar ([BulkActions.tsx]), the selection column, the page size and
    the column order of [DataTable.tsx], the own state of the table, the
    action settings of the control panel
    ([components/controls/ActionsTabbedControl.jsx]) and the progress
    indicator of the filter bar ([FilterBar/Horizontal.tsx],
    [FilterBar/ActionButtons/index.tsx]). *)

Local Open Scope string_scope.

(** ** Reading values *)

(** [a ?? b] and [a || b]. *)
Definition nullish_or (a b : JsVal) : JsVal :=
  if is_nullish a then b else a.

Definition truthy_or (a b : JsVal) : JsVal :=
  if truthy a then a else b.

(** [v[i]] for an index [i]; [None] when the read throws, which it does on
    [null] and [undefined]. *)
Definition get_index (v : JsVal) (i : nat) : option JsVal :=
  match v with
  | VUndefined | VNull => None
  | VArr elems => Some (List.nth i elems VUndefined)
  | VStr s =>
      Some (match String.get i s with
            | Some c => VStr (String c EmptyString)
            | None => VUndefined
            end)
  | VObj props => Some (lookup_prop (Z_to_string (Z.of_nat i)) props)
  | VBool _ | VNum _ | VBigInt _ | VDate _ _ | VSet _ | VDec _ _ _
  | VFun _ => Some VUndefined
  end.

(** [{ ...base, k1: v1, ..., kn: vn }]: the properties of [base], then the
    listed ones written in order. *)
Definition spread_with (base updates : list (string * JsVal))
  : list (string * JsVal) :=
  fold_left (fun acc kv => set_prop (fst kv) (snd kv) acc) updates base.

(** ** De-duplication settings ([TableChart.tsx], lines 296-318)

    [featureFlags] is [window.featureFlags]; [flagEntry] is the answer of
    [isFeatureEnabled] for the [RemitaEventDedupeEnabled] entry of
    [FeatureFlag], and [None] when there is no such entry or the lookup
    throws. *)
Definition getRemitaDedupeEnabled (featureFlags : JsVal)
    (flagEntry : option JsVal) : bool :=
  match get_prop featureFlags "REMITA_EVENT_DEDUPE_ENABLED" with
  | VBool flag => flag
  | _ =>
      match flagEntry with
      | Some answer => truthy answer
      | None => true
      end
  end.

(** [getRemitaDedupeTtlMs] answers a number of milliseconds, which the code
    only ever compares with whole numbers: with [0], and with the
    difference of two readings of the clock.  A window that is not a whole
    number is therefore given by the least whole number above it, which
    compares with every whole number as the window itself does. *)
Definition whole_above (negative : bool) (digits : string) (point : Z) : Z :=
  let whole := digits_value (first_chars (Z.to_nat point) digits) in
  if negative then (- whole)%Z else (whole + 1)%Z.

Definition getRemitaDedupeTtlMs (featureFlags : JsVal) : Z :=
  match get_prop featureFlags "REMITA_EVENT_DEDUPE_TTL_MS" with
  | VNum v => v
  | VDec negative digits point => whole_above negative digits point
  | _ => 1000%Z
  end.

(** ** Outbound messages

    Each function below is modelled by the message it hands to
    [sendWindowPostMessage], or by the arguments it hands to its callback. *)

(** [BulkActions.handleActionClick] ([BulkActions.tsx], lines 134-150): the
    key given to [onActionClick]. *)
Definition bulk_action_key (action : JsVal) : JsVal :=
  nullish_or (get_prop action "key") (VStr (ToString action)).

(** [DataTable.handleBulkAction] ([DataTable.tsx], lines 340-345);
    [Array.from(selectedRows)] is the array of the map's entries. *)
Definition handleBulkAction {A : Type}
    (onBulkActionClick : option (JsVal -> JsVal -> A))
    (selectedRows : option Selection) (actionKey : JsVal) : option A :=
  match onBulkActionClick, selectedRows with
  | Some click, Some rows => Some (click actionKey (entries_value rows))
  | _, _ => None
  end.

(** [pairs.map(pair => pair[1])]. *)
Fixpoint second_components (pairs : list JsVal) : option (list JsVal) :=
  match pairs with
  | [] => Some []
  | entry :: rest =>
      match get_index entry 1, second_components rest with
      | Some x, Some xs => Some (x :: xs)
      | _, _ => None
      end
  end.

(** [handleTableAction] ([TableChart.tsx], lines 503-540): the message sent,
    [None] when the function throws before sending. *)
Definition handleTableAction (chartId actionOrKey maybeSelected : JsVal)
  : option JsVal :=
  match actionOrKey with
  | VStr actionKey =>
      let values :=
        match maybeSelected with
        | VArr selected =>
            match selected with
            | VArr [_; _] :: _ =>
                match second_components selected with
                | Some rows => Some (VArr rows)
                | None => None
                end
            | _ => Some maybeSelected
            end
        | _ => Some (VArr [])
        end in
      match values with
      | Some values =>
          Some (VObj [("action", VStr "bulk-action");
                      ("chartId", chartId);
                      ("actionType", VStr actionKey);
                      ("values", values);
                      ("origin", VStr "bulk")])
      | None => None
      end
  | _ =>
      let action := if truthy actionOrKey then actionOrKey else VObj [] in
      let origin :=
        match get_prop action "action" with
        | VStr name => if String.eqb name "bulk-action" then "bulk" else "row"
        | _ => "row"
        end in
      Some (VObj [("action", get_prop action "action");
                  ("chartId", nullish_or (get_prop action "chartId") chartId);
                  ("actionType", get_prop action "key");
                  ("values", get_prop action "value");
                  ("origin", VStr origin)])
  end.

(** The names that are array indices: the decimal texts of the whole
    numbers from 0 to 2^32 - 2.  An object enumerates its properties with
    such names first, in ascending order of the numbers, and after them
    its other properties in the order in which they were created. *)
Definition array_index (key : string) : option Z :=
  if all_digits key && negb (String.eqb key EmptyString) then
    let z := Z.of_uint (fst (read_digits key)) in
    if String.eqb (Z_to_string z) key && (z <? 4294967295)%Z then Some z
    else None
  else None.

(** The place that a new property takes among the properties that an
    object has: with an array index as its name, before the first property
    with a greater index or with another kind of name; otherwise at the
    end. *)
Fixpoint insert_index (i : Z) (key : string) (v : JsVal)
    (props : list (string * JsVal)) : list (string * JsVal) :=
  match props with
  | [] => [(key, v)]
  | (k', v') :: rest =>
      match array_index k' with
      | Some j =>
          if (i <? j)%Z then (key, v) :: props
          else (k', v') :: insert_index i key v rest
      | None => (key, v) :: props
      end
  end.

(** [o[key] = v] on a plain object [o] for a name other than [__proto__]:
    a property that [o] has takes the value and keeps its place, a new one
    is created. *)
Definition define_prop (key : string) (v : JsVal)
    (props : list (string * JsVal)) : list (string * JsVal) :=
  if has_prop key props then set_prop key v props
  else
    match array_index key with
    | Some i => insert_index i key v props
    | None => (props ++ [(key, v)])%list
    end.

(** [ActionCell.handleActionClick] ([ActionCell.tsx], lines 94-118): the
    step [if (k in row) trimmed[k] = row[k]], the row sent along, and the
    object given to [onActionClick].  The test [in] and the read follow the
    prototype of the row.  The assignment to the name [__proto__] goes to
    the setter that [trimmed] inherits, and gives [trimmed] no property.
    (That setter gives [trimmed] the prototype it is handed when that is an
    object or [null], which is so only for a row that has a property of
    its own named [__proto__]; the prototype of [trimmed] is not followed
    here.) *)
Definition copy_column (row trimmed : Row) (k : JsVal) : Row :=
  let key := ToString k in
  if in_object key row then
    if String.eqb key "__proto__" then trimmed
    else define_prop key (read_prop key row) trimmed
  else trimmed.

Definition payloadRow (config : JsVal) (row : Row) : Row :=
  match get_prop config "valueColumns" with
  | VArr (column :: columns) =>
      fold_left (copy_column row) (column :: columns) []
  | _ => row
  end.

(** Notions for the order of the properties of the row sent along: a name
    that is the array index [z]; names that are array indices in ascending
    order; the names of a list in the order in which it first has them. *)
Definition index_name (k : string) (z : Z) : Prop :=
  (0 <= z < 4294967295)%Z /\ k = Z_to_string z.

Fixpoint ascending (names : list string) : Prop :=
  match names with
  | [] => True
  | a :: rest =>
      (forall b, In b rest ->
         exists x y, index_name a x /\ index_name b y /\ (x < y)%Z)
      /\ ascending rest
  end.

Fixpoint first_occurrences (names : list string) : list string :=
  match names with
  | [] => []
  | a :: rest =>
      a :: List.filter (fun b => negb (String.eqb b a)) (first_occurrences rest)
  end.

(** The same steps on the names alone. *)
Definition is_index (key : string) : bool :=
  match array_index key with Some _ => true | None => false end.

Fixpoint insert_name (i : Z) (key : string) (names : list string)
  : list string :=
  match names with
  | [] => [key]
  | k' :: rest =>
      match array_index k' with
      | Some j =>
          if (i <? j)%Z then key :: names else k' :: insert_name i key rest
      | None => key :: names
      end
  end.

Definition define_name (names : list string) (key : string) : list string :=
  if includes key names then names
  else
    match array_index key with
    | Some i => insert_name i key names
    | None => (names ++ [key])%list
    end.

Definition handleActionClick (chartId config : JsVal) (row : Row) : JsVal :=
  VObj [("action", VStr "table-action");
        ("chartId", chartId);
        ("key", get_prop config "key");
        ("value", VArr [VObj (payloadRow config row)])].

(** The listener for [remita.notification] events ([TableChart.tsx], lines
    587-600), on [event.detail]. *)
Inductive Notified : Type :=
| NotifyThrows
| NotifyIgnored
| NotifyAlert (data : JsVal)
| NotifyPublish (enriched : JsVal).

(** [{ origin: 'origin' in data ? data.origin : 'header', ...data }] for a
    truthy [data]; the [in] test throws on a primitive.  Spreading an array
    copies its elements under their indices, which an object enumerates
    before its other properties; spreading a [Date], a [Set] or a function
    copies nothing.  For an object, the properties are listed in the order
    in which they are written; that an object enumerates names that are
    array indices first is not modelled. *)
Definition enrich (data : JsVal) : option JsVal :=
  match data with
  | VObj props =>
      let origin :=
        if has_prop "origin" props then lookup_prop "origin" props
        else VStr "header" in
      Some (VObj (spread_with [("origin", origin)] props))
  | VArr elems =>
      Some (VObj
              (List.map
                 (fun ix => (Z_to_string (Z.of_nat (fst ix)), snd ix))
                 (List.combine (List.seq 0 (List.length elems)) elems)
               ++ [("origin", VStr "header")])%list)
  | VDate _ _ | VSet _ | VFun _ => Some (VObj [("origin", VStr "header")])
  | _ => None
  end.

Definition handleMessage (eventData : JsVal) : Notified :=
  if is_nullish eventData then NotifyThrows
  else
    let data := get_prop eventData "data" in
    let notification := get_prop eventData "notification" in
    let is_text expected :=
      match notification with
      | VStr text => String.eqb text expected
      | _ => false
      end in
    if truthy data && is_text "alert-event" then NotifyAlert data
    else if truthy data && is_text "publish-event" then
      match enrich data with
      | Some enriched => NotifyPublish enriched
      | None => NotifyThrows
      end
    else NotifyIgnored.

(** ** Bulk action bar ([BulkActions.tsx], lines 80-110, 152-159, 198 and
    223) *)

(** [v === text]. *)
Definition text_is (v : JsVal) (text : string) : bool :=
  match v with
  | VStr s => String.eqb s text
  | _ => false
  end.

(** [initialSelectedRows?.size > 0]. *)
Definition hasSelection (initialSelectedRows : option Selection) : bool :=
  match initialSelectedRows with
  | Some rows => Nat.ltb 0 (List.length rows)
  | None => false
  end.

(** The test of the two filters; [None] when the action is [null] or
    [undefined], on which the property read throws. *)
Definition action_visible (selected : bool) (action : JsVal) : option bool :=
  if is_nullish action then None
  else
    let visibilityCondition := get_prop action "visibilityCondition" in
    Some (negb (truthy (get_prop action "showInSliceHeader"))
          && (text_is visibilityCondition "all"
              || text_is visibilityCondition "selected"
              || (text_is visibilityCondition "unselected" && negb selected)
              || negb (truthy visibilityCondition))).

(** [actions.filter(action => ...)] with that test. *)
Fixpoint filter_visible (selected : bool) (actions : list JsVal)
  : option (list JsVal) :=
  match actions with
  | [] => Some []
  | action :: rest =>
      match action_visible selected action, filter_visible selected rest with
      | Some keep, Some kept => Some (if keep then action :: kept else kept)
      | _, _ => None
      end
  end.

(** [disabled={action.boundToSelection && !hasSelection}]. *)
Definition item_disabled (selected : bool) (action : JsVal) : bool :=
  truthy (get_prop action "boundToSelection") && negb selected.

Record BulkActionBar : Type := {
  dropdown : list JsVal;
  buttons : list JsVal;
  shouldShowDropdown : bool;
  isDropdownDisabled : bool
}.

(** What the component derives before it renders; [split] and [nonSplit] are
    the members of the two action sets, [None] for a set that is absent. *)
Definition bulk_action_bar (initialSelectedRows : option Selection)
    (split nonSplit : option (list JsVal)) (showSplitInSliceHeader : bool)
  : option BulkActionBar :=
  let selected := hasSelection initialSelectedRows in
  let splitActions := match split with Some l => l | None => [] end in
  let nonSplitActions := match nonSplit with Some l => l | None => [] end in
  match filter_visible selected splitActions,
        filter_visible selected nonSplitActions with
  | Some visibleDropdown, Some visibleButtons =>
      let allDropdownActionsRequireSelection :=
        List.forallb (fun a => truthy (get_prop a "boundToSelection"))
          visibleDropdown in
      Some {| dropdown := visibleDropdown;
              buttons := visibleButtons;
              shouldShowDropdown :=
                Nat.ltb 0 (List.length visibleDropdown)
                && negb showSplitInSliceHeader;
              isDropdownDisabled :=
                negb selected && allDropdownActionsRequireSelection |}
  | _, _ => None
  end.

(** ** Selection column ([TableChart.tsx], lines 1522-1611) *)

(** The header cell: [allVisibleSelected] and [someVisibleSelected], the
    checked and the indeterminate state of the header checkbox. *)
Definition header_state (bulk_action_id_column : string)
    (pageData : option (list Row)) (selectedRows : Selection) : bool * bool :=
  let visibleIds :=
    List.map (row_id bulk_action_id_column)
      (match pageData with Some rows => rows | None => [] end) in
  let allVisibleSelected :=
    Nat.ltb 0 (List.length visibleIds)
    && List.forallb (fun id => map_has id selectedRows) visibleIds in
  let someVisibleSelected :=
    negb allVisibleSelected
    && List.existsb (fun id => map_has id selectedRows) visibleIds in
  (allVisibleSelected, someVisibleSelected).

(** The body cell: [String(row.original[bulk_action_id_column] ?? row.index)]. *)
Definition cell_row_id (bulk_action_id_column : string) (original : Row)
    (index : nat) : string :=
  ToString (nullish_or (lookup_prop bulk_action_id_column original)
              (VNum (Z.of_nat index))).

(** The updater in [onChange] of the radio button and of the checkbox of a
    body cell (the two are the same); [checked] is [e.target.checked]. *)
Definition cell_onChange (data : list Row) (bulk_action_id_column : string)
    (rowId : string) (checked : bool) (prev : Selection) : Selection :=
  let newSelected := prev in
  if checked then
    match List.find
            (fun row => String.eqb (row_id bulk_action_id_column row) rowId)
            data with
    | Some rowData => map_set rowId rowData newSelected
    | None => newSelected
    end
  else map_delete rowId newSelected.

(** The boxes of the given cells, each a position and a row, ticked one
    after the other. *)
Definition tick_cells (data : list Row) (bulk_action_id_column : string)
    (cells : list (nat * Row)) (prev : Selection) : Selection :=
  fold_left
    (fun selected cell =>
       cell_onChange data bulk_action_id_column
         (cell_row_id bulk_action_id_column (snd cell) (fst cell)) true
         selected)
    cells prev.

(** ** Page size handed to the table hook ([DataTable.tsx], lines 158-166,
    220-225, 330-338 and 520-532) *)

(** [a || b] on numbers. *)
Definition number_or (a b : Z) : Z := if Z.eqb a 0 then b else a.

Definition desiredPageSize (p : PaginationProps) : Z :=
  if serverPagination p then
    let serverPageSizeForTable :=
      optional_field (serverPaginationData p) sp_pageSize (initialPageSize p) in
    number_or (number_or serverPageSizeForTable (initialPageSize p)) 10%Z
  else if (0 <? initialPageSize p)%Z then initialPageSize p
  else number_or (resultsSize p) 10%Z.

(** The [pageCount] option given to the table hook; [None] is
    [undefined]. *)
Definition serverPageCount (p : PaginationProps) : option Z :=
  let serverPageSize :=
    if serverPagination p then
      Some (number_or
              (optional_field (serverPaginationData p) sp_pageSize
                 (initialPageSize p)) 10%Z)
    else None in
  match serverPageSize with
  | Some size =>
      if Z.eqb size 0 then None else Some (ceil_div (rowCount p) size)
  | None => None
  end.

(** [setPageSize]: the arguments of the call of [onServerPaginationChange]
    and the argument of the call of the hook's own setter, [None] where the
    call is not made. *)
Definition setPageSize (p : PaginationProps) (size : Z)
  : option (Z * Z) * option Z :=
  (if serverPagination p then Some (0%Z, size) else None,
   if negb (Z.eqb size 0) || negb (Z.eqb (resultsSize p) 0)
   then Some (if Z.eqb size 0 then resultsSize p else size)
   else None).

(** The forced update during render: the new content of [pageSizeRef] and
    the argument of the call of the hook's setter. *)
Definition sync_page_size (p : PaginationProps) (pageSizeRef : Z * Z)
  : (Z * Z) * option Z :=
  if negb (Z.eqb (fst pageSizeRef) (desiredPageSize p))
     || (negb (serverPagination p)
         && Z.eqb (initialPageSize p) 0
         && negb (Z.eqb (snd pageSizeRef) (resultsSize p)))
  then
    ((desiredPageSize p, resultsSize p),
     if negb (Z.eqb (desiredPageSize p) 0) || negb (Z.eqb (resultsSize p) 0)
     then Some (if Z.eqb (desiredPageSize p) 0 then resultsSize p
                else desiredPageSize p)
     else None)
  else (pageSizeRef, None).

(** The page sizes on offer ([TableChart.tsx], lines 374-379), from the
    sizes of the list of options in force. *)
Definition pageSizeOptions_for (serverPagination : bool)
    (rowCount data_length : Z) (opts : list Z) : list Z :=
  List.filter
    (fun n =>
       if serverPagination then (n <=? rowCount)%Z
       else (n <=? 2 * data_length)%Z)
    opts.

(** ** Own state of the table ([TableChart.tsx], lines 1394-1444)

    [serverPaginationData] is an object or is absent; each handler is
    modelled by the properties of the object it hands to
    [updateTableOwnState], [None] when it does not make the call. *)

Definition own_state (serverPaginationData : option (list (string * JsVal)))
  : list (string * JsVal) :=
  match serverPaginationData with
  | Some props => props
  | None => []
  end.

Definition handleSearch
    (serverPaginationData : option (list (string * JsVal)))
    (defaultSearchColumn searchText : JsVal) : list (string * JsVal) :=
  spread_with (own_state serverPaginationData)
    [("searchColumn",
      truthy_or (lookup_prop "searchColumn" (own_state serverPaginationData))
        defaultSearchColumn);
     ("searchText", searchText);
     ("currentPage", VNum 0)].

Definition handleChangeSearchCol
    (serverPaginationData : option (list (string * JsVal)))
    (searchCol : string) : option (list (string * JsVal)) :=
  let current := lookup_prop "searchColumn" (own_state serverPaginationData) in
  if text_is current searchCol then None
  else
    Some (spread_with (own_state serverPaginationData)
            [("searchColumn", VStr searchCol);
             ("searchText", VStr EmptyString)]).

(** The effect that copies the configured page length into the own state;
    [pageSize] is the property of the chart. *)
Definition sync_page_length (serverPagination : bool) (pageSize : JsVal)
    (serverPaginationData : option (list (string * JsVal)))
  : option (list (string * JsVal)) :=
  if negb serverPagination then None
  else
    let incomingSize := pageSize in
    let currentSize := lookup_prop "pageSize" (own_state serverPaginationData) in
    if truthy incomingSize && is_nullish currentSize then
      Some (spread_with (own_state serverPaginationData)
              [("currentPage", VNum 0); ("pageSize", incomingSize)])
    else None.

(** [handleServerPaginationChange] is made by
    [useCallback(fn, [setDataMask])].  A render of the chart is, as far as
    this callback goes, the [setDataMask] function it is given (a number
    stands for the function object) and its [serverPaginationData]. *)
Record ChartRender : Type := {
  setDataMask : nat;
  render_serverPaginationData : option (list (string * JsVal))
}.

(** The render whose function [useCallback] hands out after the first
    render [mount] and the renders [rerenders] that follow it: the function
    kept from the render before while [setDataMask] is the same function as
    then, the function of the current render otherwise. *)
Definition useCallback_render (mount : ChartRender)
    (rerenders : list ChartRender) : ChartRender :=
  fold_left
    (fun kept render =>
       if Nat.eqb (setDataMask render) (setDataMask kept) then kept
       else render)
    rerenders mount.

(** The callback in use after these renders: it spreads the
    [serverPaginationData] of the render in which it was created, not the
    one of the render in which it is called. *)
Definition handleServerPaginationChange (mount : ChartRender)
    (rerenders : list ChartRender) (pageNumber pageSize : JsVal)
  : list (string * JsVal) :=
  let serverPaginationData :=
    render_serverPaginationData (useCallback_render mount rerenders) in
  spread_with (own_state serverPaginationData)
    [("currentPage", pageNumber); ("pageSize", pageSize)].

(** ** Global filter ([DataTable.tsx], lines 251-283) *)

Section GlobalFilter.
(** The rows of the table hook, and the two uses of the [matchSorter]
    library: by one column, and across the columns and their joined text. *)
Variable TableRow : Type.
Variable matchSorter_column : list TableRow -> string -> JsVal -> list TableRow.
Variable matchSorter_all : list TableRow -> string -> list string -> list TableRow.

Definition defaultGlobalFilter (rows : list TableRow) (columnIds : list string)
    (filterValue : JsVal) : list TableRow :=
  let is_object :=
    match filterValue with
    | VObj _ | VArr _ | VDate _ _ | VSet _ => true
    | _ => false
    end in
  let has_text :=
    match get_prop filterValue "text" with
    | VUndefined => false
    | _ => true
    end in
  let text :=
    if is_object && has_text
    then ToString (nullish_or (get_prop filterValue "text") (VStr EmptyString))
    else ToString (nullish_or filterValue (VStr EmptyString)) in
  let column :=
    if is_object && has_text then get_prop filterValue "column"
    else VUndefined in
  if String.eqb text EmptyString then rows
  else if truthy column then matchSorter_column rows text column
  else matchSorter_all rows text columnIds.
End GlobalFilter.

(** ** Action settings ([ActionsTabbedControl.jsx], lines 21-59) *)

(** [typeof v === 'boolean' ? v : !!v ?? fallback]. *)
Definition toBool (v fallback : JsVal) : JsVal :=
  match v with
  | VBool _ => v
  | _ => nullish_or (VBool (truthy v)) fallback
  end.

(** [v == null ? fallback : String(v)]. *)
Definition toStr (v fallback : JsVal) : JsVal :=
  if is_nullish v then fallback else VStr (ToString v).

(** [columns?.[0] ?? ''] *)
Definition first_column (columns : JsVal) : JsVal :=
  nullish_or
    (match get_index columns 0 with Some c => c | None => VUndefined end)
    (VStr EmptyString).

Definition coerceConfig (value columns valueColumn : JsVal) : JsVal :=
  let v :=
    match value with
    | VObj _ | VArr _ | VDate _ _ | VSet _ => value
    | _ => VObj []
    end in
  let selection_mode := get_prop v "selection_mode" in
  VObj
    [("enable_bulk_actions",
      toBool (get_prop v "enable_bulk_actions") (VBool false));
     ("selection_enabled",
      toBool (get_prop v "selection_enabled") (VBool false));
     ("selection_mode",
      if text_is selection_mode "single" || text_is selection_mode "multiple"
      then selection_mode else VStr "multiple");
     ("bulk_action_id_column",
      truthy_or (get_prop v "bulk_action_id_column")
        (truthy_or valueColumn (first_column columns)));
     ("bulk_action_label",
      toStr (get_prop v "bulk_action_label") (VStr "Bulk Action"));
     ("show_split_buttons_in_slice_header",
      toBool (get_prop v "show_split_buttons_in_slice_header") (VBool false));
     ("split_actions", nullish_or (get_prop v "split_actions") (VArr []));
     ("non_split_actions",
      nullish_or (get_prop v "non_split_actions") (VArr []));
     ("enable_table_actions",
      toBool (get_prop v "enable_table_actions") (VBool false));
     ("table_actions_id_column",
      truthy_or (get_prop v "table_actions_id_column")
        (truthy_or valueColumn (first_column columns)));
     ("hide_table_actions_id_column",
      toBool (get_prop v "hide_table_actions_id_column") (VBool false));
     ("table_actions", nullish_or (get_prop v "table_actions") (VArr []));
     ("retain_selection_across_navigation",
      toBool (get_prop v "retain_selection_across_navigation") (VBool false))].

(** The updater of the effect that merges the legacy flags, on the
    properties of the previous settings. *)
Definition merge_legacy (prev : list (string * JsVal))
    (bulkEnabledLegacy selectionEnabledLegacy tableActionsEnabledLegacy
       : JsVal) : list (string * JsVal) :=
  spread_with prev
    [("enable_bulk_actions",
      nullish_or (lookup_prop "enable_bulk_actions" prev)
        (VBool (truthy bulkEnabledLegacy)));
     ("selection_enabled",
      nullish_or (lookup_prop "selection_enabled" prev)
        (VBool (truthy selectionEnabledLegacy)));
     ("enable_table_actions",
      nullish_or (lookup_prop "enable_table_actions" prev)
        (VBool (truthy tableActionsEnabledLegacy)))].

(** ** Time comparison menu ([TableChart.tsx], lines 349-354 and 836-859) *)


(** [comparisonColumns[0].key]. *)
Definition allKey : string := "all".

Definition handleOnClick (key : string)
    (selectedComparisonColumns : list string) : list string :=
  if String.eqb key allKey then [allKey]
  else if includes allKey selectedComparisonColumns then [key]
  else if includes key selectedComparisonColumns
       then List.filter (fun k => negb (String.eqb k key))
              selectedComparisonColumns
       else (selectedComparisonColumns ++ [key])%list.

Definition handleOnBlur (selectedComparisonColumns : list string)
  : list string :=
  if Nat.eqb (List.length selectedComparisonColumns) 3 then [allKey]
  else selectedComparisonColumns.

(** What the menu can do to the selection, and a run of it from the
    initial selection [[allKey]]. *)
Inductive MenuEvent : Type :=
| MenuClick (key : string)
| MenuBlur.

Definition menu_step (selected : list string) (event : MenuEvent)
  : list string :=
  match event with
  | MenuClick key => handleOnClick key selected
  | MenuBlur => handleOnBlur selected
  end.

Definition menu_run (events : list MenuEvent) : list string :=
  fold_left menu_step events [allKey].

(** The selection is [[allKey]], or a list of other keys without
    repetition. *)
Definition tidy_selection (selected : list string) : Prop :=
  List.NoDup selected /\ (In allKey selected -> selected = [allKey]).

(** ** Column order ([DataTable.tsx], lines 174-198 and 378-414)

    A column is an object of which the code reads [id] and [columnKey]. *)

Definition column_order_key (chartId : JsVal) : string :=
  "columnOrder_" ++ ToString chartId.

(** [l.findIndex(test)], with [-1] when no element passes. *)
Fixpoint findIndex {A : Type} (test : A -> bool) (l : list A) : Z :=
  match l with
  | [] => (-1)%Z
  | x :: rest =>
      if test x then 0%Z
      else
        let i := findIndex test rest in
        if (i <? 0)%Z then (-1)%Z else (i + 1)%Z
  end.

(** [col.id === el.dataset.columnName]; the attribute is a text or is
    absent. *)
Definition named (columnName : option string) (col : JsVal) : bool :=
  match columnName, get_prop col "id" with
  | Some name, VStr id => String.eqb id name
  | None, VUndefined => true
  | _, _ => false
  end.

(** [l.splice(start, 1)]: what is removed and what is left; and
    [l.splice(start, 0, x)] for a [start] that is not negative. *)
Definition splice_one {A : Type} (start : Z) (l : list A) : list A * list A :=
  let len := Z.of_nat (List.length l) in
  let actualStart :=
    Z.to_nat (if (start <? 0)%Z then Z.max (len + start) 0
              else Z.min start len) in
  (firstn 1 (skipn actualStart l),
   (firstn actualStart l ++ skipn (S actualStart) l)%list).

Definition splice_insert {A : Type} (start : nat) (x : A) (l : list A)
  : list A :=
  (firstn start l ++ x :: skipn start l)%list.

(** [texts.filter(Boolean)] on the answers of [Map.prototype.get]. *)
Definition present_texts (answers : list (option string)) : list string :=
  List.flat_map
    (fun answer =>
       match answer with
       | Some text => if String.eqb text EmptyString then [] else [text]
       | None => []
       end)
    answers.

(** The map [keyById] of [onDrop]. *)
Definition keyById (allColumns : list JsVal) : JsMap string :=
  fold_left
    (fun m c =>
       map_set (ToString (get_prop c "id"))
         (ToString (truthy_or (get_prop c "columnKey") (get_prop c "id"))) m)
    allColumns [].

(** [onDragStart]: the new value of [columnBeingDragged]. *)
Definition onDragStart (allColumns : list JsVal) (columnName : option string)
  : Z :=
  findIndex (named columnName) allColumns.

(** [onDrop]: the order given to [setColumnOrder], [None] when the call is
    not made, and [localStorage] afterwards.  [columnBeingDragged] is [-1]
    unless [onDragStart] has run in the same render. *)
Definition onDrop (chartId : JsVal) (allColumns : list JsVal)
    (columnBeingDragged : Z) (columnName : option string)
    (localStorage : gmap string string)
  : option (list JsVal) * gmap string string :=
  let newPosition := findIndex (named columnName) allColumns in
  if (newPosition =? -1)%Z then (None, localStorage)
  else
    let currentCols := List.map (fun c => get_prop c "id") allColumns in
    let '(colToBeMoved, others) := splice_one columnBeingDragged currentCols in
    let currentCols :=
      splice_insert (Z.to_nat newPosition) (List.nth 0 colToBeMoved VUndefined)
        others in
    let orderedKeys :=
      present_texts
        (List.map (fun id => map_get (ToString id) (keyById allColumns))
           currentCols) in
    (Some currentCols,
     if truthy chartId then
       match JSON_stringify (VArr (List.map VStr orderedKeys)) with
       | Text text => <[column_order_key chartId := text]> localStorage
       | Omitted | TypeError => localStorage
       end
     else localStorage).

(** The map [colIdByKey] built from the column definitions. *)
Definition colIdByKey (columns : list JsVal) : JsMap string :=
  fold_left
    (fun m col =>
       match col with
       | VObj _ | VArr _ | VDate _ _ | VSet _ =>
           let id := get_prop col "id" in
           let key := get_prop col "columnKey" in
           if negb (is_nullish id) && negb (is_nullish key)
           then map_set (ToString key) (ToString id) m
           else m
       | _ => m
       end)
    columns [].

(** [columns.map(c => String(c.id))]; reading [id] of [null] or [undefined]
    throws. *)
Fixpoint column_ids (columns : list JsVal) : option (list string) :=
  match columns with
  | [] => Some []
  | c :: rest =>
      if is_nullish c then None
      else
        match column_ids rest with
        | Some ids => Some (ToString (get_prop c "id") :: ids)
        | None => None
        end
  end.

(** [initialColumnOrder], with [None] for [undefined]; an exception inside
    the [try] block leaves it [undefined]. *)
Definition initialColumnOrder (chartId : JsVal) (columns : list JsVal)
    (localStorage : gmap string string) : option (list string) :=
  let persisted :=
    if truthy chartId then localStorage !! column_order_key chartId
    else None in
  match persisted with
  | Some text =>
      if String.eqb text EmptyString then None
      else
        match JSON_parse text with
        | Some (VArr savedKeys) =>
            let idsFromSaved :=
              present_texts
                (List.map
                   (fun k => map_get (ToString k) (colIdByKey columns))
                   savedKeys) in
            match column_ids columns with
            | Some ids =>
                let remainingIds :=
                  List.filter (fun id => negb (includes id idsFromSaved)) ids in
                Some (idsFromSaved ++ remainingIds)%list
            | None => None
            end
        | Some _ => None
        | None => None
        end
  | None => None
  end.

(** Columns that all carry an id and a column key, both texts that are not
    empty, with no id and no column key used twice. *)
Definition id_text (c : JsVal) : string := ToString (get_prop c "id").

Definition key_text (c : JsVal) : string := ToString (get_prop c "columnKey").

Definition keyed_column (c : JsVal) : Prop :=
  (exists props, c = VObj props)
  /\ (exists id, get_prop c "id" = VStr id /\ id <> EmptyString)
  /\ (exists key, get_prop c "columnKey" = VStr key /\ key <> EmptyString).

Definition keyed_columns (columns : list JsVal) : Prop :=
  Forall keyed_column columns
  /\ List.NoDup (List.map id_text columns)
  /\ List.NoDup (List.map key_text columns).

(** The column that a saved key finds: the last column that is an object
    with an id and a column key, neither of them [null] or [undefined],
    and whose column key prints as the saved key. *)
Definition has_key (key : string) (c : JsVal) : bool :=
  match c with
  | VObj _ =>
      negb (is_nullish (get_prop c "id"))
      && negb (is_nullish (get_prop c "columnKey"))
      && String.eqb (key_text c) key
  | _ => false
  end.

Definition column_of_key (columns : list JsVal) (key : string)
  : option JsVal :=
  List.find (has_key key) (List.rev columns).

(** The ids of the columns that the saved keys find, in the order of the
    saved keys, without the empty ones. *)
Definition ids_found (columns savedKeys : list JsVal) : list string :=
  List.flat_map
    (fun k =>
       match column_of_key columns (ToString k) with
       | Some d =>
           if String.eqb (id_text d) EmptyString then [] else [id_text d]
       | None => []
       end)
    savedKeys.

(** ** Progress indicator of the filter bar ([FilterBar/Horizontal.tsx],
    lines 81-107, and [FilterBar/ActionButtons/index.tsx], lines 128-154,
    the same effect)

    The state of the component that the effect touches: the state variable
    [progressVisible], the cell [visibleSinceRef], and the timer held in
    [hideRef], represented by the time at which it is due while it is
    pending. *)
Record Progress : Type := {
  progressVisible : bool;
  visibleSinceRef : option Z;
  hideRef : option Z
}.

Definition MIN_VISIBLE_MS : Z := 400%Z.

(** One run of the effect, at time [now]; the pending timer is cleared
    first, by the cleanup of the previous run or by the first line of this
    one. *)
Definition progress_effect (showProgressRaw : bool) (now : Z) (s : Progress)
  : Progress :=
  if showProgressRaw then
    if negb (progressVisible s) then
      {| progressVisible := true;
         visibleSinceRef := Some now;
         hideRef := None |}
    else
      {| progressVisible := progressVisible s;
         visibleSinceRef := visibleSinceRef s;
         hideRef := None |}
  else if progressVisible s then
    let since :=
      match visibleSinceRef s with Some t => t | None => now end in
    let elapsed := (now - since)%Z in
    let delay := Z.max 0 (MIN_VISIBLE_MS - elapsed) in
    {| progressVisible := progressVisible s;
       visibleSinceRef := visibleSinceRef s;
       hideRef := Some (now + delay)%Z |}
  else
    {| progressVisible := progressVisible s;
       visibleSinceRef := visibleSinceRef s;
       hideRef := None |}.

(** The callback of the timer. *)
Definition progress_hide (s : Progress) : Progress :=
  {| progressVisible := false; visibleSinceRef := None; hideRef := None |}.

(** What happens to the component: the effect runs, or the pending timer
    fires, which it does no earlier than it is due. *)
Inductive ProgressEvent : Type :=
| EffectRuns (showProgressRaw : bool) (now : Z)
| TimerFires (now : Z).

Definition progress_step (s : Progress) (event : ProgressEvent) : Progress :=
  match event with
  | EffectRuns showProgressRaw now => progress_effect showProgressRaw now s
  | TimerFires now =>
      match hideRef s with
      | Some due => if (due <=? now)%Z then progress_hide s else s
      | None => s
      end
  end.

Definition progress_start : Progress :=
  {| progressVisible := false; visibleSinceRef := None; hideRef := None |}.

Definition progress_run (events : list ProgressEvent) : Progress :=
  fold_left progress_step events progress_start.

(** While the indicator is visible the time it was shown at is recorded,
    and a pending timer is due no earlier than [MIN_VISIBLE_MS] after it. *)
Definition progress_sound (s : Progress) : Prop :=
  (progressVisible s = true -> exists since, visibleSinceRef s = Some since)
  /\ (forall due, hideRef s = Some due ->
        progressVisible s = true
        /\ exists since,
             visibleSinceRef s = Some since
             /\ (since + MIN_VISIBLE_MS <= due)%Z).

Local Close Scope string_scope.

(** * Properties *)

Local Open Scope list_scope.

(** ** Texts *)

Lemma append_cons (x : ascii) (a b : string) :
  (String x a ++ b)%string = String x (a ++ b)%string.
Proof. reflexivity. Qed.

Lemma append_nil_l (b : string) : (EmptyString ++ b)%string = b.
Proof. reflexivity. Qed.

Ltac norm_append := rewrite ?append_cons, ?append_nil_l.

Lemma append_assoc (a b c : string) :
  ((a ++ b) ++ c)%string = (a ++ (b ++ c))%string.
Proof.
  induction a as [|x a IH]; norm_append; [reflexivity | now rewrite IH].
Qed.

Lemma length_append (a b : string) :
  String.length (a ++ b)%string = (String.length a + String.length b)%nat.
Proof.
  induction a as [|x a IH]; norm_append; simpl; [reflexivity | now rewrite IH].
Qed.

Lemma append_nil_r (a : string) : (a ++ EmptyString)%string = a.
Proof. induction a as [|x a IH]; norm_append; [reflexivity | now rewrite IH]. Qed.

(** ** The value model at work *)

Example ToString_array :
  ToString (VArr [VNum 1; VNull; VArr [VStr "a"; VNum (-2)]]) = "1,,a,-2".
Proof. reflexivity. Qed.

Example stringify_ex :
  JSON_stringify
    (VObj [("a", VNum 1); ("u", VUndefined);
           ("l", VArr [VUndefined; VStr (dq "x'y")])])
  = Text (dq "{'a':1,'l':[null,'x\'y']}").
Proof. reflexivity. Qed.

Example parse_ex :
  JSON_parse (dq " { 'a' : [1, -20, true ,null], 'b':'xA\n', 'a': {} } ")
  = Some (VObj [("a", VObj []); ("b", VStr (String "x" (String "A" (String "010" EmptyString))))]).
Proof. vm_compute. reflexivity. Qed.

(** ** [Map] operations *)

Lemma map_get_set_eq {V : Type} (k : string) (v : V) (m : JsMap V) :
  map_get k (map_set k v m) = Some v.
Proof.
  unfold map_set.
  induction m as [|[k' v'] m IH]; simpl.
  - now rewrite String.eqb_refl.
  - destruct (String.eqb k' k) eqn:E; simpl; rewrite E; auto.
Qed.

Lemma map_get_set_ne {V : Type} (k k' : string) (v : V) (m : JsMap V) :
  k <> k' -> map_get k' (map_set k v m) = map_get k' m.
Proof.
  intros Hne. unfold map_set.
  induction m as [|[k0 v0] m IH]; simpl.
  - destruct (String.eqb_spec k k'); [contradiction | reflexivity].
  - destruct (String.eqb_spec k0 k) as [->|Hk]; simpl.
    + destruct (String.eqb_spec k k'); [contradiction | reflexivity].
    + destruct (String.eqb k0 k'); auto.
Qed.


Lemma map_get_delete_ne {V : Type} (k k' : string) (m : JsMap V) :
  k <> k' -> map_get k' (map_delete k m) = map_get k' m.
Proof.
  intros Hne. unfold map_delete.
  induction m as [|[k0 v0] m IH]; simpl; auto.
  destruct (String.eqb_spec k0 k) as [->|Hk]; simpl.
  - destruct (String.eqb_spec k k'); [contradiction | auto].
  - destruct (String.eqb k0 k'); auto.
Qed.

Lemma id_in_In (ids : list string) (id : string) :
  id_in ids id = true <-> In id ids.
Proof.
  unfold id_in. rewrite List.existsb_exists. split.
  - intros (x & Hx & E). apply String.eqb_eq in E. now subst.
  - intros H. exists id. split; [assumption | apply String.eqb_refl].
Qed.


Lemma id_in_cons (i : string) (ids : list string) (k : string) :
  id_in (i :: ids) k = String.eqb k i || id_in ids k.
Proof. reflexivity. Qed.

Lemma without_cons {V : Type} (i : string) (ids : list string) (m : JsMap V) :
  without (i :: ids) m = without ids (map_delete i m).
Proof.
  unfold without, map_delete.
  induction m as [|[k v] m IHm]; cbn [List.filter fst]; auto.
  rewrite id_in_cons.
  destruct (String.eqb k i); cbn [negb orb List.filter fst]; auto.
  destruct (id_in ids k); cbn [negb]; congruence.
Qed.

Lemma without_nil {V : Type} (m : JsMap V) : without [] m = m.
Proof.
  unfold without. induction m as [|kv m IHm]; [reflexivity |].
  cbn [List.filter]. change (id_in [] (fst kv)) with false.
  cbn [negb]. now f_equal.
Qed.

Lemma delete_all_without {V : Type} (ids : list string) (m : JsMap V) :
  fold_left (fun acc id => map_delete id acc) ids m = without ids m.
Proof.
  revert m. induction ids as [|i ids IH]; intros m; simpl.
  - now rewrite without_nil.
  - now rewrite IH, without_cons.
Qed.

Lemma map_get_without_in {V : Type} (ids : list string) (m : JsMap V) id :
  In id ids -> map_get id (without ids m) = None.
Proof.
  intros Hin. unfold without.
  induction m as [|[k v] m IH]; simpl; auto.
  destruct (id_in ids k) eqn:E; simpl; auto.
  destruct (String.eqb_spec k id) as [->|]; auto.
  apply id_in_In in Hin. congruence.
Qed.





(** ** Selecting rows *)


Lemma last_with_id_None idc id rows :
  last_with_id idc id rows = None <-> ~ In id (List.map (row_id idc) rows).
Proof.
  split.
  - induction rows as [|r rows IH]; simpl; [tauto |].
    destruct (last_with_id idc id rows) as [later|]; [discriminate |].
    destruct (String.eqb_spec (row_id idc r) id) as [E|E]; [discriminate |].
    intros _ [H|H]; [contradiction | now apply IH].
  - induction rows as [|r rows IH]; simpl; [reflexivity |].
    intros H. rewrite IH by tauto.
    destruct (String.eqb_spec (row_id idc r) id) as [E|E]; [| reflexivity].
    exfalso. apply H. now left.
Qed.


Lemma select_rows_get idc rows (selected : Selection) id :
  map_get id (select_rows idc rows selected) =
  match last_with_id idc id rows with
  | Some row => Some row
  | None => map_get id selected
  end.
Proof.
  unfold select_rows. revert selected.
  induction rows as [|r rows IH]; intros selected; simpl; [reflexivity |].
  rewrite IH. destruct (last_with_id idc id rows); [reflexivity |].
  destruct (String.eqb_spec (row_id idc r) id) as [<-|E].
  - apply map_get_set_eq.
  - now apply map_get_set_ne.
Qed.


Lemma map_has_get {V : Type} (k : string) (m : JsMap V) :
  map_has k m = false <-> map_get k m = None.
Proof. unfold map_has. destruct (map_get k m); split; congruence. Qed.

(** *** Toggle-all over the visible page *)


Lemma select_rows_has idc rows (selected : Selection) id :
  In id (List.map (row_id idc) rows) ->
  map_has id (select_rows idc rows selected) = true.
Proof.
  intros Hin. unfold map_has. rewrite select_rows_get.
  destruct (last_with_id idc id rows) eqn:E; [reflexivity |].
  apply last_with_id_None in E. contradiction.
Qed.

Lemma handleBulkSelect_not_all idc visibleData (prev : Selection) :
  List.forallb (fun id => map_has id prev) (List.map (row_id idc) visibleData)
  = false ->
  handleBulkSelect idc visibleData prev = select_rows idc visibleData prev.
Proof.
  intros H. unfold handleBulkSelect. rewrite H.
  now rewrite Bool.andb_false_r.
Qed.

Lemma handleBulkSelect_all idc visibleData (prev : Selection) :
  visibleData <> [] ->
  List.forallb (fun id => map_has id prev) (List.map (row_id idc) visibleData)
  = true ->
  handleBulkSelect idc visibleData prev
  = without (List.map (row_id idc) visibleData) prev.
Proof.
  intros Hne H. unfold handleBulkSelect. rewrite H.
  destruct visibleData; [contradiction |]. cbn [List.map List.length Nat.ltb Nat.leb andb].
  apply delete_all_without.
Qed.




Example handleBulkSelect_select_page :
  handleBulkSelect "id" [row_a; row_b] [("a", row_a); ("c", row_c)]
  = [("a", row_a); ("c", row_c); ("b", row_b)].
Proof. reflexivity. Qed.

Example handleBulkSelect_clear_page :
  handleBulkSelect "id" [row_a; row_b] [("a", row_a); ("c", row_c); ("b", row_b)]
  = [("c", row_c)].
Proof. reflexivity. Qed.



(** *** Row selection *)



Lemma indexOf_Some (x : string) (ids : list string) (i : nat) :
  indexOf x ids = Some i ->
  List.nth_error ids i = Some x /\ ~ In x (List.firstn i ids).
Proof.
  revert i. induction ids as [|y ids IH]; simpl; [discriminate |].
  intros i. destruct (String.eqb_spec y x) as [->|E].
  - intros [= <-]. simpl. tauto.
  - destruct (indexOf x ids) as [j|]; [| discriminate].
    intros [= <-]. destruct (IH j eq_refl) as [Hn Hf]. simpl. split; auto.
    intros [H|H]; [contradiction | auto].
Qed.







Example handleRowSelect_range_example :
  handleRowSelect "multiple" [row_c; row_a; row_b] "id" "b" true
    [("c", row_c)] (Some "c")
  = ([("c", row_c); ("a", row_a); ("b", row_b)], Some "c").
Proof. reflexivity. Qed.





(** ** Event de-duplication *)

Lemma last_sent_lookup (recent : gmap string Z) (key : string) :
  last_sent recent key = default 0%Z (recent !! key).
Proof.
  unfold last_sent. destruct (recent !! key) as [ts|]; simpl; auto.
  destruct (Z.eqb_spec ts 0); auto.
Qed.

(** With de-duplication off, or a window that is not positive, every
    message is sent and nothing is recorded. *)
Lemma shouldSendMessage_disabled (dedupeEnabled : bool) (ttl : Z)
    (recent : gmap string Z) (msg : JsVal) (clock now : Z) :
  dedupeEnabled = false \/ (ttl <= 0)%Z ->
  shouldSendMessage dedupeEnabled ttl recent msg clock now = (true, recent).
Proof.
  intros [-> | Httl]; unfold shouldSendMessage; [reflexivity |].
  destruct dedupeEnabled; [| reflexivity]. cbn [negb orb DEDUPE_TTL_MS].
  now rewrite (proj2 (Z.leb_le ttl 0) Httl).
Qed.

(** A fingerprint recorded less than the window ago is suppressed and the
    record is left as it was. *)
Lemma shouldSendMessage_suppressed (ttl : Z) (recent : gmap string Z)
    (msg : JsVal) (clock now ts : Z) :
  (0 < ttl)%Z ->
  recent !! makeEventKey msg clock = Some ts ->
  (now - ts < ttl)%Z ->
  shouldSendMessage true ttl recent msg clock now = (false, recent).
Proof.
  intros Httl Hts Hnear. unfold shouldSendMessage.
  cbn [negb orb DEDUPE_TTL_MS].
  rewrite (proj2 (Z.leb_gt ttl 0) Httl).
  rewrite last_sent_lookup, Hts. cbn [from_option id].
  now rewrite (proj2 (Z.ltb_lt (now - ts) ttl) Hnear).
Qed.

(** A fingerprint whose record (taken as [0] when there is none) is at least
    the window old is sent, and the current time is recorded for it. *)
Lemma shouldSendMessage_delivered (ttl : Z) (recent : gmap string Z)
    (msg : JsVal) (clock now : Z) :
  (0 < ttl)%Z ->
  (ttl <= now - default 0 (recent !! makeEventKey msg clock))%Z ->
  let '(answer, recent') := shouldSendMessage true ttl recent msg clock now in
  answer = true /\ recent' !! makeEventKey msg clock = Some now.
Proof.
  intros Httl Hfar. unfold shouldSendMessage.
  cbn [negb orb DEDUPE_TTL_MS].
  rewrite (proj2 (Z.leb_gt ttl 0) Httl).
  rewrite last_sent_lookup.
  rewrite (proj2 (Z.ltb_ge _ ttl) Hfar).
  destruct (Nat.ltb 200 _); (split; [reflexivity |]).
  - apply map_lookup_filter_Some. split; [apply lookup_insert_eq |].
    cbn [snd]. lia.
  - apply lookup_insert_eq.
Qed.

Example makeEventKey_approve :
  makeEventKey approve_message 0
  = dq "{'action':'bulk-action','chartId':1,'actionType':'approve','values':[{'id':1}]}".
Proof. reflexivity. Qed.

(** The scenario with a window of 1000 ms, on a clock that started long
    before: delivered, suppressed 500 ms later, delivered 1100 ms later. *)
Example shouldSendMessage_scenario :
  let t0 := 1762041600000%Z in
  let '(first, recent1) := shouldSendMessage true 1000 ∅ approve_message t0 t0 in
  let '(second, recent2) :=
    shouldSendMessage true 1000 recent1 approve_message t0 (t0 + 500) in
  let '(third, _) :=
    shouldSendMessage true 1000 recent2 approve_message t0 (t0 + 1100) in
  (first, second, third) = (true, false, true).
Proof. vm_compute. reflexivity. Qed.

(** C1 (failing input). De-duplication is enabled with the window set to the
    largest safe integer, nothing has been sent yet, and the clock reads a
    present-day time.  The message has no record, the missing record is read
    as time [0], and the message is suppressed. *)
Theorem shouldSendMessage_first_message_suppressed :
  shouldSendMessage true 9007199254740991 ∅ approve_message
    1762041600000 1762041600000
  = (false, ∅)
  /\ (∅ : gmap string Z) !! makeEventKey approve_message 1762041600000 = None.
Proof. split; reflexivity. Qed.

(** *** The fingerprint *)

(** C8 (as stated) fails: two messages whose [values] hold the same row with
    its two properties in a different order are structurally equal in all
    four fields, yet their fingerprints differ. *)
Lemma makeEventKey_property_order_counterexample :
  (let '(a1, c1, t1, v1) := stable_fields message_row_first in
   let '(a2, c2, t2, v2) := stable_fields message_row_second in
   unordered_equal a1 a2 && unordered_equal c1 c2
   && unordered_equal t1 t2 && unordered_equal v1 v2) = true
  /\ makeEventKey message_row_first 0 <> makeEventKey message_row_second 0.
Proof. split; [reflexivity | vm_compute; discriminate]. Qed.

Lemma keyPayload_stable_fields (m1 m2 : JsVal) :
  stable_fields m1 = stable_fields m2 -> keyPayload m1 = keyPayload m2.
Proof.
  unfold stable_fields, keyPayload. intros [= -> -> -> ->]. reflexivity.
Qed.

Lemma lookup_prop_In (key : string) (props : list (string * JsVal)) (v : JsVal) :
  List.NoDup (List.map fst props) -> In (key, v) props ->
  lookup_prop key props = v.
Proof.
  induction props as [|[k x] props IH]; simpl; [tauto |].
  intros Hnd Hin. inversion Hnd as [|? ? Hnotin Hnd']; subst.
  destruct Hin as [[= -> ->]|Hin].
  - now rewrite String.eqb_refl.
  - destruct (String.eqb_spec k key) as [->|]; [| now apply IH].
    exfalso. apply Hnotin. apply (List.in_map fst) in Hin. exact Hin.
Qed.

Lemma lookup_prop_absent (key : string) (props : list (string * JsVal)) :
  ~ In key (List.map fst props) -> lookup_prop key props = VUndefined.
Proof.
  induction props as [|[k x] props IH]; simpl; [reflexivity |].
  intros H. destruct (String.eqb_spec k key) as [->|]; [tauto |].
  apply IH. tauto.
Qed.

(** Reading a property does not depend on where the property sits. *)
Lemma lookup_prop_Permutation (key : string)
    (props props' : list (string * JsVal)) :
  List.NoDup (List.map fst props) -> Permutation props props' ->
  lookup_prop key props = lookup_prop key props'.
Proof.
  intros Hnd Hperm.
  assert (Hnd' : List.NoDup (List.map fst props')).
  { eapply Permutation_NoDup; [| exact Hnd]. now apply Permutation_map. }
  destruct (in_dec String.string_dec key (List.map fst props)) as [Hin|Hout].
  - apply List.in_map_iff in Hin. destruct Hin as ([k v] & E & Hin).
    simpl in E. subst k.
    rewrite (lookup_prop_In key props v Hnd Hin).
    symmetry. apply lookup_prop_In; [assumption |].
    eapply Permutation_in; eassumption.
  - rewrite (lookup_prop_absent key props Hout).
    symmetry. apply lookup_prop_absent. intros Hin. apply Hout.
    eapply Permutation_in; [| exact Hin].
    apply Permutation_map. now apply Permutation_sym.
Qed.

(** C8 (as amended). The fingerprint is a function of the four fields
    action, chartId, actionType and values: messages that agree on them
    (with the properties of nested objects in the same order) get the same
    fingerprint whatever else they carry, the order of the properties of the
    message itself is irrelevant, and when the four fields can be serialised
    the fingerprint does not depend on the clock. *)
Theorem makeEventKey_stable_fields :
  (forall (m1 m2 : JsVal) (clock : Z),
      stable_fields m1 = stable_fields m2 ->
      makeEventKey m1 clock = makeEventKey m2 clock)
  /\ (forall (props props' : list (string * JsVal)) (clock : Z),
         List.NoDup (List.map fst props) -> Permutation props props' ->
         makeEventKey (VObj props) clock = makeEventKey (VObj props') clock)
  /\ (forall (m : JsVal) (clock clock' : Z),
         JSON_stringify (keyPayload m) <> TypeError ->
         makeEventKey m clock = makeEventKey m clock').
Proof.
  repeat split.
  - intros m1 m2 clock H. unfold makeEventKey.
    now rewrite (keyPayload_stable_fields m1 m2 H).
  - intros props props' clock Hnd Hperm. unfold makeEventKey, keyPayload.
    cbn [truthy get_prop].
    now rewrite !(lookup_prop_Permutation _ props props' Hnd Hperm).
  - intros m clock clock' Hok. unfold makeEventKey.
    destruct (JSON_stringify (keyPayload m)); congruence.
Qed.

(** The same four fields in another order, with another origin. *)
Lemma makeEventKey_stable_fields_witness :
  stable_fields approve_message
  = stable_fields (VObj [("values", VArr [VObj [("id", VNum 1)]]);
                         ("actionType", VStr "approve");
                         ("origin", VStr "header");
                         ("chartId", VNum 1);
                         ("action", VStr "bulk-action")])
  /\ makeEventKey approve_message 5
     = makeEventKey (VObj [("values", VArr [VObj [("id", VNum 1)]]);
                           ("actionType", VStr "approve");
                           ("origin", VStr "header");
                           ("chartId", VNum 1);
                           ("action", VStr "bulk-action")]) 5.
Proof.
  split; [reflexivity |].
  apply (proj1 makeEventKey_stable_fields). reflexivity.
Defined.

(** ** Pagination read-out *)

Local Open Scope Z_scope.

(** [ceil_div] is the ceiling of the quotient. *)
Lemma ceil_div_bounds (a b : Z) :
  0 < b -> (ceil_div a b - 1) * b < a <= ceil_div a b * b.
Proof.
  intros Hb. unfold ceil_div.
  pose proof (Z.div_mod (- a) b ltac:(lia)) as Hdm.
  pose proof (Z.mod_pos_bound (- a) b Hb) as Hmod.
  nia.
Qed.

Lemma ceil_div_unique (a b c : Z) :
  0 < b -> (c - 1) * b < a <= c * b -> ceil_div a b = c.
Proof.
  intros Hb Hc. pose proof (ceil_div_bounds a b Hb). nia.
Qed.

Lemma page_below_count (rowCount size page : Z) :
  0 < size ->
  (page < finite_page_count rowCount size <-> page * size < rowCount).
Proof.
  intros Hs. unfold finite_page_count.
  destruct (Z.eqb_spec size 0); [lia |].
  pose proof (ceil_div_bounds rowCount size Hs). nia.
Qed.

(** C2 (as stated) fails: 25 rows in pages of 10 while the page index held
    in [serverPaginationData] is still 5.  The pagination bar is rendered
    with 3 pages and current page 5. *)
Lemma render_pagination_stale_page_counterexample :
  let view := render_pagination stale_page_props in
  0 < rowCount stale_page_props
  /\ paginationRendered view = true
  /\ resultPageCount view = 3
  /\ resultCurrentPage view = 5
  /\ ~ (resultCurrentPage view < resultPageCount view)
  /\ ~ (resultCurrentPage view * 10 < rowCount stale_page_props).
Proof. cbv. repeat split; congruence. Qed.

(** C2 (as amended). In server-pagination mode the page count handed to the
    pagination bar is the ceiling of row count over page size, and zero when
    the page size is zero; the current page handed to it is the page index
    of [serverPaginationData] as it is (zero when absent).  For a positive
    page size that index is below the page count exactly when
    [currentPage * pageSize < rowCount]. *)
Theorem render_pagination_server (p : PaginationProps) :
  serverPagination p = true ->
  let size :=
    optional_field (serverPaginationData p) sp_pageSize (initialPageSize p) in
  let page := optional_field (serverPaginationData p) sp_currentPage 0 in
  let view := render_pagination p in
  resultPageCount view = (if size =? 0 then 0 else ceil_div (rowCount p) size)
  /\ (0 < size ->
      (resultPageCount view - 1) * size < rowCount p
                                          <= resultPageCount view * size)
  /\ resultCurrentPage view = page
  /\ (0 < size ->
      (resultCurrentPage view < resultPageCount view
       <-> page * size < rowCount p)).
Proof.
  intros Hserver size page view. subst view. unfold render_pagination.
  rewrite Hserver. cbn [resultPageCount resultCurrentPage].
  fold size page. split; [reflexivity | split; [| split; [reflexivity |]]].
  - intros Hs. unfold finite_page_count.
    destruct (Z.eqb_spec size 0); [lia |].
    apply (ceil_div_bounds (rowCount p) size Hs).
  - intros Hs. now apply page_below_count.
Qed.

(** The read-out for the stale page index. *)
Lemma render_pagination_server_witness :
  serverPagination stale_page_props = true
  /\ resultPageCount (render_pagination stale_page_props) = 3
  /\ resultCurrentPage (render_pagination stale_page_props) = 5.
Proof.
  split; [reflexivity |].
  pose proof (render_pagination_server stale_page_props eq_refl) as H.
  cbv zeta in H. destruct H as (Hcount & _ & Hpage & _).
  split; [exact Hcount | exact Hpage].
Defined.

Local Close Scope Z_scope.

(** ** Action visibility *)

Lemma includes_condition_list (x : string) (condValue : JsVal) :
  includes x (condition_list condValue) = true <->
  exists piece, In piece (split "," (ToString condValue)) /\ trim piece = x.
Proof.
  unfold includes, condition_list. rewrite List.existsb_exists. split.
  - intros (y & Hin & E). apply String.eqb_eq in E. subst y.
    apply List.in_map_iff in Hin. destruct Hin as (piece & E & Hin).
    now exists piece.
  - intros (piece & Hin & E). exists x. split; [| apply String.eqb_refl].
    apply List.in_map_iff. now exists piece.
Qed.

(** *** Reading through the prototype *)

Lemma named_value_own (name : string) (props : list (string * JsVal)) :
  named_value name props
  = if has_prop name props then Some (lookup_prop name props) else None.
Proof.
  unfold named_value, has_prop.
  induction props as [| [k v] rest IH]; [reflexivity |].
  cbn [List.find List.existsb lookup_prop fst].
  destruct (String.eqb k name); [reflexivity | exact IH].
Qed.

Lemma lookup_prop_named (name : string) (props : list (string * JsVal)) :
  lookup_prop name props
  = match named_value name props with
    | Some value => value
    | None => VUndefined
    end.
Proof.
  rewrite named_value_own. unfold has_prop.
  induction props as [| [k v] rest IH]; [reflexivity |].
  cbn [List.existsb lookup_prop fst].
  destruct (String.eqb k name); [reflexivity | exact IH].
Qed.

Lemma read_prop_named (name : string) (props : list (string * JsVal)) :
  read_prop name props = inherited_value name props.
Proof.
  unfold read_prop, inherited_value. rewrite (named_value_own name props).
  destruct (has_prop name props); [reflexivity |].
  apply lookup_prop_named.
Qed.

(** *** Pieces between commas *)

Lemma split_not_nil (sep : ascii) (s : string) : split sep s <> [].
Proof.
  destruct s as [| c r]; cbn [split]; [discriminate |].
  destruct (Ascii.eqb c sep); [discriminate |].
  destruct (split sep r); discriminate.
Qed.

Lemma concat_cons (sep x : string) (xs : list string) :
  xs <> [] ->
  String.concat sep (x :: xs) = (x ++ sep ++ String.concat sep xs)%string.
Proof. destruct xs; [contradiction | reflexivity]. Qed.

Lemma concat_split (s : string) : String.concat "," (split "," s) = s.
Proof.
  induction s as [| c r IH]; [reflexivity |]. cbn [split].
  destruct (Ascii.eqb_spec c ",") as [-> | Hne].
  - rewrite concat_cons by apply split_not_nil. now rewrite IH.
  - pose proof (split_not_nil "," r) as Hsome.
    destruct (split "," r) as [| piece pieces]; [contradiction |].
    destruct pieces as [| next more].
    + cbn [String.concat] in *. now rewrite IH.
    + change (String.concat "," (String c piece :: next :: more))
        with (String c (String.concat "," (piece :: next :: more))).
      now rewrite IH.
Qed.

Lemma split_no_comma (s : string) :
  Forall (fun piece => ~ In ","%char (list_ascii_of_string piece))
    (split "," s).
Proof.
  induction s as [| c r IH]; cbn [split].
  - constructor; [| constructor]. intros [].
  - destruct (Ascii.eqb_spec c ",") as [-> | Hne].
    + constructor; [intros [] | exact IH].
    + destruct (split "," r) as [| piece pieces].
      * constructor; [| constructor]. intros [Heq | []]. now apply Hne.
      * inversion IH as [| ? ? Hpiece Hpieces]; subst.
        constructor; [| exact Hpieces].
        intros [Heq | Hin]; [now apply Hne | now apply Hpiece].
Qed.

Lemma comma_pieces_split (text : string) :
  comma_pieces text (split "," text).
Proof.
  split; [apply split_not_nil |].
  split; [apply concat_split | apply split_no_comma].
Qed.

(** *** Trimming *)

Lemma is_space_white (c : ascii) : is_space c = true <-> white_space c.
Proof.
  unfold white_space.
  destruct c as [[] [] [] [] [] [] [] []]; vm_compute;
    (split; [intros H; try discriminate H; tauto
            | intros H; try reflexivity;
              repeat (destruct H as [H | H]; [discriminate H |]);
              contradiction]).
Qed.

Lemma is_space_not_white (c : ascii) : is_space c = false <-> ~ white_space c.
Proof.
  rewrite <- is_space_white. destruct (is_space c); split.
  - discriminate.
  - intros H. now exfalso; apply H.
  - intros _. discriminate.
  - reflexivity.
Qed.

Lemma all_white_nil : all_white EmptyString.
Proof. intros c []. Qed.

Lemma all_white_cons (c : ascii) (s : string) :
  all_white (String c s) <-> white_space c /\ all_white s.
Proof.
  unfold all_white. cbn [list_ascii_of_string In]. split.
  - intros H. split; [apply H; now left |]. intros d Hd. apply H. now right.
  - intros [Hc Hs] d [<- | Hd]; [exact Hc | now apply Hs].
Qed.

(** [trim_start] takes a run of white space off the front. *)
Lemma trim_start_spec (s : string) :
  exists before,
    s = (before ++ trim_start s)%string
    /\ all_white before
    /\ forall c r, trim_start s = String c r -> ~ white_space c.
Proof.
  induction s as [| c s IH].
  - exists EmptyString. split; [reflexivity |].
    split; [apply all_white_nil | discriminate].
  - cbn [trim_start]. destruct (is_space c) eqn:Hc.
    + destruct IH as [before [Heq [Hwhite Hfirst]]].
      exists (String c before). split; [norm_append; now rewrite <- Heq |].
      split; [| exact Hfirst].
      apply all_white_cons. split; [now apply is_space_white | exact Hwhite].
    + exists EmptyString. split; [reflexivity |].
      split; [apply all_white_nil |].
      intros d r [= <- <-]. now apply is_space_not_white.
Qed.

Lemma trim_end_nil (s : string) :
  trim_end s = EmptyString <-> all_white s.
Proof.
  induction s as [| c s IH].
  - split; [intros _; apply all_white_nil | reflexivity].
  - cbn [trim_end]. rewrite all_white_cons, <- IH, <- is_space_white.
    destruct (trim_end s).
    + destruct (is_space c); split; try tauto; try discriminate.
      intros [H _]. discriminate.
    + split; [discriminate | intros [_ H]; discriminate].
Qed.

Lemma last_char_cases (t r : string) (c d : ascii) :
  String d t = (r ++ String c EmptyString)%string ->
  (t = EmptyString /\ r = EmptyString /\ d = c)
  \/ exists r', r = String d r' /\ t = (r' ++ String c EmptyString)%string.
Proof.
  destruct r as [| e r']; norm_append.
  - intros [= -> ->]. now left.
  - intros [= -> ->]. right. now exists r'.
Qed.

(** [trim_end] takes a run of white space off the back. *)
Lemma trim_end_spec (s : string) :
  exists after,
    s = (trim_end s ++ after)%string
    /\ all_white after
    /\ forall r c,
         trim_end s = (r ++ String c EmptyString)%string -> ~ white_space c.
Proof.
  induction s as [| c s IH].
  - exists EmptyString. split; [reflexivity |].
    split; [apply all_white_nil |].
    intros [| e r] d; discriminate.
  - destruct IH as [after [Heq [Hwhite Hlast]]]. cbn [trim_end].
    destruct (trim_end s) as [| e body] eqn:Hend.
    + rewrite append_nil_l in Heq. subst after.
      destruct (is_space c) eqn:Hc.
      * exists (String c s). split; [reflexivity |].
        split; [| intros [| e r] d; discriminate].
        apply all_white_cons. split; [now apply is_space_white | exact Hwhite].
      * exists s. split; [reflexivity |]. split; [exact Hwhite |].
        intros r d Hr. apply last_char_cases in Hr
          as [[_ [_ ->]] | [r' [_ Habs]]].
        -- now apply is_space_not_white.
        -- destruct r'; discriminate.
    + exists after. split; [now rewrite append_cons, <- Heq |].
      split; [exact Hwhite |].
      intros r d Hr. apply last_char_cases in Hr
        as [[Habs _] | [r' [_ Hbody]]]; [discriminate |].
      now apply (Hlast r' d).
Qed.

Lemma trim_end_first (s : string) (c : ascii) (r : string) :
  trim_end s = String c r -> exists r', s = String c r'.
Proof.
  destruct s as [| d s]; [discriminate |]. cbn [trim_end].
  destruct (trim_end s).
  - destruct (is_space d); [discriminate |]. intros [= -> _]. now eexists.
  - intros [= -> _]. now eexists.
Qed.

Lemma trimmed_trim (s : string) : trimmed s (trim s).
Proof.
  unfold trim.
  destruct (trim_start_spec s) as [before [Hs [Hbefore Hfirst]]].
  destruct (trim_end_spec (trim_start s)) as [after [Ht [Hafter Hlast]]].
  exists before, after. split; [now rewrite <- Ht |].
  split; [exact Hbefore |]. split; [exact Hafter |].
  split; [| exact Hlast].
  intros c r Hc. apply trim_end_first in Hc as [r' Hr'].
  exact (Hfirst c r' Hr').
Qed.

Lemma trim_start_white (before rest : string) :
  all_white before ->
  trim_start (before ++ rest) = trim_start rest.
Proof.
  induction before as [| c before IH]; intros Hwhite; [reflexivity |].
  apply all_white_cons in Hwhite as [Hc Hwhite].
  norm_append. cbn [trim_start]. apply is_space_white in Hc. rewrite Hc.
  now apply IH.
Qed.

Lemma trim_end_white (t after : string) :
  all_white after ->
  (forall r c, t = (r ++ String c EmptyString)%string -> ~ white_space c) ->
  trim_end (t ++ after) = t.
Proof.
  intros Hafter. induction t as [| d t IH]; intros Hlast.
  - norm_append. now apply trim_end_nil.
  - norm_append. cbn [trim_end]. destruct t as [| e t'].
    + norm_append. apply trim_end_nil in Hafter. rewrite Hafter.
      assert (Hd : is_space d = false).
      { apply is_space_not_white. now apply (Hlast EmptyString d). }
      now rewrite Hd.
    + rewrite IH; [reflexivity |].
      intros r c Hr. apply (Hlast (String d r) c). norm_append.
      now rewrite Hr.
Qed.

(** The text without white space at its ends is the one [trim] gives. *)
Lemma trimmed_unique (s t : string) : trimmed s t -> trim s = t.
Proof.
  intros [before [after [-> [Hbefore [Hafter [Hfirst Hlast]]]]]].
  unfold trim. rewrite trim_start_white by exact Hbefore.
  destruct t as [| c r].
  - norm_append. replace (trim_start after) with EmptyString;
      [reflexivity |].
    clear -Hafter. induction after as [| c after IH]; [reflexivity |].
    apply all_white_cons in Hafter as [Hc Hafter]. cbn [trim_start].
    apply is_space_white in Hc. rewrite Hc. now apply IH.
  - norm_append. cbn [trim_start].
    assert (Hc : is_space c = false).
    { apply is_space_not_white. now apply (Hfirst c r). }
    rewrite Hc. now apply (trim_end_white (String c r)).
Qed.

Lemma includes_listed (x : string) (condValue : JsVal) :
  includes x (condition_list condValue) = true <->
  exists piece,
    In piece (split "," (ToString condValue)) /\ trimmed piece x.
Proof.
  rewrite includes_condition_list. split; intros [piece [Hin Hx]];
    exists piece; (split; [exact Hin |]).
  - subst x. apply trimmed_trim.
  - now apply trimmed_unique.
Qed.

Section VisibilityProofs.
Variable IsLooselyEqual : JsVal -> JsVal -> bool.
Variable IsLessThan : JsVal -> JsVal -> option bool.

Abbreviation evaluate :=
  (evaluateVisibilityCondition IsLooselyEqual IsLessThan).

Lemma evaluate_fail_open_missing (condition : JsVal) (row : Row) :
  truthy condition = false
  \/ truthy (get_prop condition "column") = false
  \/ truthy (get_prop condition "operator") = false ->
  evaluate condition row = true.
Proof.
  intros H. unfold evaluateVisibilityCondition.
  destruct H as [-> | [-> | ->]]; cbn [negb orb];
    rewrite ?Bool.orb_true_r; reflexivity.
Qed.

Lemma evaluate_operator (condition : JsVal) (row : Row) (operator : string) :
  truthy condition = true ->
  truthy (get_prop condition "column") = true ->
  get_prop condition "operator" = VStr operator ->
  operator <> EmptyString ->
  let rowValue := condition_row_value condition row in
  let condValue := get_prop condition "value" in
  evaluate condition row =
  if String.eqb operator "==" then js_eq IsLooselyEqual rowValue condValue
  else if String.eqb operator "!=" then js_ne IsLooselyEqual rowValue condValue
  else if String.eqb operator ">" then js_gt IsLessThan rowValue condValue
  else if String.eqb operator "<" then js_lt IsLessThan rowValue condValue
  else if String.eqb operator ">=" then js_ge IsLessThan rowValue condValue
  else if String.eqb operator "<=" then js_le IsLessThan rowValue condValue
  else if String.eqb operator "IS NULL" then is_nullish rowValue
  else if String.eqb operator "IS NOT NULL" then negb (is_nullish rowValue)
  else if String.eqb operator "IN" then
    includes (ToString rowValue) (condition_list condValue)
  else if String.eqb operator "NOT IN" then
    negb (includes (ToString rowValue) (condition_list condValue))
  else true.
Proof.
  intros Hc Hcol Hop Hne rowValue condValue.
  unfold evaluateVisibilityCondition. rewrite Hc, Hcol, Hop.
  cbn [truthy]. apply String.eqb_neq in Hne. rewrite Hne.
  cbn [negb orb]. rewrite read_prop_named.
  change (inherited_value _ row) with (condition_row_value condition row).
  fold rowValue condValue.
  repeat (destruct (String.eqb operator _); [reflexivity |]).
  destruct (String.eqb operator "IS NULL");
    [now destruct rowValue |].
  destruct (String.eqb operator "IS NOT NULL");
    [now destruct rowValue |].
  reflexivity.
Qed.

Lemma is_nullish_true (v : JsVal) :
  is_nullish v = true <-> v = VNull \/ v = VUndefined.
Proof.
  destruct v; cbn; split; intros H; try discriminate; try tauto;
    destruct H as [H | H]; discriminate.
Qed.

(** C7. What [evaluateVisibilityCondition] returns, in terms of the
    comparison primitives of the language: [true] when the condition, its
    column or its operator is missing; for a condition with a column and
    the operator [op], on the value [rowValue] that the row has (or
    inherits) under the column and the value [condValue] of the condition:
    for [==] whether the two are loosely equal, for [!=] whether they are
    not; for [>] whether [condValue] is less than [rowValue], for [<]
    whether [rowValue] is less than [condValue], for [>=] whether
    [rowValue] is comparable with and not less than [condValue], for [<=]
    whether [condValue] is comparable with and not less than [rowValue];
    for [IS NULL] whether [rowValue] is [null] or [undefined], and for
    [IS NOT NULL] whether it is neither; for [IN] whether the text of
    [rowValue] is one of the pieces between the commas of the text of
    [condValue], white space at the ends of a piece apart, and for
    [NOT IN] whether it is none of them; and [true] for every other
    operator. *)
Theorem evaluateVisibilityCondition_spec (condition : JsVal) (row : Row) :
  let rowValue := condition_row_value condition row in
  let condValue := get_prop condition "value" in
  let result := evaluate condition row in
  (truthy condition = false
   \/ truthy (get_prop condition "column") = false
   \/ truthy (get_prop condition "operator") = false -> result = true)
  /\ (truthy condition = true ->
      truthy (get_prop condition "column") = true ->
      truthy (get_prop condition "operator") = true ->
      (forall op, get_prop condition "operator" = VStr op ->
         (op = "==" -> result = IsLooselyEqual rowValue condValue)
         /\ (op = "!=" -> result = negb (IsLooselyEqual rowValue condValue))
         /\ (op = ">" ->
             (result = true <-> IsLessThan condValue rowValue = Some true))
         /\ (op = "<" ->
             (result = true <-> IsLessThan rowValue condValue = Some true))
         /\ (op = ">=" ->
             (result = true <-> IsLessThan rowValue condValue = Some false))
         /\ (op = "<=" ->
             (result = true <-> IsLessThan condValue rowValue = Some false))
         /\ (op = "IS NULL" ->
             (result = true <-> rowValue = VNull \/ rowValue = VUndefined))
         /\ (op = "IS NOT NULL" ->
             (result = false <-> rowValue = VNull \/ rowValue = VUndefined))
         /\ (op = "IN" ->
             exists pieces,
               comma_pieces (ToString condValue) pieces
               /\ (result = true <->
                   exists piece,
                     In piece pieces /\ trimmed piece (ToString rowValue)))
         /\ (op = "NOT IN" ->
             exists pieces,
               comma_pieces (ToString condValue) pieces
               /\ (result = false <->
                   exists piece,
                     In piece pieces /\ trimmed piece (ToString rowValue)))
         /\ (~ In op known_operators -> result = true))
      /\ ((forall op, get_prop condition "operator" <> VStr op) ->
          result = true)).
Proof.
  intros rowValue condValue result. split.
  - apply evaluate_fail_open_missing.
  - intros Hc Hcol Hoper. split.
    + intros op Hop.
      assert (Hne : op <> EmptyString).
      { intros ->. rewrite Hop in Hoper. discriminate. }
      pose proof (evaluate_operator condition row op Hc Hcol Hop Hne) as E.
      cbv zeta in E. fold rowValue condValue result in E.
      repeat match goal with |- _ /\ _ => split end.
      * intros ->. exact E.
      * intros ->. exact E.
      * intros ->. cbn in E. rewrite E. unfold js_gt.
        destruct (IsLessThan condValue rowValue) as [[|] |];
          split; congruence.
      * intros ->. cbn in E. rewrite E. unfold js_lt.
        destruct (IsLessThan rowValue condValue) as [[|] |];
          split; congruence.
      * intros ->. cbn in E. rewrite E. unfold js_ge.
        destruct (IsLessThan rowValue condValue) as [[|] |];
          cbn [negb]; split; congruence.
      * intros ->. cbn in E. rewrite E. unfold js_le.
        destruct (IsLessThan condValue rowValue) as [[|] |];
          cbn [negb]; split; congruence.
      * intros ->. cbn in E. rewrite E. apply is_nullish_true.
      * intros ->. cbn in E. rewrite E, Bool.negb_false_iff.
        apply is_nullish_true.
      * intros ->. cbn in E. rewrite E.
        exists (split "," (ToString condValue)).
        split; [apply comma_pieces_split | apply includes_listed].
      * intros ->. cbn in E. rewrite E.
        exists (split "," (ToString condValue)).
        split; [apply comma_pieces_split |].
        rewrite Bool.negb_false_iff. apply includes_listed.
      * intros Hunknown. rewrite E.
        assert (Hk : forall k, In k known_operators -> String.eqb op k = false).
        { intros k Hin. apply String.eqb_neq. intros ->. contradiction. }
        rewrite !Hk by (unfold known_operators; cbn [In]; auto 15).
        reflexivity.
    + intros Hnostr. subst result. unfold evaluateVisibilityCondition.
      rewrite Hc, Hcol, Hoper. cbn [negb orb].
      destruct (get_prop condition "operator") eqn:E; try reflexivity.
      exfalso. now apply (Hnostr s).
Qed.
End VisibilityProofs.

(** *** The function at work, with the comparison primitives on primitive
    values *)

Example visibility_in :
  evaluateVisibilityCondition prim_loosely_equal prim_less_than
    (status_condition "IN" (VStr "approved , pending")) pending_row = true.
Proof. reflexivity. Qed.

Example visibility_not_in :
  evaluateVisibilityCondition prim_loosely_equal prim_less_than
    (status_condition "NOT IN" (VArr [VStr "approved"; VStr "pending"]))
    pending_row = false.
Proof. reflexivity. Qed.

Example visibility_ordering :
  evaluateVisibilityCondition prim_loosely_equal prim_less_than
    (VObj [("column", VArr [VStr "amount"]); ("operator", VStr ">=");
           ("value", VStr "100")]) pending_row = true.
Proof. reflexivity. Qed.

Example visibility_unknown_operator :
  evaluateVisibilityCondition prim_loosely_equal prim_less_than
    (status_condition "LIKE" (VStr "pend")) pending_row = true.
Proof. reflexivity. Qed.

Example visibility_inherited :
  evaluateVisibilityCondition prim_loosely_equal prim_less_than
    (VObj [("column", VStr "constructor"); ("operator", VStr "IS NULL")])
    pending_row = false
  /\ evaluateVisibilityCondition prim_loosely_equal prim_less_than
       (VObj [("column", VStr "customer"); ("operator", VStr "IS NULL")])
       pending_row = true.
Proof. split; reflexivity. Qed.

(** A condition on the amount of a sample row: the row is shown because
    the value of the condition is less than the amount. *)
Lemma evaluateVisibilityCondition_spec_witness :
  truthy (VObj [("column", VStr "amount"); ("operator", VStr ">");
                ("value", VNum 100)]) = true
  /\ prim_less_than (VNum 100) (VNum 120) = Some true
  /\ evaluateVisibilityCondition prim_loosely_equal prim_less_than
       (VObj [("column", VStr "amount"); ("operator", VStr ">");
              ("value", VNum 100)]) pending_row
     = true.
Proof.
  split; [reflexivity |]. split; [reflexivity |].
  pose proof (evaluateVisibilityCondition_spec prim_loosely_equal
                prim_less_than
                (VObj [("column", VStr "amount"); ("operator", VStr ">");
                       ("value", VNum 100)])
                pending_row) as H.
  cbv zeta in H. destruct H as [_ H].
  destruct (H eq_refl eq_refl eq_refl) as [Hop _].
  destruct (Hop ">" eq_refl) as [_ [_ [Hgt _]]].
  exact (proj2 (Hgt eq_refl) eq_refl).
Defined.

(** ** Action lists *)

Lemma SameValueZero_eq (a b : JsVal) : SameValueZero a b = true -> a = b.
Proof.
  destruct a, b; simpl; try discriminate; try reflexivity; intros H.
  - f_equal. now apply Bool.eqb_prop.
  - f_equal. now apply Z.eqb_eq.
  - f_equal. now apply Z.eqb_eq.
  - f_equal. now apply String.eqb_eq.
  - apply andb_prop in H as [H Hpoint]. apply andb_prop in H as [Hsign Hdigits].
    apply Bool.eqb_prop in Hsign. apply String.eqb_eq in Hdigits.
    apply Z.eqb_eq in Hpoint. now subst.
  - f_equal. now apply String.eqb_eq.
Qed.

Lemma SameValueZero_sym (a b : JsVal) : SameValueZero a b = SameValueZero b a.
Proof.
  destruct a, b; simpl; try reflexivity.
  - now destruct b, b0.
  - apply Z.eqb_sym.
  - apply Z.eqb_sym.
  - apply String.eqb_sym.
  - rewrite (Z.eqb_sym point), (String.eqb_sym digits).
    now destruct negative, negative0.
  - apply String.eqb_sym.
Qed.

Lemma set_add_In (s : list JsVal) (x y : JsVal) :
  In y (set_add s x) <-> In y s \/ y = x.
Proof.
  unfold set_add. destruct (List.existsb (SameValueZero x) s) eqn:E.
  - split; [tauto |]. intros [H | ->]; [assumption |].
    apply List.existsb_exists in E. destruct E as (z & Hin & Hz).
    apply SameValueZero_eq in Hz. now subst.
  - rewrite List.in_app_iff. simpl. intuition congruence.
Qed.

Lemma fold_set_add_In (l acc : list JsVal) (y : JsVal) :
  In y (fold_left set_add l acc) <-> In y acc \/ In y l.
Proof.
  revert acc. induction l as [|x l IH]; intros acc; simpl; [tauto |].
  rewrite IH, set_add_In. intuition congruence.
Qed.

(** The members of [new Set(array)] are the elements of the array. *)
Lemma new_Set_In (l : list JsVal) (y : JsVal) :
  In y (new_Set l) <-> In y l.
Proof. unfold new_Set. rewrite fold_set_add_In. simpl. tauto. Qed.

Lemma distinct_members_snoc (s : list JsVal) (x : JsVal) :
  distinct_members s ->
  List.existsb (SameValueZero x) s = false ->
  distinct_members (s ++ [x]).
Proof.
  induction s as [|a s IH]; simpl; [tauto |].
  intros [Ha Hs] E. apply Bool.orb_false_iff in E. destruct E as [Exa Exs].
  split; [| now apply IH].
  intros y Hy. apply List.in_app_iff in Hy. destruct Hy as [Hy | [<- | []]].
  - now apply Ha.
  - now rewrite SameValueZero_sym.
Qed.

Lemma new_Set_distinct (l : list JsVal) : distinct_members (new_Set l).
Proof.
  unfold new_Set.
  assert (H : forall acc, distinct_members acc ->
                          distinct_members (fold_left set_add l acc)).
  { induction l as [|x l IH]; intros acc Hacc; simpl; [assumption |].
    apply IH. unfold set_add.
    destruct (List.existsb (SameValueZero x) acc) eqn:E; [assumption |].
    now apply distinct_members_snoc. }
  apply H. exact I.
Qed.

(** C9. The coercion of an action list never fails: a text that does not
    parse, or that parses to something other than an array, gives the empty
    set; a text that parses to an array, and an array itself, give the set
    of the array's elements; a set is returned as it is; anything else gives
    the empty set. *)
Theorem parseOrConvertToSet_spec (parse : string -> option JsVal)
    (input : JsVal) :
  let result := parseOrConvertToSet parse input in
  (forall text, input = VStr text ->
     (parse text = None -> result = [])
     /\ (forall v, parse text = Some v -> (forall l, v <> VArr l) ->
                   result = [])
     /\ (forall l, parse text = Some (VArr l) ->
                   result = new_Set l
                   /\ (forall x, In x result <-> In x l)
                   /\ distinct_members result))
  /\ (forall l, input = VArr l ->
        result = new_Set l
        /\ (forall x, In x result <-> In x l)
        /\ distinct_members result)
  /\ (forall members, input = VSet members -> result = members)
  /\ ((forall text, input <> VStr text) -> (forall l, input <> VArr l) ->
      (forall members, input <> VSet members) -> result = []).
Proof.
  intros result. subst result.
  repeat match goal with |- _ /\ _ => split end.
  - intros text ->. repeat match goal with |- _ /\ _ => split end.
    + intros H. simpl. now rewrite H.
    + intros v H Hnot. simpl. rewrite H.
      destruct v; try reflexivity. exfalso. now apply (Hnot elems).
    + intros l H. simpl. rewrite H.
      split; [reflexivity | split; [apply new_Set_In | apply new_Set_distinct]].
  - intros l ->. simpl.
    split; [reflexivity | split; [apply new_Set_In | apply new_Set_distinct]].
  - intros members ->. reflexivity.
  - intros Hs Ha Hm. destruct input; try reflexivity.
    + exfalso. now apply (Hs s).
    + exfalso. now apply (Ha elems).
    + exfalso. now apply (Hm members).
Qed.

Example parseOrConvertToSet_text :
  parseOrConvertToSet JSON_parse
    (VStr (dq "[ 'approve', 'reject', 'approve', 3, 3 ]"))
  = [VStr "approve"; VStr "reject"; VNum 3].
Proof. vm_compute. reflexivity. Qed.

Example parseOrConvertToSet_malformed :
  parseOrConvertToSet JSON_parse (VStr (dq "[ 'approve', ")) = [].
Proof. vm_compute. reflexivity. Qed.

Example parseOrConvertToSet_not_array :
  parseOrConvertToSet JSON_parse (VStr (dq "{'key':'approve'}")) = [].
Proof. vm_compute. reflexivity. Qed.

(** A text that is cut off in the middle of an object. *)
Lemma parseOrConvertToSet_spec_witness :
  JSON_parse (dq "{'key': 1") = None
  /\ parseOrConvertToSet JSON_parse (VStr (dq "{'key': 1")) = [].
Proof.
  assert (H : JSON_parse (dq "{'key': 1") = None) by (vm_compute; reflexivity).
  split; [exact H |].
  pose proof (parseOrConvertToSet_spec JSON_parse (VStr (dq "{'key': 1")))
    as Hspec.
  cbv zeta in Hspec. destruct Hspec as [Htext _].
  destruct (Htext _ eq_refl) as [Hnone _].
  exact (Hnone H).
Defined.

(** ** JSON text: reading back what was written *)

Local Open Scope string_scope.

(** A quoted text is read back as the text. *)
Lemma parse_string_body_quote (s rest : string) :
  parse_string_body (quote_body s ++ String "034" rest) = Some (s, rest).
Proof.
  induction s as [|c s IH]; [reflexivity |].
  cbn [quote_body]. rewrite append_assoc.
  destruct c as [[] [] [] [] [] [] [] []];
    match goal with
    | |- context [quote_char ?c] =>
        let q := eval vm_compute in (quote_char c) in
        change (quote_char c) with q
    end;
    norm_append; cbn; rewrite IH; reflexivity.
Qed.

Lemma delimited_no_digit (rest : string) :
  delimited rest -> no_digit_ahead rest.
Proof.
  destruct rest as [|c r]; [reflexivity |].
  intros [-> | [-> | ->]]; reflexivity.
Qed.

Lemma read_digits_uint (d : Decimal.uint) (rest : string) :
  no_digit_ahead rest ->
  read_digits (NilEmpty.string_of_uint d ++ rest) = (d, rest).
Proof.
  intros Hrest.
  induction d; cbn [NilEmpty.string_of_uint]; norm_append;
    [exact Hrest | ..]; cbn [read_digits]; rewrite IHd; reflexivity.
Qed.

Lemma to_uint_no_leading_zero (p : positive) (d : Decimal.uint) :
  Pos.to_uint p <> Decimal.D0 d.
Proof.
  intros E.
  assert (Hnorm : Decimal.unorm (Pos.to_uint p) = Pos.to_uint p).
  { rewrite <- DecimalPos.Unsigned.to_of, DecimalPos.Unsigned.of_to.
    reflexivity. }
  rewrite E, DecimalFacts.unorm_D0 in Hnorm.
  assert (Hd : d = Decimal.Nil).
  { destruct d; [reflexivity | ..]; exfalso;
      match type of Hnorm with
      | Decimal.unorm ?u = _ =>
          pose proof (DecimalFacts.nb_digits_unorm u ltac:(discriminate)) as Hlen
      end;
      rewrite Hnorm in Hlen; cbn [Decimal.nb_digits] in Hlen; lia. }
  subst d. apply (DecimalPos.Unsigned.to_uint_nonzero p). exact E.
Qed.

Lemma all_digits_uint (d : Decimal.uint) :
  all_digits (NilEmpty.string_of_uint d) = true.
Proof. induction d; cbn [NilEmpty.string_of_uint all_digits]; auto. Qed.

Lemma read_digits_text (d : Decimal.uint) :
  read_digits (NilEmpty.string_of_uint d) = (d, EmptyString).
Proof.
  pose proof (read_digits_uint d EmptyString eq_refl) as H.
  now rewrite append_nil_r in H.
Qed.

(** The text of a whole number that is not negative is a run of digits
    that stands for it, without a zero at its front unless it is [0]. *)
Lemma Z_to_string_uint (z : Z) :
  (0 <= z)%Z ->
  exists d,
    Z_to_string z = NilEmpty.string_of_uint d
    /\ d <> Decimal.Nil
    /\ Z.of_uint d = z
    /\ ((forall d', d <> Decimal.D0 d') \/ d = Decimal.D0 Decimal.Nil).
Proof.
  intros Hz. unfold Z_to_string. destruct z as [| p | p]; [| | lia].
  - exists (Decimal.D0 Decimal.Nil).
    repeat split; try discriminate. now right.
  - exists (Pos.to_uint p). cbn [Z.to_int NilZero.string_of_int].
    pose proof (DecimalPos.Unsigned.to_uint_nonnil p) as Hnil.
    split; [| split; [exact Hnil | split]].
    + destruct (Pos.to_uint p); [contradiction | ..]; reflexivity.
    + exact (DecimalZ.of_to (Zpos p)).
    + left. intros d'. apply to_uint_no_leading_zero.
Qed.

(** *** Runs of digits *)

Lemma digit_cases (c : ascii) :
  Nat.leb 48 (nat_of_ascii c) && Nat.leb (nat_of_ascii c) 57 = true ->
  In c ["0"; "1"; "2"; "3"; "4"; "5"; "6"; "7"; "8"; "9"]%char.
Proof.
  destruct c as [[] [] [] [] [] [] [] []]; intros H;
    try (vm_compute in H; discriminate H);
    cbn [In]; repeat first [left; reflexivity | right].
Qed.

(** A run of digits is read whole, and is the text of what is read. *)
Lemma read_digits_run (s rest : string) :
  all_digits s = true ->
  no_digit_ahead rest ->
  read_digits (s ++ rest) = (fst (read_digits s), rest)
  /\ NilEmpty.string_of_uint (fst (read_digits s)) = s.
Proof.
  intros Hall Hrest. induction s as [| c s IH].
  - norm_append. rewrite Hrest. split; reflexivity.
  - cbn [all_digits] in Hall. apply andb_prop in Hall as [Hc Hall].
    destruct (IH Hall) as [Hrun Htext]. clear IH.
    apply digit_cases in Hc. cbn [In] in Hc. norm_append.
    destruct (read_digits s) as [d r] eqn:Hs. cbn [fst] in *.
    repeat (destruct Hc as [<- | Hc];
            [cbn [read_digits]; rewrite Hrun, Hs;
             cbn [fst NilEmpty.string_of_uint]; now rewrite Htext |]).
    contradiction.
Qed.

Lemma read_digits_some (s : string) (c : ascii) :
  all_digits (String c s) = true ->
  fst (read_digits (String c s)) <> Decimal.Nil.
Proof.
  intros Hall Hnil.
  destruct (read_digits_run (String c s) EmptyString Hall eq_refl)
    as [_ Htext].
  rewrite Hnil in Htext. discriminate.
Qed.

Lemma all_digits_append (a b : string) :
  all_digits (a ++ b) = all_digits a && all_digits b.
Proof.
  induction a as [| c a IH]; norm_append; [reflexivity |].
  cbn [all_digits]. now rewrite IH, andb_assoc.
Qed.

Lemma all_digits_zeros (m : nat) : all_digits (zeros m) = true.
Proof. induction m as [| m IH]; [reflexivity | exact IH]. Qed.

Lemma length_zeros (m : nat) : String.length (zeros m) = m.
Proof. induction m as [| m IH]; cbn; [reflexivity | now rewrite IH]. Qed.

Lemma first_after_chars (n : nat) (s : string) :
  (first_chars n s ++ after_chars n s)%string = s.
Proof.
  revert s. induction n as [| n IH]; intros [| c s]; try reflexivity.
  cbn [first_chars after_chars]. norm_append. now rewrite IH.
Qed.

Lemma length_first_chars (n : nat) (s : string) :
  n <= String.length s -> String.length (first_chars n s) = n.
Proof.
  revert s. induction n as [| n IH]; intros [| c s] Hn; cbn in *;
    try reflexivity; try lia.
  rewrite IH; lia.
Qed.

Lemma strip_leading_zeros_zeros (m : nat) (s : string) :
  strip_leading_zeros (zeros m ++ s) = strip_leading_zeros s.
Proof. induction m as [| m IH]; [reflexivity | exact IH]. Qed.

(** *** Numbers that are not whole *)

Lemma decimal_form_parts (s : string) (n : Z) :
  decimal_form s n = true ->
  all_digits s = true
  /\ (exists c r, s = String c r /\ c <> "0"%char)
  /\ strip_trailing_zeros s = s
  /\ (n < Z.of_nat (String.length s))%Z.
Proof.
  unfold decimal_form. intros H.
  apply andb_prop in H as [H Hpoint]. apply andb_prop in H as [H Hlast].
  apply andb_prop in H as [Hall Hfirst].
  split; [exact Hall |]. split; [| split].
  - destruct s as [| c r]; [discriminate |]. exists c, r.
    split; [reflexivity |]. intros ->. discriminate.
  - now apply String.eqb_eq.
  - now apply Z.ltb_lt.
Qed.

Lemma strip_leading_zeros_head (c : ascii) (r : string) :
  c <> "0"%char -> strip_leading_zeros (String c r) = String c r.
Proof.
  intros Hc. cbn [strip_leading_zeros].
  destruct c as [[] [] [] [] [] [] [] []]; try reflexivity. contradiction.
Qed.

(** The digits of a number that is not whole, after any zeros, with the
    decimal point placed accordingly, make that number. *)
Lemma make_number_decimal (negative : bool) (s : string) (n : Z) (m : nat) :
  decimal_form s n = true ->
  make_number negative (zeros m ++ s) (n + Z.of_nat m) = VDec negative s n.
Proof.
  intros Hform.
  destruct (decimal_form_parts s n Hform)
    as [Hall [[c [r [-> Hc]]] [Hlast Hpoint]]].
  unfold make_number.
  rewrite strip_leading_zeros_zeros, (strip_leading_zeros_head c r Hc).
  rewrite length_append, length_zeros.
  replace (n + Z.of_nat m
           - Z.of_nat (m + String.length (String c r)
                       - String.length (String c r)))%Z
    with n by lia.
  cbv zeta.
  rewrite (proj2 (Z.leb_gt _ _) Hpoint), Hlast.
  now rewrite (proj2 (Z.leb_gt _ _) Hpoint).
Qed.

Lemma make_number_whole (negative : bool) (d : Decimal.uint) :
  d <> Decimal.Nil ->
  (forall d', d <> Decimal.D0 d') \/ d = Decimal.D0 Decimal.Nil ->
  make_number negative (NilEmpty.string_of_uint d ++ EmptyString)
    (Z.of_nat (String.length (NilEmpty.string_of_uint d)) + 0)
  = VNum (Z.of_int (if negative then Decimal.Neg d else Decimal.Pos d)).
Proof.
  intros Hnil Hzero. rewrite append_nil_r, Z.add_0_r.
  destruct Hzero as [Hzero | ->]; [| now destruct negative].
  unfold make_number.
  assert (Hstrip : strip_leading_zeros (NilEmpty.string_of_uint d)
                   = NilEmpty.string_of_uint d).
  { destruct d; try reflexivity. now destruct (Hzero d). }
  rewrite Hstrip, Nat.sub_diag, Z.sub_0_r, Z.leb_refl, Z.sub_diag.
  unfold digits_value. rewrite read_digits_text. cbn [fst].
  rewrite Z.pow_0_r, Z.mul_1_r.
  destruct d; [contradiction | ..]; now destruct negative.
Qed.

(** *** Numeric literals *)

Lemma read_fraction_none (rest : string) :
  delimited rest -> read_fraction rest = Some (EmptyString, rest).
Proof.
  destruct rest as [| c r]; [reflexivity |].
  intros [-> | [-> | ->]]; reflexivity.
Qed.

Lemma read_exponent_none (rest : string) :
  delimited rest -> read_exponent rest = Some (0%Z, rest).
Proof.
  destruct rest as [| c r]; [reflexivity |].
  intros [-> | [-> | ->]]; reflexivity.
Qed.

Lemma read_fraction_digits (fraction rest : string) :
  all_digits fraction = true ->
  fraction <> EmptyString ->
  no_digit_ahead rest ->
  read_fraction (String "." (fraction ++ rest)) = Some (fraction, rest).
Proof.
  intros Hall Hsome Hrest. cbn [read_fraction].
  destruct (read_digits_run fraction rest Hall Hrest) as [Hrun Htext].
  rewrite Hrun, Htext.
  destruct fraction as [| c r]; [contradiction |].
  pose proof (read_digits_some r c Hall) as Hnil.
  now destruct (fst (read_digits (String c r))).
Qed.

Lemma read_exponent_digits (negative : bool) (e : Z) (rest : string) :
  (0 <= e)%Z ->
  no_digit_ahead rest ->
  read_exponent
    (String "e" (String (if negative then "-" else "+")%char
                   (Z_to_string e ++ rest)))
  = Some (if negative then (- e)%Z else e, rest).
Proof.
  intros He Hrest.
  destruct (Z_to_string_uint e He) as [d [Htext [Hnil [Hvalue _]]]].
  rewrite Htext. cbn [read_exponent].
  destruct negative; rewrite (read_digits_uint d rest Hrest), Hvalue;
    now destruct d.
Qed.

(** A literal is read as the number that its parts make. *)
Lemma parse_number_literal (negative : bool) (d : Decimal.uint)
    (after fraction s3 rest : string) (exponent : Z) :
  d <> Decimal.Nil ->
  (forall d', d <> Decimal.D0 d') \/ d = Decimal.D0 Decimal.Nil ->
  no_digit_ahead after ->
  read_fraction after = Some (fraction, s3) ->
  read_exponent s3 = Some (exponent, rest) ->
  parse_number ((if negative then "-" else EmptyString)
                ++ NilEmpty.string_of_uint d ++ after)
  = Some (make_number negative (NilEmpty.string_of_uint d ++ fraction)
            (Z.of_nat (String.length (NilEmpty.string_of_uint d)) + exponent),
          rest).
Proof.
  intros Hnil Hzero Hafter Hfraction Hexponent. unfold parse_number.
  destruct negative; norm_append.
  - rewrite (read_digits_uint d after Hafter), Hfraction, Hexponent.
    destruct d; try reflexivity; [contradiction |].
    destruct Hzero as [H | [= ->]]; [now destruct (H d) | reflexivity].
  - destruct d; [contradiction | ..];
      cbn [NilEmpty.string_of_uint]; norm_append; cbn [read_digits];
      rewrite (read_digits_uint d after Hafter), Hfraction, Hexponent;
      try reflexivity.
    destruct Hzero as [H | [= ->]]; [now destruct (H d) | reflexivity].
Qed.

(** A whole number is read back from its decimal text. *)
Lemma parse_number_Z (z : Z) (rest : string) :
  delimited rest ->
  parse_number (Z_to_string z ++ rest) = Some (VNum z, rest).
Proof.
  intros Hrest.
  assert (Hread : forall (negative : bool) (d : Decimal.uint),
            d <> Decimal.Nil ->
            (forall d', d <> Decimal.D0 d') \/ d = Decimal.D0 Decimal.Nil ->
            parse_number ((if negative then "-" else EmptyString)
                          ++ NilEmpty.string_of_uint d ++ rest)
            = Some (VNum (Z.of_int (if negative then Decimal.Neg d
                                    else Decimal.Pos d)), rest)).
  { intros negative d Hnil Hzero.
    rewrite (parse_number_literal negative d rest EmptyString rest rest 0
               Hnil Hzero (delimited_no_digit rest Hrest)
               (read_fraction_none rest Hrest)
               (read_exponent_none rest Hrest)).
    now rewrite (make_number_whole negative d Hnil Hzero). }
  unfold Z_to_string.
  rewrite <- (DecimalZ.of_to z) at 2.
  destruct z as [| p | p]; cbn [Z.to_int NilZero.string_of_int].
  - apply (Hread false Decimal.zero); [discriminate | now right].
  - pose proof (DecimalPos.Unsigned.to_uint_nonnil p) as Hnil.
    replace (NilZero.string_of_uint (Pos.to_uint p))
      with (NilEmpty.string_of_uint (Pos.to_uint p))
      by (destruct (Pos.to_uint p); [contradiction | ..]; reflexivity).
    apply (Hread false _ Hnil).
    left. intros d'. apply to_uint_no_leading_zero.
  - pose proof (DecimalPos.Unsigned.to_uint_nonnil p) as Hnil.
    replace (NilZero.string_of_uint (Pos.to_uint p))
      with (NilEmpty.string_of_uint (Pos.to_uint p))
      by (destruct (Pos.to_uint p); [contradiction | ..]; reflexivity).
    norm_append.
    apply (Hread true _ Hnil).
    left. intros d'. apply to_uint_no_leading_zero.
Qed.

(** *** Plain JSON data *)

Lemma serialize_VArr (l : list JsVal) :
  serialize (VArr l) =
  match serialize_elements l with
  | Some ts => Text ("[" ++ String.concat "," ts ++ "]")
  | None => TypeError
  end.
Proof. reflexivity. Qed.

Lemma serialize_VObj (l : list (string * JsVal)) :
  serialize (VObj l) =
  match serialize_members l with
  | Some ts => Text ("{" ++ String.concat "," ts ++ "}")
  | None => TypeError
  end.
Proof. reflexivity. Qed.

Lemma json_plain_VArr (l : list JsVal) :
  json_plain (VArr l) = List.forallb json_plain l.
Proof. reflexivity. Qed.

Lemma json_plain_VObj (l : list (string * JsVal)) :
  json_plain (VObj l)
  = unique_keys l && List.forallb (fun kv => json_plain (snd kv)) l.
Proof. reflexivity. Qed.

Lemma parse_cost_VArr (l : list JsVal) :
  parse_cost (VArr l) = S (elements_cost l).
Proof. reflexivity. Qed.

Lemma parse_cost_VObj (l : list (string * JsVal)) :
  parse_cost (VObj l) = S (members_cost l).
Proof. reflexivity. Qed.

Lemma Z_to_string_start (z : Z) : starts_with number_start (Z_to_string z).
Proof.
  unfold Z_to_string.
  destruct z as [| p | p]; cbn [Z.to_int NilZero.string_of_int];
    try reflexivity;
    pose proof (DecimalPos.Unsigned.to_uint_nonnil p) as Hnil;
    destruct (Pos.to_uint p); try contradiction; reflexivity.
Qed.

Lemma starts_with_append (test : ascii -> bool) (s rest : string) :
  starts_with test s -> starts_with test (s ++ rest).
Proof. destruct s; [contradiction | norm_append; auto]. Qed.

Lemma number_value_start (s : string) :
  starts_with number_start s -> starts_with value_start s.
Proof.
  destruct s as [|c r]; [auto |]. simpl.
  destruct c as [[] [] [] [] [] [] [] []]; simpl; auto.
Qed.

Lemma parse_value_number (n : nat) (s : string) :
  starts_with number_start s -> parse_value (S n) s = parse_number s.
Proof.
  destruct s as [|c r]; [contradiction |]. simpl starts_with.
  destruct c as [[] [] [] [] [] [] [] []]; simpl; try discriminate;
    intros _; reflexivity.
Qed.

Lemma parse_elements_S (n : nat) (s : string) :
  parse_elements (S n) s =
  match parse_value n s with
  | Some (v, r1) =>
      match skip_ws r1 with
      | String "," r2 =>
          match parse_elements n r2 with
          | Some (l, r3) => Some (v :: l, r3) | None => None end
      | String "]" r2 => Some ([v], r2)
      | _ => None
      end
  | None => None
  end.
Proof. reflexivity. Qed.

Lemma parse_members_S (n : nat) (r0 : string) :
  parse_members (S n) (String "034" r0) =
  match parse_string_body r0 with
  | Some (k, r1) =>
      match skip_ws r1 with
      | String ":" r2 =>
          match parse_value n r2 with
          | Some (v, r3) =>
              match skip_ws r3 with
              | String "," r4 =>
                  match parse_members n r4 with
                  | Some (l, r5) => Some ((k, v) :: l, r5)
                  | None => None
                  end
              | String "}" r4 => Some ([(k, v)], r4)
              | _ => None
              end
          | None => None
          end
      | _ => None
      end
  | None => None
  end.
Proof. reflexivity. Qed.

Lemma parse_value_array (n : nat) (r : string) :
  starts_with value_start r ->
  parse_value (S n) (String "[" r) =
  match parse_elements n r with
  | Some (l, r') => Some (VArr l, r') | None => None end.
Proof.
  destruct r as [|c r]; [contradiction |]. simpl starts_with.
  destruct c as [[] [] [] [] [] [] [] []]; simpl value_start;
    try discriminate; intros _; reflexivity.
Qed.

Lemma parse_value_object (n : nat) (r : string) :
  parse_value (S n) (String "{" (String "034" r)) =
  match parse_members n (String "034" r) with
  | Some (l, r') => Some (build_object l, r') | None => None end.
Proof. reflexivity. Qed.

Lemma elements_read_back (l : list JsVal) :
  Forall reads_back l ->
  List.forallb json_plain l = true ->
  exists ts,
    serialize_elements l = Some ts
    /\ List.length ts = List.length l
    /\ (l <> [] -> starts_with value_start (String.concat "," ts))
    /\ elements_cost l <= S (String.length (String.concat "," ts))
    /\ (l <> [] -> forall fuel rest,
          elements_cost l <= fuel ->
          parse_elements fuel (String.concat "," ts ++ String "]" rest)
          = Some (l, rest)).
Proof.
  induction l as [|x r IH]; intros Hall Hplain.
  - exists []. repeat split; try contradiction. simpl. lia.
  - inversion Hall as [|? ? Hx Hr]; subst.
    cbn [List.forallb] in Hplain. apply andb_prop in Hplain.
    destruct Hplain as [Hpx Hpr].
    destruct (Hx Hpx) as (t & Ht & Hstart & Hlen & Hparse).
    destruct (IH Hr Hpr) as (ts & Hts & Hcount & Hstarts & Hcost & Hrest).
    exists (t :: ts). cbn [serialize_elements]. rewrite Ht, Hts.
    split; [reflexivity |]. split; [simpl; now rewrite Hcount |].
    destruct r as [|y r'].
    + destruct ts; [| discriminate]. cbn [String.concat].
      split; [auto |]. split; [simpl; lia |].
      intros _ fuel rest Hfuel. cbn [elements_cost] in Hfuel.
      destruct fuel as [|m]; [lia |].
      rewrite parse_elements_S, Hparse; [reflexivity | lia | simpl; auto].
    + destruct ts as [|t' ts']; [discriminate |].
      change (String.concat "," (t :: t' :: ts'))
        with (t ++ "," ++ String.concat "," (t' :: ts')).
      set (more := String.concat "," (t' :: ts')) in *.
      split; [intros _; now apply starts_with_append |].
      split.
      { rewrite !length_append. cbn [elements_cost] in *.
        change (String.length ",") with 1. lia. }
      intros _ fuel rest Hfuel. cbn [elements_cost] in Hfuel, Hrest.
      destruct fuel as [|m]; [lia |].
      rewrite !append_assoc. norm_append.
      rewrite parse_elements_S, Hparse; [| lia | simpl; auto].
      cbn [skip_ws is_ws]. cbv beta iota.
      rewrite Hrest; [reflexivity | discriminate | lia].
Qed.

Lemma member_text_append (k t rest : string) :
  (quote k ++ ":" ++ t) ++ rest
  = String "034" (quote_body k ++ String "034" (String ":" (t ++ rest))).
Proof.
  unfold quote. norm_append. rewrite !append_assoc. norm_append.
  reflexivity.
Qed.

Lemma member_text_length (k t : string) :
  String.length (quote k ++ ":" ++ t)
  = 3 + String.length (quote_body k) + String.length t.
Proof.
  unfold quote. norm_append. cbn [String.length].
  rewrite !length_append. cbn [String.length]. lia.
Qed.

Lemma members_read_back (l : list (string * JsVal)) :
  Forall (fun kv => reads_back (snd kv)) l ->
  List.forallb (fun kv => json_plain (snd kv)) l = true ->
  exists ts,
    serialize_members l = Some ts
    /\ List.length ts = List.length l
    /\ (l <> [] -> starts_with quote_start (String.concat "," ts))
    /\ members_cost l <= S (String.length (String.concat "," ts))
    /\ (l <> [] -> forall fuel rest,
          members_cost l <= fuel ->
          parse_members fuel (String.concat "," ts ++ String "}" rest)
          = Some (l, rest)).
Proof.
  induction l as [|[k x] r IH]; intros Hall Hplain.
  - exists []. repeat split; try contradiction. simpl. lia.
  - inversion Hall as [|? ? Hx Hr]; subst. cbn [snd] in Hx.
    cbn [List.forallb snd] in Hplain. apply andb_prop in Hplain.
    destruct Hplain as [Hpx Hpr].
    destruct (Hx Hpx) as (t & Ht & Hstart & Hlen & Hparse).
    destruct (IH Hr Hpr) as (ts & Hts & Hcount & Hstarts & Hcost & Hrest).
    exists ((quote k ++ ":" ++ t) :: ts). cbn [serialize_members].
    rewrite Ht, Hts.
    split; [reflexivity |]. split; [simpl; now rewrite Hcount |].
    destruct r as [|y r'].
    + destruct ts; [| discriminate]. cbn [String.concat].
      split; [intros _; reflexivity |].
      split; [rewrite member_text_length; simpl; lia |].
      intros _ fuel rest Hfuel. cbn [members_cost snd] in Hfuel.
      destruct fuel as [|m]; [lia |].
      rewrite member_text_append, parse_members_S, parse_string_body_quote.
      cbn [skip_ws is_ws]. cbv beta iota.
      rewrite Hparse; [reflexivity | lia | simpl; auto].
    + destruct ts as [|t' ts']; [discriminate |].
      change (String.concat "," ((quote k ++ ":" ++ t) :: t' :: ts'))
        with ((quote k ++ ":" ++ t) ++ "," ++ String.concat "," (t' :: ts')).
      set (more := String.concat "," (t' :: ts')) in *.
      split; [intros _; reflexivity |].
      split.
      { rewrite length_append, member_text_length, length_append.
        cbn [members_cost snd] in *. change (String.length ",") with 1. lia. }
      intros _ fuel rest Hfuel. cbn [members_cost snd] in Hfuel, Hrest.
      destruct fuel as [|m]; [lia |].
      rewrite append_assoc, member_text_append.
      rewrite !append_assoc. norm_append.
      rewrite parse_members_S, parse_string_body_quote.
      cbn [skip_ws is_ws]. cbv beta iota.
      rewrite Hparse; [| lia | simpl; auto].
      cbn [skip_ws is_ws]. cbv beta iota.
      rewrite Hrest; [reflexivity | discriminate | lia].
Qed.

Lemma set_prop_fresh {A : Type} (k : string) (v : A) (acc : list (string * A)) :
  List.existsb (fun kv => String.eqb (fst kv) k) acc = false ->
  set_prop k v acc = (acc ++ [(k, v)])%list.
Proof.
  induction acc as [|[k' v'] acc IH]; simpl; [reflexivity |].
  destruct (String.eqb k' k); [discriminate |].
  simpl. intros H. now rewrite IH.
Qed.

Lemma fold_set_prop_unique {A : Type} (l acc : list (string * A)) :
  unique_keys (acc ++ l)%list = true ->
  fold_left (fun m kv => set_prop (fst kv) (snd kv) m) l acc
  = (acc ++ l)%list.
Proof.
  revert acc. induction l as [|[k v] l IH]; intros acc Huniq; simpl.
  - now rewrite List.app_nil_r.
  - assert (Hfresh :
              List.existsb (fun kv => String.eqb (fst kv) k) acc = false).
    { clear IH. induction acc as [|[k' v'] acc IHacc]; [reflexivity |].
      simpl in Huniq. apply andb_prop in Huniq. destruct Huniq as [Hk' Hrest].
      simpl. rewrite (IHacc Hrest), Bool.orb_false_r.
      apply Bool.negb_true_iff in Hk'.
      rewrite List.existsb_app in Hk'. apply Bool.orb_false_iff in Hk'.
      destruct Hk' as [_ Hk']. simpl in Hk'.
      apply Bool.orb_false_iff in Hk'. destruct Hk' as [Hk' _].
      now rewrite String.eqb_sym. }
    rewrite (set_prop_fresh k v acc Hfresh).
    rewrite IH; rewrite <- List.app_assoc; [reflexivity | exact Huniq].
Qed.

Lemma build_object_unique (l : list (string * JsVal)) :
  unique_keys l = true -> build_object l = VObj l.
Proof.
  intros H. unfold build_object. now rewrite (fold_set_prop_unique l []).
Qed.

Lemma parse_value_string (n : nat) (r : string) :
  parse_value (S n) (String "034" r) =
  match parse_string_body r with
  | Some (str, r') => Some (VStr str, r') | None => None end.
Proof. reflexivity. Qed.

Lemma starts_with_length (test : ascii -> bool) (s : string) :
  starts_with test s -> 1 <= String.length s.
Proof. destruct s; [contradiction | simpl; lia]. Qed.

Lemma no_digit_ahead_point (s : string) : no_digit_ahead (String "." s).
Proof. reflexivity. Qed.

Lemma no_digit_ahead_e (s : string) : no_digit_ahead (String "e" s).
Proof. reflexivity. Qed.

Lemma digit_first (c : ascii) (r : string) :
  all_digits (String c r) = true -> number_start c = true.
Proof.
  cbn [all_digits]. intros Hall. apply andb_prop in Hall as [Hc _].
  apply digit_cases in Hc. cbn [In] in Hc.
  repeat (destruct Hc as [<- | Hc]; [reflexivity |]). contradiction.
Qed.

Lemma single_digit (c : ascii) :
  all_digits (String c EmptyString) = true ->
  c <> "0"%char ->
  exists d,
    NilEmpty.string_of_uint d = String c EmptyString
    /\ d <> Decimal.Nil /\ forall d', d <> Decimal.D0 d'.
Proof.
  intros Hall Hc.
  destruct (read_digits_run (String c EmptyString) EmptyString Hall eq_refl)
    as [_ Htext].
  exists (fst (read_digits (String c EmptyString))).
  split; [exact Htext |]. split; [now apply read_digits_some |].
  intros d' Hd. rewrite Hd in Htext. cbn in Htext.
  injection Htext as Hhead _. now apply Hc.
Qed.

(** The text of a number that is not whole is a numeric literal whose
    parts make that number. *)
Lemma digits_text_literal (s : string) (n : Z) :
  decimal_form s n = true ->
  exists d after fraction exponent,
    digits_text s n = NilEmpty.string_of_uint d ++ after
    /\ d <> Decimal.Nil
    /\ ((forall d', d <> Decimal.D0 d') \/ d = Decimal.D0 Decimal.Nil)
    /\ (forall rest,
           delimited rest ->
           no_digit_ahead (after ++ rest)
           /\ exists s3,
                read_fraction (after ++ rest) = Some (fraction, s3)
                /\ read_exponent s3 = Some (exponent, rest))
    /\ forall negative,
         make_number negative (NilEmpty.string_of_uint d ++ fraction)
           (Z.of_nat (String.length (NilEmpty.string_of_uint d)) + exponent)
         = VDec negative s n.
Proof.
  intros Hform.
  destruct (decimal_form_parts s n Hform)
    as [Hall [[c [r [-> Hc]]] [Hlast Hpoint]]].
  pose proof (fun negative => make_number_decimal negative _ n 0 Hform)
    as Hmake.
  cbn [zeros] in Hmake. rewrite Z.add_0_r in Hmake.
  unfold digits_text.
  destruct ((-5 <=? n)%Z && (n <=? 21)%Z) eqn:Hplain.
  - rewrite (proj2 (Z.leb_gt _ _) Hpoint).
    destruct (Z.ltb_spec 0 n) as [Hpos | Hneg].
    + (* digits, point, digits *)
      remember (Z.to_nat n) as places eqn:Hp.
      assert (Hplaces : 1 <= places < String.length (String c r)) by lia.
      pose proof (first_after_chars places (String c r)) as Hsplit.
      pose proof (length_first_chars places (String c r) ltac:(lia)) as Hlen.
      assert (Hparts : all_digits (first_chars places (String c r)) = true
                       /\ all_digits (after_chars places (String c r)) = true).
      { rewrite <- Hsplit, all_digits_append in Hall.
        now apply andb_prop in Hall. }
      destruct Hparts as [Hwhole Hfraction].
      destruct (read_digits_run _ EmptyString Hwhole eq_refl) as [_ Htext].
      exists (fst (read_digits (first_chars places (String c r)))),
        (String "." (after_chars places (String c r))),
        (after_chars places (String c r)), 0%Z.
      rewrite Htext. split; [reflexivity |].
      destruct places as [| places']; [lia |].
      cbn [first_chars] in *.
      split; [now apply read_digits_some |]. split; [| split].
      * left. intros d' Hd. rewrite Hd in Htext. cbn in Htext.
        injection Htext as Hhead _. now apply Hc.
      * intros rest Hrest. norm_append.
        split; [apply no_digit_ahead_point |]. exists rest.
        split; [| now apply read_exponent_none].
        apply read_fraction_digits;
          [exact Hfraction | | now apply delimited_no_digit].
        intros Hnone. rewrite Hnone, append_nil_r in Hsplit.
        rewrite <- Hsplit in Hplaces. rewrite Hlen in Hplaces. lia.
      * intros negative. rewrite Hsplit, Hlen, Z.add_0_r.
        replace (Z.of_nat (S places')) with n by lia.
        apply Hmake.
    + (* zero, point, zeros, digits *)
      exists (Decimal.D0 Decimal.Nil),
        (String "." (zeros (Z.to_nat (- n)) ++ String c r)),
        (zeros (Z.to_nat (- n)) ++ String c r), 0%Z.
      split; [reflexivity |]. split; [discriminate |].
      split; [now right |]. split.
      * intros rest Hrest. norm_append.
        split; [apply no_digit_ahead_point |]. exists rest.
        split; [| now apply read_exponent_none].
        apply read_fraction_digits; [| | now apply delimited_no_digit].
        -- now rewrite all_digits_append, all_digits_zeros.
        -- destruct (zeros (Z.to_nat (- n))); discriminate.
      * intros negative.
        change (NilEmpty.string_of_uint (Decimal.D0 Decimal.Nil)
                ++ zeros (Z.to_nat (- n)) ++ String c r)
          with (zeros (S (Z.to_nat (- n))) ++ String c r).
        replace (Z.of_nat
                   (String.length
                      (NilEmpty.string_of_uint (Decimal.D0 Decimal.Nil)))
                 + 0)%Z
          with (n + Z.of_nat (S (Z.to_nat (- n))))%Z
          by (cbn [NilEmpty.string_of_uint String.length]; lia).
        now apply make_number_decimal.
  - (* first digit, the other digits, exponent *)
    assert (Hfirst : all_digits (String c EmptyString) = true).
    { cbn [all_digits] in *. apply andb_prop in Hall as [Hhead _].
      now rewrite Hhead. }
    destruct (single_digit c Hfirst Hc) as [d [Htext [Hnil Hzero]]].
    assert (Hexp : forall rest,
              delimited rest ->
              read_exponent
                (String "e"
                   (String (if (n - 1 <? 0)%Z then "-" else "+")%char
                      (Z_to_string (Z.abs (n - 1)) ++ rest)))
              = Some ((n - 1)%Z, rest)).
    { intros rest Hrest.
      rewrite (read_exponent_digits (n - 1 <? 0)%Z (Z.abs (n - 1)) rest
                 (Z.abs_nonneg _) (delimited_no_digit rest Hrest)).
      destruct (Z.ltb_spec (n - 1) 0); do 2 f_equal; lia. }
    assert (Hnumber : forall negative,
              make_number negative (NilEmpty.string_of_uint d ++ r)
                (Z.of_nat (String.length (NilEmpty.string_of_uint d))
                 + (n - 1))
              = VDec negative (String c r) n).
    { intros negative. rewrite Htext. norm_append.
      cbn [String.length].
      replace (Z.of_nat 1 + (n - 1))%Z with n by lia. apply Hmake. }
    destruct r as [| c' r'].
    + exists d,
        (String "e"
           (String (if (n - 1 <? 0)%Z then "-" else "+")%char
              (Z_to_string (Z.abs (n - 1))))),
        EmptyString, (n - 1)%Z.
      rewrite Htext. split; [reflexivity |]. split; [exact Hnil |].
      split; [now left |]. split.
      * intros rest Hrest. norm_append.
        split; [apply no_digit_ahead_e |].
        eexists. split; [reflexivity | now apply Hexp].
      * intros negative. specialize (Hnumber negative).
        rewrite Htext in Hnumber. exact Hnumber.
    + exists d,
        (String "."
           (String c' r'
            ++ String "e"
                 (String (if (n - 1 <? 0)%Z then "-" else "+")%char
                    (Z_to_string (Z.abs (n - 1)))))),
        (String c' r'), (n - 1)%Z.
      rewrite Htext. split; [reflexivity |]. split; [exact Hnil |].
      split; [now left |]. split.
      2: { intros negative. specialize (Hnumber negative).
           rewrite Htext in Hnumber. exact Hnumber. }
      intros rest Hrest. rewrite append_cons.
      split; [apply no_digit_ahead_point |].
      rewrite append_assoc, !append_cons.
      eexists. split; [| now apply Hexp].
      rewrite <- !append_cons. apply read_fraction_digits.
      * cbn [all_digits] in Hall |- *.
        apply andb_prop in Hall as [_ Hrest']. exact Hrest'.
      * discriminate.
      * rewrite append_cons. apply no_digit_ahead_e.
Qed.

(** A number that is not whole is read back from its text. *)
Lemma parse_number_decimal (negative : bool) (s : string) (n : Z)
    (rest : string) :
  decimal_form s n = true ->
  delimited rest ->
  starts_with number_start (number_text negative s n)
  /\ parse_number (number_text negative s n ++ rest)
     = Some (VDec negative s n, rest).
Proof.
  intros Hform Hrest.
  destruct (digits_text_literal s n Hform)
    as [d [after [fraction [exponent
          [Htext [Hnil [Hzero [Hafter Hmake]]]]]]]].
  destruct (Hafter rest Hrest) as [Hahead [s3 [Hfraction Hexponent]]].
  pose proof (parse_number_literal negative d (after ++ rest) fraction s3
                rest exponent Hnil Hzero Hahead Hfraction Hexponent)
    as Hparse.
  rewrite Hmake in Hparse. unfold number_text. rewrite Htext. split.
  - destruct negative; [reflexivity |].
    pose proof (all_digits_uint d) as Hall.
    destruct (NilEmpty.string_of_uint d) as [| c r] eqn:Hd.
    + destruct d; [contradiction | ..]; discriminate.
    + norm_append. exact (digit_first c r Hall).
  - rewrite <- Hparse. destruct negative; norm_append;
      now rewrite append_assoc.
Qed.

Lemma plain_values_read_back (v : JsVal) : reads_back v.
Proof.
  induction v
    as [| | b | z | z | s | i d | l IH | l IH | l IH | negative digits point
        | name]
    using JsVal_nested_ind; unfold reads_back; intros Hplain;
    try discriminate.
  - exists "null". repeat split; [simpl; lia |].
    intros [|n] rest Hfuel _; [simpl in Hfuel; lia | reflexivity].
  - exists (if b then "true" else "false").
    destruct b; (repeat split; [simpl; lia |]);
      intros [|n] rest Hfuel _; try (simpl in Hfuel; lia); reflexivity.
  - exists (Z_to_string z).
    pose proof (Z_to_string_start z) as Hstart.
    repeat split.
    + now apply number_value_start.
    + simpl. now apply (starts_with_length number_start).
    + intros [|n] rest Hfuel Hrest; [simpl in Hfuel; lia |].
      rewrite parse_value_number by now apply starts_with_append.
      now apply parse_number_Z.
  - exists (quote s). repeat split; [simpl; lia |].
    intros [|n] rest Hfuel _; [simpl in Hfuel; lia |].
    unfold quote. norm_append. rewrite append_assoc. norm_append.
    now rewrite parse_value_string, parse_string_body_quote.
  - rewrite json_plain_VArr in Hplain.
    destruct (elements_read_back l IH Hplain)
      as (ts & Hts & Hcount & Hstart & Hcost & Hparse).
    exists ("[" ++ String.concat "," ts ++ "]").
    rewrite serialize_VArr, Hts. repeat split.
    + rewrite parse_cost_VArr. norm_append. cbn [String.length].
      rewrite length_append. cbn [String.length]. lia.
    + intros [|n] rest Hfuel _; [simpl in Hfuel; lia |].
      rewrite parse_cost_VArr in Hfuel.
      norm_append. rewrite append_assoc. norm_append.
      destruct l as [|x r].
      * destruct ts; [reflexivity | discriminate].
      * rewrite parse_value_array
          by (apply starts_with_append, Hstart; discriminate).
        rewrite Hparse; [reflexivity | discriminate | lia].
  - rewrite json_plain_VObj in Hplain. apply andb_prop in Hplain.
    destruct Hplain as [Huniq Hplain].
    destruct (members_read_back l IH Hplain)
      as (ts & Hts & Hcount & Hstart & Hcost & Hparse).
    exists ("{" ++ String.concat "," ts ++ "}").
    rewrite serialize_VObj, Hts. repeat split.
    + rewrite parse_cost_VObj. norm_append. cbn [String.length].
      rewrite length_append. cbn [String.length]. lia.
    + intros [|n] rest Hfuel _; [simpl in Hfuel; lia |].
      rewrite parse_cost_VObj in Hfuel.
      norm_append. rewrite append_assoc. norm_append.
      destruct l as [|kv r].
      * destruct ts; [reflexivity | discriminate].
      * assert (Hne : kv :: r <> []) by discriminate.
        specialize (Hstart Hne). specialize (Hparse Hne n rest).
        destruct (String.concat "," ts) as [|c body]; [contradiction |].
        simpl in Hstart. unfold quote_start in Hstart.
        apply Ascii.eqb_eq in Hstart. subst c. norm_append.
        rewrite parse_value_object.
        revert Hparse. norm_append. intros Hparse.
        rewrite Hparse by lia.
        now rewrite build_object_unique.
  - cbn [json_plain] in Hplain.
    destruct (parse_number_decimal negative digits point EmptyString Hplain I)
      as [Hstart _].
    exists (number_text negative digits point). repeat split.
    + now apply number_value_start.
    + simpl. now apply (starts_with_length number_start).
    + intros [|n] rest Hfuel Hrest; [simpl in Hfuel; lia |].
      rewrite parse_value_number by now apply starts_with_append.
      now apply parse_number_decimal.
Qed.

(** Plain JSON data survives [JSON.parse(JSON.stringify(v))]. *)
Theorem JSON_roundtrip (v : JsVal) :
  json_plain v = true ->
  exists text,
    JSON_stringify v = Text text
    /\ text <> EmptyString
    /\ JSON_parse text = Some v.
Proof.
  intros Hplain.
  destruct (plain_values_read_back v Hplain)
    as (t & Ht & Hstart & Hlen & Hparse).
  exists t. split; [exact Ht |]. split.
  - destruct t; [contradiction | discriminate].
  - unfold JSON_parse.
    specialize (Hparse (S (String.length t)) EmptyString ltac:(lia) I).
    rewrite append_nil_r in Hparse. now rewrite Hparse.
Qed.

Local Close Scope string_scope.

(** ** Persisted selection *)

Lemma state_entries_selection (selectedRows : Selection) :
  state_entries (selection_state selectedRows) = entries_value selectedRows.
Proof.
  unfold state_entries, selection_state, entries_value.
  now rewrite List.map_map.
Qed.

Lemma entries_value_plain (selectedRows : Selection) :
  List.forallb (fun kv => json_plain (VObj (snd kv))) selectedRows = true ->
  json_plain (entries_value selectedRows) = true.
Proof.
  intros H. unfold entries_value. rewrite json_plain_VArr.
  induction selectedRows as [|[k row] rest IH]; [reflexivity |].
  cbn [List.forallb snd] in H. apply andb_prop in H. destruct H as [Hrow Hrest].
  cbn [List.map List.forallb fst snd]. rewrite (IH Hrest), Bool.andb_true_r.
  rewrite json_plain_VArr. cbn [List.forallb]. rewrite Hrow. reflexivity.
Qed.

(** Setting an id in the state of a selection is setting it in the
    selection. *)
Lemma anymap_set_selection (k : string) (row : Row) (selectedRows : Selection) :
  anymap_set (VStr k) (VObj row) (selection_state selectedRows)
  = selection_state (map_set k row selectedRows).
Proof.
  unfold map_set.
  induction selectedRows as [| [k' row'] rest IH]; [reflexivity |].
  cbn [selection_state List.map anymap_set set_prop SameValueZero fst snd].
  destruct (String.eqb k' k); [reflexivity |].
  cbn [List.map fst snd]. f_equal. exact IH.
Qed.

Lemma add_entries_selection (entries acc : Selection) :
  add_entries
    (List.map (fun kv => VArr [VStr (fst kv); VObj (snd kv)]) entries)
    (selection_state acc)
  = Some (selection_state
            (fold_left (fun m kv => set_prop (fst kv) (snd kv) m)
               entries acc)).
Proof.
  revert acc. induction entries as [| [k row] rest IH]; intros acc;
    [reflexivity |].
  cbn [List.map add_entries entry_of List.nth fst snd fold_left].
  rewrite anymap_set_selection. apply IH.
Qed.

Lemma new_Map_entries (selectedRows : Selection) :
  unique_keys selectedRows = true ->
  new_Map (entries_value selectedRows) = Some (selection_state selectedRows).
Proof.
  intros Huniq. unfold new_Map, entries_value.
  etransitivity; [exact (add_entries_selection selectedRows []) |].
  now rewrite (fold_set_prop_unique selectedRows [] Huniq).
Qed.

(** C6 (as amended). With retention enabled, a selection with one entry per
    id whose rows are JSON data (null, booleans, numbers, texts, arrays and
    plain objects of these; no [undefined], [Date], BigInt, function or
    [Set] inside) is written to storage under the key of the chart, and a
    mount that finds this storage restores exactly that selection and
    leaves the storage as it is.  With retention disabled a mount yields
    the empty selection and removes the stored entry of the chart. *)
Theorem selection_roundtrip (sliceId : JsVal) (selectedRows : Selection)
    (localStorage : gmap string string) :
  (selection_plain selectedRows = true ->
   let stored :=
     persist_effect true sliceId (selection_state selectedRows)
       localStorage in
   (exists text, stored = <[storage_key sliceId := text]> localStorage)
   /\ mount true sliceId stored = (selection_state selectedRows, stored))
  /\ mount false sliceId localStorage
     = ([], delete (storage_key sliceId) localStorage)
  /\ delete (storage_key sliceId) localStorage !! storage_key sliceId = None.
Proof.
  split; [| split].
  - intros Hplain. unfold selection_plain in Hplain.
    apply andb_prop in Hplain. destruct Hplain as [Huniq Hrows].
    destruct (JSON_roundtrip _ (entries_value_plain _ Hrows))
      as (text & Htext & Hne & Hparse).
    cbv zeta. unfold persist_effect at 1 2.
    rewrite state_entries_selection, Htext.
    split; [now exists text |].
    unfold mount, restore_effect. rewrite lookup_insert_eq.
    apply String.eqb_neq in Hne. rewrite Hne, Hparse.
    rewrite (new_Map_entries _ Huniq).
    unfold persist_effect. rewrite state_entries_selection, Htext.
    change (JSON_stringify (state_entries [])) with (Text "[]").
    cbv beta iota. now rewrite !insert_insert_eq.
  - unfold mount, restore_effect, persist_effect.
    now rewrite delete_delete_eq.
  - apply lookup_delete_eq.
Qed.

(** Two rows written and restored, one of them with an amount that is not
    a whole number. *)
Lemma selection_roundtrip_witness :
  let rows :=
    [("a", row_a); ("b", [("id", VStr "b"); ("amount", VDec false "105" 2)])] in
  selection_plain rows = true
  /\ mount true (VNum 42)
       (persist_effect true (VNum 42) (selection_state rows) ∅)
     = (selection_state rows,
        persist_effect true (VNum 42) (selection_state rows) ∅).
Proof.
  cbv zeta. split; [reflexivity |].
  exact (proj2 (proj1 (selection_roundtrip (VNum 42)
                         [("a", row_a);
                          ("b", [("id", VStr "b");
                                 ("amount", VDec false "105" 2)])] ∅)
                  eq_refl)).
Defined.

Example persist_effect_text :
  persist_effect true (VNum 42)
    (selection_state
       [("a", row_a);
        ("b", [("id", VStr "b"); ("amount", VDec false "105" 2)])]) ∅
  = {[ "selectedRows_42"
       := dq "[['a',{'id':'a','amount':10}],['b',{'id':'b','amount':10.5}]]" ]}.
Proof. vm_compute. reflexivity. Qed.

(** Stored text that no selection was written as: numbers with a fraction
    and an exponent, and an entry whose value is not a row. *)
Example restore_effect_foreign :
  fst (restore_effect true (VNum 42) false
         {[ "selectedRows_42" := dq "[['a',{'amount':1.0}],['b',2.5e1]]" ]})
  = Some [(VStr "a", VObj [("amount", VNum 1)]); (VStr "b", VNum 25)]
  /\ fst (restore_effect true (VNum 42) false
            {[ "selectedRows_42" := dq "['ab']" ]})
     = None.
Proof. split; vm_compute; reflexivity. Qed.

(** C6 (as stated) fails: a selected row that holds a [Date] is written as
    text and comes back from storage with a string in place of the date. *)
Lemma selection_roundtrip_date_counterexample :
  fst (mount true (VNum 42)
         (persist_effect true (VNum 42) (selection_state [("1", dated_row)])
            ∅))
  = selection_state
      [("1", [("id", VNum 1); ("created", VStr "2024-01-01T00:00:00.000Z")])]
  /\ fst (mount true (VNum 42)
            (persist_effect true (VNum 42)
               (selection_state [("1", dated_row)]) ∅))
     <> selection_state [("1", dated_row)].
Proof.
  assert (H : fst (mount true (VNum 42)
                     (persist_effect true (VNum 42)
                        (selection_state [("1", dated_row)]) ∅))
              = selection_state
                  [("1", [("id", VNum 1);
                          ("created", VStr "2024-01-01T00:00:00.000Z")])])
    by (vm_compute; reflexivity).
  split; [exact H |]. rewrite H. discriminate.
Qed.

(** A row that holds [undefined] comes back without that property, and a
    row that holds a BigInt is not written at all. *)
Example selection_roundtrip_undefined :
  fst (mount true (VNum 42)
         (persist_effect true (VNum 42)
            (selection_state [("1", [("id", VNum 1); ("note", VUndefined)])])
            ∅))
  = selection_state [("1", [("id", VNum 1)])].
Proof. vm_compute. reflexivity. Qed.

Example selection_roundtrip_bigint :
  persist_effect true (VNum 42)
    (selection_state [("1", [("id", VBigInt 9007199254740993)])]) ∅ = ∅.
Proof. vm_compute. reflexivity. Qed.

(** * Properties of the further parts *)

Local Open Scope string_scope.
Local Open Scope list_scope.

(** ** De-duplication over several messages *)

(** The fingerprint reads the clock only when the four fields cannot be
    serialized. *)
Lemma makeEventKey_clock (msg : JsVal) (clock clock' : Z) :
  JSON_stringify (keyPayload msg) <> TypeError ->
  makeEventKey msg clock = makeEventKey msg clock'.
Proof.
  unfold makeEventKey. destruct (JSON_stringify (keyPayload msg)); congruence.
Qed.

(** X1. A message that was delivered at time [now] and is sent again at time
    [now'] is suppressed when less than the window has passed, leaving the
    record as it was, and is delivered when the window has passed. *)
Theorem shouldSendMessage_repeat (ttl : Z) (recent : gmap string Z)
    (msg : JsVal) (clock now clock' now' : Z) :
  (0 < ttl)%Z ->
  JSON_stringify (keyPayload msg) <> TypeError ->
  (ttl <= now - default 0 (recent !! makeEventKey msg clock))%Z ->
  let '(first, recent1) := shouldSendMessage true ttl recent msg clock now in
  first = true
  /\ ((now' - now < ttl)%Z ->
      shouldSendMessage true ttl recent1 msg clock' now' = (false, recent1))
  /\ ((ttl <= now' - now)%Z ->
      fst (shouldSendMessage true ttl recent1 msg clock' now') = true).
Proof.
  intros Httl Htext Hfar.
  pose proof (shouldSendMessage_delivered ttl recent msg clock now Httl Hfar)
    as Hfirst.
  destruct (shouldSendMessage true ttl recent msg clock now)
    as [first recent1].
  destruct Hfirst as [-> Hrec]. split; [reflexivity |].
  rewrite (makeEventKey_clock msg clock clock' Htext) in Hrec.
  split; intros Hgap.
  - now apply (shouldSendMessage_suppressed ttl recent1 msg clock' now' now).
  - pose proof (shouldSendMessage_delivered ttl recent1 msg clock' now' Httl)
      as Hsecond.
    rewrite Hrec in Hsecond. cbn [from_option id] in Hsecond.
    specialize (Hsecond Hgap).
    destruct (shouldSendMessage true ttl recent1 msg clock' now').
    now destruct Hsecond.
Qed.

Lemma shouldSendMessage_repeat_witness :
  let '(first, recent1) :=
    shouldSendMessage true 1000 ∅ approve_message 0 1762041600000 in
  first = true
  /\ ((1762041600500 - 1762041600000 < 1000)%Z ->
      shouldSendMessage true 1000 recent1 approve_message 0 1762041600500
      = (false, recent1))
  /\ ((1000 <= 1762041600500 - 1762041600000)%Z ->
      fst (shouldSendMessage true 1000 recent1 approve_message 0
             1762041600500) = true).
Proof.
  apply (shouldSendMessage_repeat 1000 ∅ approve_message 0 1762041600000 0
           1762041600500).
  - lia.
  - vm_compute. discriminate.
  - vm_compute. discriminate.
Defined.

(** X2. Whatever the call, the only record it writes is the current time
    under the fingerprint of the message; every other record is left as it
    was or dropped, and a record that is no older than the window, or any
    record while fewer than 200 are held, is never dropped. *)
Theorem shouldSendMessage_records (dedupeEnabled : bool) (ttl : Z)
    (recent : gmap string Z) (msg : JsVal) (clock now : Z) :
  let '(answer, recent') :=
    shouldSendMessage dedupeEnabled ttl recent msg clock now in
  (forall k ts,
      recent' !! k = Some ts ->
      (k = makeEventKey msg clock /\ ts = now /\ answer = true)
      \/ recent !! k = Some ts)
  /\ (forall k ts,
         recent !! k = Some ts ->
         k <> makeEventKey msg clock ->
         (now - ttl <= ts)%Z \/ size recent < 200 ->
         recent' !! k = Some ts).
Proof.
  unfold shouldSendMessage.
  destruct (negb dedupeEnabled || (DEDUPE_TTL_MS dedupeEnabled ttl <=? 0)%Z)
    eqn:Hoff; [split; auto |].
  destruct dedupeEnabled; [| discriminate]. cbn [DEDUPE_TTL_MS] in *.
  set (key := makeEventKey msg clock).
  destruct (now - last_sent recent key <? ttl)%Z; [split; auto |].
  destruct (Nat.ltb 200 (size (<[key:=now]> recent))) eqn:Hbig.
  - split.
    + intros k ts Hk. apply map_lookup_filter_Some in Hk as [Hk _].
      destruct (decide (k = key)) as [-> | Hne].
      * rewrite lookup_insert_eq in Hk. left. split; [reflexivity |].
        split; [congruence | reflexivity].
      * rewrite lookup_insert_ne in Hk by congruence. now right.
    + intros k ts Hk Hne Hkeep. apply map_lookup_filter_Some. split.
      * rewrite lookup_insert_ne by congruence. exact Hk.
      * cbn [snd]. destruct Hkeep as [Hfresh | Hsmall]; [lia |].
        apply Nat.ltb_lt in Hbig.
        pose proof (map_size_insert key now recent) as Hsize.
        destruct (recent !! key); cbn [id] in Hsize; lia.
  - split.
    + intros k ts Hk.
      destruct (decide (k = key)) as [-> | Hne].
      * rewrite lookup_insert_eq in Hk. left. split; [reflexivity |].
        split; [congruence | reflexivity].
      * rewrite lookup_insert_ne in Hk by congruence. now right.
    + intros k ts Hk Hne _. rewrite lookup_insert_ne by congruence. exact Hk.
Qed.

Lemma shouldSendMessage_records_witness :
  snd (shouldSendMessage true 1000 {[ "other" := 1762041599900%Z ]}
         approve_message 0 1762041600000) !! "other"
  = Some 1762041599900%Z.
Proof.
  pose proof (shouldSendMessage_records true 1000
                {[ "other" := 1762041599900%Z ]} approve_message 0
                1762041600000) as Hrecords.
  destruct (shouldSendMessage true 1000 {[ "other" := 1762041599900%Z ]}
              approve_message 0 1762041600000) as [answer recent'].
  destruct Hrecords as [_ Hkept]. cbn [snd]. apply Hkept.
  - apply lookup_singleton_eq.
  - vm_compute. discriminate.
  - left. lia.
Defined.

(** *** A window that is not a whole number *)

Lemma of_uint_acc_digits (d : Decimal.uint) (acc : positive) :
  Zpos (Pos.of_uint_acc d acc)
  = digits_from (Zpos acc) (NilEmpty.string_of_uint d).
Proof.
  revert acc.
  induction d; intros acc;
    cbn [Pos.of_uint_acc NilEmpty.string_of_uint digits_from];
    [reflexivity | ..]; rewrite IHd; f_equal;
    match goal with
    | |- context [Z.of_nat ?n] =>
        let v := eval vm_compute in (Z.of_nat n) in
        change (Z.of_nat n) with v
    end; lia.
Qed.

Lemma of_uint_digits (d : Decimal.uint) :
  Z.of_uint d = digits_from 0 (NilEmpty.string_of_uint d).
Proof.
  unfold Z.of_uint.
  induction d;
    cbn [Pos.of_uint NilEmpty.string_of_uint digits_from Z.of_N];
    [reflexivity | exact IHd | ..];
    rewrite of_uint_acc_digits; reflexivity.
Qed.

Lemma digits_value_from (s : string) :
  all_digits s = true -> digits_value s = digits_from 0 s.
Proof.
  intros Hall. unfold digits_value. rewrite of_uint_digits.
  now rewrite (proj2 (read_digits_run s EmptyString Hall eq_refl)).
Qed.

Lemma digits_from_app (acc : Z) (a b : string) :
  digits_from acc (a ++ b)%string = digits_from (digits_from acc a) b.
Proof.
  revert acc. induction a as [| c a IH]; intros acc; [reflexivity |].
  norm_append. cbn [digits_from]. apply IH.
Qed.

Lemma digits_from_shift (acc : Z) (b : string) :
  digits_from acc b
  = (acc * 10 ^ Z.of_nat (String.length b) + digits_from 0 b)%Z.
Proof.
  revert acc. induction b as [| c b IH]; intros acc.
  - cbn [digits_from String.length Z.of_nat]. rewrite Z.pow_0_r. lia.
  - cbn [digits_from String.length].
    rewrite (IH (10 * acc + _)%Z), (IH (10 * 0 + _)%Z).
    rewrite Nat2Z.inj_succ, Z.pow_succ_r by lia. lia.
Qed.

Lemma digits_from_bounds (b : string) :
  all_digits b = true ->
  (0 <= digits_from 0 b < 10 ^ Z.of_nat (String.length b))%Z.
Proof.
  induction b as [| c b IH]; intros Hall.
  - cbn. lia.
  - cbn [all_digits] in Hall. apply andb_prop in Hall as [Hc Hall].
    apply andb_prop in Hc as [Hlo Hhi].
    apply Nat.leb_le in Hlo. apply Nat.leb_le in Hhi.
    specialize (IH Hall). cbn [digits_from String.length].
    rewrite digits_from_shift, Nat2Z.inj_succ, Z.pow_succ_r by lia.
    nia.
Qed.

Lemma strip_trailing_zeros_tail (c : ascii) (r : string) :
  strip_trailing_zeros (String c r) = String c r ->
  r <> EmptyString ->
  strip_trailing_zeros r = r.
Proof.
  cbn [strip_trailing_zeros]. intros Hstrip Hr.
  destruct (strip_trailing_zeros r) as [| c' r'].
  - destruct (Ascii.eqb c "0"); [discriminate |].
    injection Hstrip as <-. contradiction.
  - now injection Hstrip.
Qed.

Lemma strip_trailing_zeros_after (n : nat) (s : string) :
  strip_trailing_zeros s = s ->
  after_chars n s <> EmptyString ->
  strip_trailing_zeros (after_chars n s) = after_chars n s.
Proof.
  revert s. induction n as [| n IH]; intros [| c r] Hstrip Hsome;
    try assumption.
  cbn [after_chars] in *. apply IH; [| exact Hsome].
  apply (strip_trailing_zeros_tail c r Hstrip).
  intros ->. destruct n; contradiction.
Qed.

Lemma digits_from_positive (b : string) :
  all_digits b = true ->
  strip_trailing_zeros b = b ->
  b <> EmptyString ->
  (0 < digits_from 0 b)%Z.
Proof.
  induction b as [| c b IH]; intros Hall Hstrip Hsome; [contradiction |].
  cbn [digits_from]. rewrite digits_from_shift.
  assert (Hrest : all_digits b = true).
  { cbn [all_digits] in Hall. now apply andb_prop in Hall as [_ Hall]. }
  pose proof (digits_from_bounds b Hrest) as Hbounds.
  destruct b as [| c' b'].
  - cbn [strip_trailing_zeros] in Hstrip.
    destruct (Ascii.eqb_spec c "0") as [-> | Hc]; [discriminate |].
    cbn [all_digits] in Hall. apply andb_prop in Hall as [Hdigit _].
    apply digit_cases in Hdigit. cbn [In] in Hdigit.
    destruct Hdigit as [<- | Hdigit]; [contradiction |].
    repeat (destruct Hdigit as [<- | Hdigit]; [vm_compute; reflexivity |]).
    contradiction.
  - pose proof (strip_trailing_zeros_tail c _ Hstrip ltac:(discriminate))
      as Htail.
    specialize (IH Hrest Htail ltac:(discriminate)).
    assert (0 <= (10 * 0 + Z.of_nat (nat_of_ascii c - 48))
                 * 10 ^ Z.of_nat (String.length (String c' b')))%Z
      by (apply Z.mul_nonneg_nonneg; [lia | apply Z.pow_nonneg; lia]).
    lia.
Qed.

(** The window that [getRemitaDedupeTtlMs] answers for a setting that is not
    a whole number compares with every whole number as the setting does:
    the setting is [value / 10 ^ places]. *)
Lemma whole_above_spec (negative : bool) (digits : string) (point x : Z) :
  decimal_form digits point = true ->
  let places := (Z.of_nat (String.length digits) - point)%Z in
  let value :=
    if negative then (- digits_value digits)%Z else digits_value digits in
  (x * 10 ^ places < value)%Z <-> (x < whole_above negative digits point)%Z.
Proof.
  intros Hform places value.
  destruct (decimal_form_parts digits point Hform)
    as [Hall [[c [r Hhead]] [Hlast Hpoint]]].
  assert (Hk : 1 <= String.length digits)
    by (destruct Hhead as [-> _]; cbn; lia).
  pose proof (first_after_chars (Z.to_nat point) digits) as Hsplit.
  assert (Hparts : all_digits (first_chars (Z.to_nat point) digits) = true
                   /\ all_digits (after_chars (Z.to_nat point) digits) = true).
  { rewrite <- Hsplit, all_digits_append in Hall.
    now apply andb_prop in Hall. }
  destruct Hparts as [Hwhole Hfraction].
  pose proof (length_first_chars (Z.to_nat point) digits ltac:(lia)) as Hlen.
  assert (Hlengths : String.length digits
                     = Z.to_nat point
                       + String.length (after_chars (Z.to_nat point) digits)).
  { rewrite <- Hsplit at 1. now rewrite length_append, Hlen. }
  assert (Hsome : after_chars (Z.to_nat point) digits <> EmptyString).
  { intros Hnone. rewrite Hnone in Hlengths. cbn in Hlengths. lia. }
  pose proof (digits_from_bounds _ Hfraction) as Hbounds.
  pose proof (digits_from_positive _ Hfraction
                (strip_trailing_zeros_after _ _ Hlast Hsome) Hsome) as Hpos.
  assert (Hvalue : digits_value digits
                   = (digits_value (first_chars (Z.to_nat point) digits)
                      * 10 ^ Z.of_nat
                               (String.length
                                  (after_chars (Z.to_nat point) digits))
                      + digits_from 0 (after_chars (Z.to_nat point) digits))%Z).
  { rewrite (digits_value_from digits Hall), (digits_value_from _ Hwhole).
    rewrite <- Hsplit at 1. rewrite digits_from_app.
    apply digits_from_shift. }
  assert (Hplaces : (Z.of_nat
                       (String.length (after_chars (Z.to_nat point) digits))
                     <= places)%Z) by (unfold places; lia).
  assert (Hpow : (10 ^ Z.of_nat
                         (String.length
                            (after_chars (Z.to_nat point) digits))
                  <= 10 ^ places)%Z)
    by (apply Z.pow_le_mono_r; lia).
  assert (Hwhole_value :
            (0 <= digits_value (first_chars (Z.to_nat point) digits))%Z).
  { rewrite (digits_value_from _ Hwhole).
    apply (digits_from_bounds _ Hwhole). }
  assert (Hcase : (0 <= point
                   /\ places
                      = Z.of_nat
                          (String.length
                             (after_chars (Z.to_nat point) digits)))%Z
                  \/ (point < 0)%Z) by (unfold places; lia).
  unfold whole_above, value. rewrite Hvalue.
  set (W := digits_value (first_chars (Z.to_nat point) digits)) in *.
  set (F := digits_from 0 (after_chars (Z.to_nat point) digits)) in *.
  destruct Hcase as [[_ Heq] | Hneg].
  - rewrite <- Heq in *. set (P := (10 ^ places)%Z) in *.
    destruct negative; split; intros H; nia.
  - assert (HW : W = 0%Z).
    { unfold W. now replace (Z.to_nat point) with 0 by lia. }
    rewrite HW in *.
    set (Q := (10 ^ Z.of_nat
                      (String.length (after_chars (Z.to_nat point) digits)))%Z)
      in *.
    set (P := (10 ^ places)%Z) in *.
    destruct negative; split; intros H; nia.
Qed.

(** X3. Messages can be suppressed exactly when de-duplication is enabled
    and the window is positive.  A boolean [REMITA_EVENT_DEDUPE_ENABLED] in
    [window.featureFlags] decides whether it is enabled, whatever the
    [FeatureFlag] entry says, and a window setting that is not a number is
    ignored: the window is then 1000 ms. *)
Theorem dedupe_settings (featureFlags : JsVal) (flagEntry : option JsVal) :
  let enabled := getRemitaDedupeEnabled featureFlags flagEntry in
  let ttl := getRemitaDedupeTtlMs featureFlags in
  ((exists recent msg clock now,
       fst (shouldSendMessage enabled ttl recent msg clock now) = false)
   <-> enabled = true /\ (0 < ttl)%Z)
  /\ (forall flag,
         get_prop featureFlags "REMITA_EVENT_DEDUPE_ENABLED" = VBool flag ->
         enabled = flag)
  /\ ((forall v,
          get_prop featureFlags "REMITA_EVENT_DEDUPE_TTL_MS" <> VNum v) ->
      (forall negative digits point,
          get_prop featureFlags "REMITA_EVENT_DEDUPE_TTL_MS"
          <> VDec negative digits point) ->
      ttl = 1000%Z).
Proof.
  cbv zeta. split; [| split].
  - split.
    + intros [recent [msg [clock [now Hno]]]].
      destruct (getRemitaDedupeEnabled featureFlags flagEntry) eqn:Hon.
      * split; [reflexivity |].
        destruct (Z.ltb_spec 0 (getRemitaDedupeTtlMs featureFlags)) as [| Hle];
          [assumption |].
        rewrite (shouldSendMessage_disabled true _ recent msg clock now
                   (or_intror Hle)) in Hno.
        discriminate.
      * rewrite (shouldSendMessage_disabled false _ recent msg clock now
                   (or_introl eq_refl)) in Hno.
        discriminate.
    + intros [-> Hpos]. exists ∅, VNull, 0%Z, 0%Z.
      unfold shouldSendMessage. cbn [negb orb DEDUPE_TTL_MS].
      rewrite (proj2 (Z.leb_gt _ 0) Hpos).
      rewrite last_sent_lookup, lookup_empty. cbn [from_option id].
      now rewrite (proj2 (Z.ltb_lt (0 - 0) _) Hpos).
  - intros flag Hflag. unfold getRemitaDedupeEnabled. now rewrite Hflag.
  - intros Hwhole Hdecimal. unfold getRemitaDedupeTtlMs.
    destruct (get_prop featureFlags "REMITA_EVENT_DEDUPE_TTL_MS");
      try reflexivity.
    + now destruct (Hwhole z).
    + now destruct (Hdecimal negative digits point).
Qed.

Lemma dedupe_settings_witness :
  let featureFlags :=
    VObj [("REMITA_EVENT_DEDUPE_ENABLED", VBool false);
          ("REMITA_EVENT_DEDUPE_TTL_MS", VStr "5000")] in
  getRemitaDedupeEnabled featureFlags (Some (VBool true)) = false
  /\ getRemitaDedupeTtlMs featureFlags = 1000%Z.
Proof.
  cbv zeta.
  pose proof (dedupe_settings
                (VObj [("REMITA_EVENT_DEDUPE_ENABLED", VBool false);
                       ("REMITA_EVENT_DEDUPE_TTL_MS", VStr "5000")])
                (Some (VBool true))) as [_ [Hflag Hwindow]].
  split.
  - exact (Hflag false eq_refl).
  - apply Hwindow; intros; discriminate.
Defined.

(** ** Outbound messages *)

Lemma lookup_prop_set_prop (k k' : string) (v : JsVal)
    (props : list (string * JsVal)) :
  lookup_prop k (set_prop k' v props)
  = if String.eqb k' k then v else lookup_prop k props.
Proof.
  induction props as [| [a x] rest IH]; cbn [set_prop lookup_prop].
  - reflexivity.
  - destruct (String.eqb_spec a k') as [-> | Hne]; cbn [lookup_prop].
    + now destruct (String.eqb k' k).
    + rewrite IH. destruct (String.eqb_spec a k) as [-> | Hak]; [| reflexivity].
      destruct (String.eqb_spec k' k); congruence.
Qed.

Lemma has_prop_set_prop (k k' : string) (v : JsVal)
    (props : list (string * JsVal)) :
  has_prop k (set_prop k' v props) = String.eqb k' k || has_prop k props.
Proof.
  unfold has_prop.
  induction props as [| [a x] rest IH]; cbn [set_prop existsb fst].
  - now rewrite orb_false_r.
  - destruct (String.eqb_spec a k') as [-> | Hne]; cbn [existsb fst].
    + now destruct (String.eqb k' k).
    + rewrite IH. destruct (String.eqb a k), (String.eqb k' k); reflexivity.
Qed.

Lemma has_prop_lookup_prop (k : string) (props : list (string * JsVal)) :
  has_prop k props = false -> lookup_prop k props = VUndefined.
Proof.
  unfold has_prop.
  induction props as [| [a x] rest IH]; cbn [existsb lookup_prop fst];
    [reflexivity |].
  destruct (String.eqb a k); [discriminate | exact IH].
Qed.

(** The entries of a selection, read back by their second components. *)
Lemma second_components_entries (selectedRows : Selection) :
  second_components
    (List.map (fun kv => VArr [VStr (fst kv); VObj (snd kv)]) selectedRows)
  = Some (List.map (fun kv => VObj (snd kv)) selectedRows).
Proof.
  induction selectedRows as [| kv rest IH]; [reflexivity |].
  cbn [List.map second_components get_index nth]. now rewrite IH.
Qed.

(** X4. A click on a bulk action whose key is a text sends one message of
    origin [bulk] whose values are exactly the selected rows, in the order in
    which they were selected, whatever the selection; the ids under which
    the rows are held are not part of it. *)
Theorem bulk_click_message (chartId action : JsVal) (key : string)
    (selectedRows : Selection) :
  bulk_action_key action = VStr key ->
  handleBulkAction (Some (handleTableAction chartId)) (Some selectedRows)
    (bulk_action_key action)
  = Some (Some (VObj [("action", VStr "bulk-action");
                      ("chartId", chartId);
                      ("actionType", VStr key);
                      ("values",
                       VArr (List.map (fun kv => VObj (snd kv)) selectedRows));
                      ("origin", VStr "bulk")])).
Proof.
  intros ->. cbn [handleBulkAction handleTableAction entries_value].
  destruct selectedRows as [| kv rest]; [reflexivity |].
  pose proof (second_components_entries (kv :: rest)) as Hrows.
  cbn [List.map] in Hrows |- *. now rewrite Hrows.
Qed.

Lemma bulk_click_message_witness :
  bulk_action_key (VObj [("key", VStr "approve"); ("label", VStr "Approve")])
  = VStr "approve"
  /\ handleBulkAction (Some (handleTableAction (VNum 7)))
       (Some [("b", row_b); ("a", row_a)])
       (bulk_action_key
          (VObj [("key", VStr "approve"); ("label", VStr "Approve")]))
     = Some (Some (VObj [("action", VStr "bulk-action");
                         ("chartId", VNum 7);
                         ("actionType", VStr "approve");
                         ("values", VArr [VObj row_b; VObj row_a]);
                         ("origin", VStr "bulk")])).
Proof.
  split; [reflexivity |].
  exact (bulk_click_message (VNum 7)
           (VObj [("key", VStr "approve"); ("label", VStr "Approve")])
           "approve" [("b", row_b); ("a", row_a)] eq_refl).
Defined.

(** *** Array indices *)

Lemma includes_In (x : string) (l : list string) :
  includes x l = true <-> In x l.
Proof.
  unfold includes. rewrite existsb_exists. split.
  - intros [y [Hin Heq]]. apply String.eqb_eq in Heq. now subst y.
  - intros Hin. exists x. split; [exact Hin | apply String.eqb_refl].
Qed.

Lemma array_index_spec (k : string) (z : Z) :
  array_index k = Some z <-> index_name k z.
Proof.
  unfold array_index, index_name. split.
  - destruct (all_digits k && negb (String.eqb k EmptyString));
      [| discriminate].
    cbv zeta.
    destruct (String.eqb_spec
                (Z_to_string (Z.of_uint (fst (read_digits k)))) k)
      as [Heq | Hne]; [| discriminate].
    destruct (Z.ltb_spec (Z.of_uint (fst (read_digits k))) 4294967295)
      as [Hlt | Hge]; [| discriminate].
    cbn [andb]. intros [= <-]. split; [| now symmetry].
    split; [| exact Hlt]. unfold Z.of_uint. apply N2Z.is_nonneg.
  - intros [[Hlo Hhi] ->].
    destruct (Z_to_string_uint z Hlo) as [d [Htext [Hnil [Hvalue _]]]].
    rewrite Htext, all_digits_uint, read_digits_text. cbn [fst].
    assert (Hsome : String.eqb (NilEmpty.string_of_uint d) EmptyString
                    = false).
    { destruct d; [contradiction | ..]; reflexivity. }
    rewrite Hsome, Hvalue, Htext, String.eqb_refl. cbn [negb andb].
    now rewrite (proj2 (Z.ltb_lt z 4294967295) Hhi).
Qed.

Lemma is_index_spec (k : string) :
  is_index k = true <-> exists z, index_name k z.
Proof.
  unfold is_index. split.
  - destruct (array_index k) as [z |] eqn:Hk; [| discriminate].
    intros _. exists z. now apply array_index_spec.
  - intros [z Hz]. apply array_index_spec in Hz. now rewrite Hz.
Qed.

(** *** Creating properties *)

Lemma has_prop_cons (k a : string) (x : JsVal)
    (rest : list (string * JsVal)) :
  has_prop k ((a, x) :: rest) = String.eqb a k || has_prop k rest.
Proof. reflexivity. Qed.

Lemma has_prop_names (key : string) (props : list (string * JsVal)) :
  has_prop key props = includes key (List.map fst props).
Proof.
  unfold has_prop, includes.
  induction props as [| [a x] rest IH]; [reflexivity |].
  cbn [List.map existsb fst]. now rewrite IH, (String.eqb_sym a key).
Qed.

Lemma has_prop_insert_index (i : Z) (key k : string) (v : JsVal)
    (props : list (string * JsVal)) :
  has_prop k (insert_index i key v props)
  = String.eqb key k || has_prop k props.
Proof.
  induction props as [| [a x] rest IH]; cbn [insert_index];
    [reflexivity |].
  destruct (array_index a) as [j |]; [| reflexivity].
  destruct (i <? j)%Z; [reflexivity |].
  rewrite !has_prop_cons, IH.
  now destruct (String.eqb a k), (String.eqb key k).
Qed.

Lemma has_prop_last (key k : string) (v : JsVal)
    (props : list (string * JsVal)) :
  has_prop k (props ++ [(key, v)]) = String.eqb key k || has_prop k props.
Proof.
  induction props as [| [a x] rest IH]; [reflexivity |].
  cbn [List.app]. rewrite !has_prop_cons, IH.
  now destruct (String.eqb a k), (String.eqb key k).
Qed.

Lemma has_prop_define_prop (key k : string) (v : JsVal)
    (props : list (string * JsVal)) :
  has_prop k (define_prop key v props)
  = String.eqb key k || has_prop k props.
Proof.
  unfold define_prop. destruct (has_prop key props);
    [apply has_prop_set_prop |].
  destruct (array_index key);
    [apply has_prop_insert_index | apply has_prop_last].
Qed.

Lemma has_prop_cons_false (key a : string) (x : JsVal)
    (rest : list (string * JsVal)) :
  has_prop key ((a, x) :: rest) = false ->
  String.eqb a key = false /\ has_prop key rest = false.
Proof. rewrite has_prop_cons. now apply orb_false_elim. Qed.

Lemma lookup_swap (a key k : string) (x v rest : JsVal) :
  String.eqb a key = false ->
  (if String.eqb a k then x else if String.eqb key k then v else rest)
  = (if String.eqb key k then v else if String.eqb a k then x else rest).
Proof.
  intros Hne. destruct (String.eqb_spec a k) as [-> | Hak];
    [| reflexivity].
  destruct (String.eqb_spec key k) as [-> | Hkk]; [| reflexivity].
  now rewrite String.eqb_refl in Hne.
Qed.

Lemma lookup_prop_insert_index (i : Z) (key k : string) (v : JsVal)
    (props : list (string * JsVal)) :
  has_prop key props = false ->
  lookup_prop k (insert_index i key v props)
  = if String.eqb key k then v else lookup_prop k props.
Proof.
  induction props as [| [a x] rest IH]; intros Hfresh;
    cbn [insert_index]; [reflexivity |].
  apply has_prop_cons_false in Hfresh as [Hne Hfresh].
  destruct (array_index a) as [j |]; [| reflexivity].
  destruct (i <? j)%Z; [reflexivity |].
  cbn [lookup_prop]. rewrite (IH Hfresh). now apply lookup_swap.
Qed.

Lemma lookup_prop_last (key k : string) (v : JsVal)
    (props : list (string * JsVal)) :
  has_prop key props = false ->
  lookup_prop k (props ++ [(key, v)])
  = if String.eqb key k then v else lookup_prop k props.
Proof.
  induction props as [| [a x] rest IH]; intros Hfresh; [reflexivity |].
  apply has_prop_cons_false in Hfresh as [Hne Hfresh].
  cbn [List.app lookup_prop]. rewrite (IH Hfresh). now apply lookup_swap.
Qed.

Lemma lookup_prop_define_prop (key k : string) (v : JsVal)
    (props : list (string * JsVal)) :
  lookup_prop k (define_prop key v props)
  = if String.eqb key k then v else lookup_prop k props.
Proof.
  unfold define_prop. destruct (has_prop key props) eqn:Hfresh;
    [apply lookup_prop_set_prop |].
  destruct (array_index key);
    [now apply lookup_prop_insert_index | now apply lookup_prop_last].
Qed.

Lemma names_set_prop (key : string) (v : JsVal)
    (props : list (string * JsVal)) :
  has_prop key props = true ->
  List.map fst (set_prop key v props) = List.map fst props.
Proof.
  induction props as [| [a x] rest IH]; [discriminate |].
  rewrite has_prop_cons. cbn [set_prop].
  destruct (String.eqb a key); [reflexivity |].
  cbn [orb List.map fst]. intros Hrest. now rewrite IH.
Qed.

Lemma names_insert_index (i : Z) (key : string) (v : JsVal)
    (props : list (string * JsVal)) :
  List.map fst (insert_index i key v props)
  = insert_name i key (List.map fst props).
Proof.
  induction props as [| [a x] rest IH]; [reflexivity |].
  cbn [insert_index insert_name List.map fst].
  destruct (array_index a) as [j |]; [| reflexivity].
  destruct (i <? j)%Z; [reflexivity |]. cbn [List.map fst]. now rewrite IH.
Qed.

Lemma names_define_prop (key : string) (v : JsVal)
    (props : list (string * JsVal)) :
  List.map fst (define_prop key v props)
  = define_name (List.map fst props) key.
Proof.
  unfold define_prop, define_name. rewrite <- has_prop_names.
  destruct (has_prop key props) eqn:Hhas; [now apply names_set_prop |].
  destruct (array_index key); [apply names_insert_index |].
  now rewrite List.map_app.
Qed.

(** *** The row sent along *)

(** What [payloadRow] holds while it walks the listed columns. *)
Lemma trimmed_props (row : Row) (columns : list JsVal) (trimmed : Row)
    (k : string) :
  let copied :=
    includes k (List.map ToString columns)
    && (in_object k row && negb (String.eqb k "__proto__")) in
  has_prop k (fold_left (copy_column row) columns trimmed)
  = copied || has_prop k trimmed
  /\ lookup_prop k (fold_left (copy_column row) columns trimmed)
     = if copied then read_prop k row else lookup_prop k trimmed.
Proof.
  cbv zeta. unfold includes. revert trimmed.
  induction columns as [| c rest IH]; intros trimmed;
    cbn [fold_left List.map existsb]; [auto |].
  destruct (IH (copy_column row trimmed c)) as [Hhas Hlook].
  rewrite Hhas, Hlook. clear IH Hhas Hlook. unfold copy_column.
  destruct (String.eqb_spec k (ToString c)) as [-> | Hne].
  - cbn [orb]. destruct (in_object (ToString c) row); cbn [andb];
      [| now rewrite !andb_false_r].
    destruct (String.eqb (ToString c) "__proto__"); cbn [negb];
      [now rewrite !andb_false_r |].
    rewrite has_prop_define_prop, lookup_prop_define_prop, String.eqb_refl.
    rewrite !andb_true_r, orb_true_r. cbn [orb].
    now destruct (existsb (String.eqb (ToString c)) (List.map ToString rest)).
  - cbn [orb].
    destruct (in_object (ToString c) row); [| auto].
    destruct (String.eqb (ToString c) "__proto__"); [auto |].
    rewrite has_prop_define_prop, lookup_prop_define_prop.
    destruct (String.eqb_spec (ToString c) k); [congruence |]. auto.
Qed.

Lemma trimmed_names (row : Row) (columns : list JsVal) (trimmed : Row) :
  List.map fst (fold_left (copy_column row) columns trimmed)
  = fold_left define_name
      (List.filter
         (fun k => in_object k row && negb (String.eqb k "__proto__"))
         (List.map ToString columns))
      (List.map fst trimmed).
Proof.
  revert trimmed. induction columns as [| c rest IH]; intros trimmed;
    [reflexivity |].
  cbn [fold_left List.map List.filter]. rewrite IH. unfold copy_column.
  destruct (in_object (ToString c) row); [| reflexivity].
  destruct (String.eqb (ToString c) "__proto__"); [reflexivity |].
  cbn [andb negb fold_left]. now rewrite names_define_prop.
Qed.

(** *** The order in which properties are created *)

Lemma insert_name_In (i : Z) (key x : string) (names : list string) :
  In x (insert_name i key names) <-> x = key \/ In x names.
Proof.
  induction names as [| a rest IH]; cbn [insert_name In].
  - intuition congruence.
  - destruct (array_index a) as [j |]; [| cbn [In]; intuition congruence].
    destruct (i <? j)%Z; cbn [In]; [intuition congruence |].
    rewrite IH. intuition congruence.
Qed.

Lemma insert_name_app (i : Z) (key : string) (indices others : list string) :
  Forall (fun k => is_index k = true) indices ->
  Forall (fun k => is_index k = false) others ->
  insert_name i key (indices ++ others)
  = (insert_name i key indices ++ others)%list.
Proof.
  intros Hindices Hothers.
  induction indices as [| a rest IH]; cbn [List.app insert_name].
  - destruct others as [| o more]; [reflexivity |].
    inversion Hothers as [| ? ? Ho _]; subst. unfold is_index in Ho.
    cbn [insert_name]. now destruct (array_index o).
  - inversion Hindices as [| ? ? Ha Hrest]; subst.
    destruct (array_index a) as [j |]; [| reflexivity].
    destruct (i <? j)%Z; [reflexivity |]. cbn [List.app].
    now rewrite IH.
Qed.

Lemma insert_name_indices (i : Z) (key : string) (indices : list string) :
  is_index key = true ->
  Forall (fun k => is_index k = true) indices ->
  Forall (fun k => is_index k = true) (insert_name i key indices).
Proof.
  intros Hkey Hindices. apply List.Forall_forall. intros x Hx.
  apply insert_name_In in Hx as [-> | Hx]; [exact Hkey |].
  now apply (proj1 (List.Forall_forall _ _) Hindices).
Qed.

Lemma insert_name_ascending (i : Z) (key : string) (indices : list string) :
  array_index key = Some i ->
  ~ In key indices ->
  Forall (fun k => is_index k = true) indices ->
  ascending indices ->
  ascending (insert_name i key indices).
Proof.
  intros Hkey. induction indices as [| a rest IH];
    intros Hfresh Hindices Hasc; cbn [insert_name].
  - split; [intros b [] | exact I].
  - inversion Hindices as [| ? ? Ha Hrest]; subst. unfold is_index in Ha.
    destruct (array_index a) as [j |] eqn:Hj; [| discriminate].
    destruct Hasc as [Hafter Hasc].
    destruct (Z.ltb_spec i j) as [Hlt | Hge].
    + split; [| split; assumption].
      intros b [<- | Hb].
      * exists i, j. split; [now apply array_index_spec |].
        split; [now apply array_index_spec | exact Hlt].
      * destruct (Hafter b Hb) as [x [y [Hx [Hy Hxy]]]].
        apply array_index_spec in Hx. rewrite Hj in Hx.
        injection Hx as <-.
        exists i, y. split; [now apply array_index_spec |].
        split; [exact Hy | lia].
    + assert (Hne : i <> j).
      { intros ->. apply Hfresh. left.
        apply array_index_spec in Hj as [_ ->].
        now apply array_index_spec in Hkey as [_ ->]. }
      split.
      * intros b Hb. apply insert_name_In in Hb as [-> | Hb].
        -- exists j, i. split; [now apply array_index_spec |].
           split; [now apply array_index_spec | lia].
        -- now apply Hafter.
      * apply IH; [| exact Hrest | exact Hasc].
        intros Hin. apply Hfresh. now right.
Qed.

Lemma first_occurrences_In (names : list string) (k : string) :
  In k (first_occurrences names) <-> In k names.
Proof.
  induction names as [| a rest IH]; [reflexivity |].
  cbn [first_occurrences In]. rewrite filter_In, IH.
  destruct (String.eqb_spec k a) as [-> | Hne]; cbn [negb].
  - intuition congruence.
  - intuition congruence.
Qed.

Lemma filter_filter {A : Type} (p q : A -> bool) (l : list A) :
  List.filter p (List.filter q l) = List.filter (fun x => q x && p x) l.
Proof.
  induction l as [| x rest IH]; [reflexivity |]. cbn [List.filter].
  destruct (q x); cbn [andb List.filter]; [| exact IH].
  destruct (p x); now rewrite IH.
Qed.

Lemma first_occurrences_filter (p : string -> bool) (names : list string) :
  first_occurrences (List.filter p names)
  = List.filter p (first_occurrences names).
Proof.
  induction names as [| a rest IH]; [reflexivity |].
  cbn [List.filter first_occurrences]. destruct (p a) eqn:Hp.
  - cbn [first_occurrences]. rewrite IH. f_equal.
    rewrite !filter_filter. apply List.filter_ext. intros x.
    apply andb_comm.
  - rewrite IH, filter_filter. apply List.filter_ext_in. intros x Hx.
    destruct (String.eqb_spec x a) as [-> | Hne]; cbn [negb andb];
      [| reflexivity].
    now rewrite Hp.
Qed.

Lemma includes_last (k key : string) (names : list string) :
  includes k (names ++ [key]) = includes k names || String.eqb k key.
Proof.
  unfold includes. rewrite existsb_app. cbn [existsb].
  now rewrite orb_false_r.
Qed.

(** The names after a run of creations: the array indices in ascending
    order, then the other names in the order in which they were first
    created. *)
Lemma fold_define_name (created : list string) :
  forall indices others : list string,
    Forall (fun k => is_index k = true) indices ->
    ascending indices ->
    Forall (fun k => is_index k = false) others ->
    exists indices',
      fold_left define_name created (indices ++ others)
      = (indices'
         ++ others
         ++ List.filter (fun k => negb (includes k others))
              (first_occurrences
                 (List.filter (fun k => negb (is_index k)) created)))%list
      /\ Forall (fun k => is_index k = true) indices'
      /\ ascending indices'
      /\ forall k,
           In k indices' <->
           In k indices \/ (In k created /\ is_index k = true).
Proof.
  induction created as [| key rest IH]; intros indices others Hidx Hasc Hoth.
  - exists indices. cbn [fold_left List.filter first_occurrences].
    rewrite List.app_nil_r. repeat split; try assumption; [tauto |].
    intros [H | [[] _]]. exact H.
  - cbn [fold_left]. unfold define_name at 2.
    destruct (includes key (indices ++ others)) eqn:Hhas.
    + destruct (IH indices others Hidx Hasc Hoth)
        as [indices' [Hfold [Hidx' [Hasc' Hin']]]].
      exists indices'. rewrite Hfold.
      apply includes_In, in_app_or in Hhas.
      split; [| split; [exact Hidx' | split; [exact Hasc' |]]].
      * f_equal. f_equal. cbn [List.filter].
        destruct (is_index key) eqn:Hkey; cbn [negb]; [reflexivity |].
        cbn [first_occurrences List.filter].
        assert (Hother : In key others).
        { destruct Hhas as [Hin | Hin]; [| exact Hin].
          apply (proj1 (List.Forall_forall _ _) Hidx) in Hin. congruence. }
        apply includes_In in Hother. rewrite Hother. cbn [negb].
        rewrite filter_filter. apply List.filter_ext_in. intros x _.
        destruct (String.eqb_spec x key) as [-> | Hne]; cbn [negb andb];
          [now rewrite Hother | reflexivity].
      * intros k. rewrite Hin'. cbn [In]. split.
        -- intros [H | [H Hk]]; [now left | right; split; [now right | exact Hk]].
        -- intros [H | [[<- | H] Hk]]; [now left | | right; now split].
           left. destruct Hhas as [Hin | Hin]; [exact Hin |].
           apply (proj1 (List.Forall_forall _ _) Hoth) in Hin. congruence.
    + assert (Hfresh : ~ In key (indices ++ others)).
      { intros Hin. apply includes_In in Hin. congruence. }
      destruct (array_index key) as [i |] eqn:Hkey.
      * assert (Hindex : is_index key = true)
          by (unfold is_index; now rewrite Hkey).
        rewrite (insert_name_app i key indices others Hidx Hoth).
        destruct (IH (insert_name i key indices) others
                    (insert_name_indices i key indices Hindex Hidx)
                    (insert_name_ascending i key indices Hkey
                       (fun Hin => Hfresh (in_or_app _ _ _ (or_introl Hin)))
                       Hidx Hasc)
                    Hoth)
          as [indices' [Hfold [Hidx' [Hasc' Hin']]]].
        exists indices'. rewrite Hfold.
        split; [| split; [exact Hidx' | split; [exact Hasc' |]]].
        -- cbn [List.filter]. now rewrite Hindex.
        -- intros k. rewrite Hin', insert_name_In. cbn [In]. split.
           ++ intros [[-> | H] | [H Hk]];
                [right; split; [now left | exact Hindex] | now left
                | right; split; [now right | exact Hk]].
           ++ intros [H | [[<- | H] Hk]];
                [left; now right | left; now left | right; now split].
      * assert (Hindex : is_index key = false)
          by (unfold is_index; now rewrite Hkey).
        assert (Hoth' : Forall (fun k => is_index k = false) (others ++ [key])).
        { apply List.Forall_app. split; [exact Hoth |].
          constructor; [exact Hindex | constructor]. }
        rewrite <- List.app_assoc.
        destruct (IH indices (others ++ [key]) Hidx Hasc Hoth')
          as [indices' [Hfold [Hidx' [Hasc' Hin']]]].
        exists indices'. rewrite Hfold.
        split; [| split; [exact Hidx' | split; [exact Hasc' |]]].
        -- f_equal. rewrite <- List.app_assoc. f_equal.
           cbn [List.filter]. rewrite Hindex.
           cbn [negb first_occurrences List.filter List.app].
           assert (Hnot : includes key others = false).
           { apply not_true_is_false. intros Hin. apply includes_In in Hin.
             apply Hfresh. apply in_or_app. now right. }
           rewrite Hnot. cbn [negb]. f_equal.
           rewrite filter_filter. apply List.filter_ext. intros x.
           rewrite includes_last, negb_orb. apply andb_comm.
        -- intros k. rewrite Hin'. cbn [In]. split.
           ++ intros [H | [H Hk]];
                [now left | right; split; [now right | exact Hk]].
           ++ intros [H | [[<- | H] Hk]];
                [now left | congruence | right; now split].
Qed.

Lemma in_object_named (k : string) (row : Row) :
  in_object k row = true <->
  named_value k row <> None \/ named_value k Object_prototype <> None.
Proof.
  unfold in_object. rewrite !named_value_own, orb_true_iff.
  destruct (has_prop k row), (has_prop k Object_prototype);
    intuition congruence.
Qed.

(** X5. A click on a row action sends one message of origin [row] that
    carries one row, for a table row that has no property of its own named
    [__proto__].  When the action lists value columns, the row sent has a
    property for exactly the listed names, [__proto__] apart, that the
    table row has or inherits, each with the value that the table row gives
    under that name, so that no other column of the row leaves the table.
    Its properties are in the order in which an object enumerates them: the
    names that are array indices first, in ascending order, and then the
    other names in the order in which the action first lists them.  When
    the list is absent or empty, the row sent is the table row itself. *)
Theorem row_click_message (tableChartId cellChartId config : JsVal)
    (row : Row) :
  has_prop "__proto__" row = false ->
  let payload := payloadRow config row in
  handleTableAction tableChartId (handleActionClick cellChartId config row)
    VUndefined
  = Some (VObj [("action", VStr "table-action");
                ("chartId", nullish_or cellChartId tableChartId);
                ("actionType", get_prop config "key");
                ("values", VArr [VObj payload]);
                ("origin", VStr "row")])
  /\ (forall columns,
         get_prop config "valueColumns" = VArr columns ->
         columns <> [] ->
         let names := List.map ToString columns in
         (forall k,
             (has_prop k payload = true <->
              In k names
              /\ k <> "__proto__"
              /\ (named_value k row <> None
                  \/ named_value k Object_prototype <> None))
             /\ (has_prop k payload = true ->
                 lookup_prop k payload = inherited_value k row))
         /\ exists indices others,
              List.map fst payload = (indices ++ others)%list
              /\ ascending indices
              /\ (forall k,
                     In k indices <->
                     has_prop k payload = true /\ exists z, index_name k z)
              /\ others
                 = List.filter (fun k => negb (includes k indices))
                     (first_occurrences
                        (List.filter (fun k => has_prop k payload) names)))
  /\ ((forall column columns,
          get_prop config "valueColumns" <> VArr (column :: columns)) ->
      payload = row).
Proof.
  intros _ payload. split; [reflexivity |]. split.
  - intros columns Hcols Hsome names.
    assert (Hpayload : payload = fold_left (copy_column row) columns []).
    { unfold payload, payloadRow. rewrite Hcols.
      destruct columns; [congruence | reflexivity]. }
    assert (Hhas : forall k,
               has_prop k payload
               = includes k names
                 && (in_object k row && negb (String.eqb k "__proto__"))).
    { intros k. rewrite Hpayload.
      rewrite (proj1 (trimmed_props row columns [] k)).
      apply orb_false_r. }
    split.
    + intros k. split.
      * rewrite Hhas, !andb_true_iff, includes_In, in_object_named,
          negb_true_iff, String.eqb_neq. tauto.
      * intros Hk. rewrite Hpayload.
        rewrite (proj2 (trimmed_props row columns [] k)).
        rewrite Hpayload in Hk.
        rewrite (proj1 (trimmed_props row columns [] k)), orb_false_r in Hk.
        rewrite Hk. apply read_prop_named.
    + destruct (fold_define_name
                  (List.filter
                     (fun k =>
                        in_object k row && negb (String.eqb k "__proto__"))
                     names)
                  [] [] (@List.Forall_nil _ _) I (@List.Forall_nil _ _))
        as [indices [Hfold [_ [Hasc Hin]]]].
      cbn [List.app] in Hfold.
      exists indices.
      eexists. split; [| split; [exact Hasc | split]].
      * rewrite Hpayload, trimmed_names. exact Hfold.
      * intros k. rewrite Hin, Hhas, filter_In, is_index_spec.
        rewrite !andb_true_iff, includes_In. cbn [In]. tauto.
      * replace (List.filter (fun k => has_prop k payload) names)
          with (List.filter
                  (fun k =>
                     in_object k row && negb (String.eqb k "__proto__"))
                  names).
        2: { apply List.filter_ext_in. intros k Hk. rewrite Hhas.
             apply includes_In in Hk. now rewrite Hk. }
        rewrite first_occurrences_filter.
        rewrite (List.filter_ext (fun k => negb (includes k [])) (fun _ => true))
          by reflexivity.
        rewrite filter_filter. apply List.filter_ext_in. intros k Hk.
        rewrite andb_true_r. f_equal.
        apply (proj1 (first_occurrences_In _ _)) in Hk.
        destruct (is_index k) eqn:Hindex.
        -- symmetry. apply includes_In, Hin. right.
           split; [exact Hk | exact Hindex].
        -- symmetry. apply not_true_is_false. intros Hinc.
           apply includes_In, Hin in Hinc as [[] | [_ Habs]]. congruence.
  - intros Hnone. unfold payload, payloadRow.
    destruct (get_prop config "valueColumns")
      as [| | | | | | | [| c cs] | | | |]; try reflexivity.
    now destruct (Hnone c cs).
Qed.

(** A row action that lists the columns [name], [2024] and [2023], and also
    [constructor], which the row inherits. *)
Lemma row_click_message_witness :
  let config :=
    VObj [("key", VStr "view");
          ("valueColumns",
           VArr [VStr "name"; VNum 2024; VStr "zip"; VNum 2023;
                 VStr "constructor"])] in
  let row :=
    [("2023", VNum 5); ("2024", VNum 8); ("id", VNum 7);
     ("name", VStr "Ada")] in
  has_prop "__proto__" row = false
  /\ payloadRow config row
     = [("2023", VNum 5); ("2024", VNum 8); ("name", VStr "Ada");
        ("constructor", VFun "Object")]
  /\ handleTableAction (VNum 1) (handleActionClick VUndefined config row)
       VUndefined
     = Some (VObj [("action", VStr "table-action");
                   ("chartId", VNum 1);
                   ("actionType", VStr "view");
                   ("values", VArr [VObj (payloadRow config row)]);
                   ("origin", VStr "row")]).
Proof.
  cbv zeta. split; [reflexivity |]. split; [vm_compute; reflexivity |].
  exact (proj1
           (row_click_message (VNum 1) VUndefined
              (VObj [("key", VStr "view");
                     ("valueColumns",
                      VArr [VStr "name"; VNum 2024; VStr "zip"; VNum 2023;
                            VStr "constructor"])])
              [("2023", VNum 5); ("2024", VNum 8); ("id", VNum 7);
               ("name", VStr "Ada")]
              eq_refl)).
Defined.

(** X6. Two clicks on the same row action, on two rows whose trimmed
    payloads are equal, give the same fingerprint: when the first message is
    delivered and the second click comes before the window has passed, the
    second message is suppressed although it belongs to another row. *)
Theorem row_clicks_share_fingerprint (ttl : Z) (recent : gmap string Z)
    (tableChartId cellChartId config : JsVal) (row row' : Row)
    (first second : JsVal) (clock now clock' now' : Z) :
  handleTableAction tableChartId (handleActionClick cellChartId config row)
    VUndefined = Some first ->
  handleTableAction tableChartId (handleActionClick cellChartId config row')
    VUndefined = Some second ->
  payloadRow config row = payloadRow config row' ->
  JSON_stringify (keyPayload first) <> TypeError ->
  (0 < ttl)%Z ->
  (ttl <= now - default 0 (recent !! makeEventKey first clock))%Z ->
  (now' - now < ttl)%Z ->
  let recent1 := snd (shouldSendMessage true ttl recent first clock now) in
  fst (shouldSendMessage true ttl recent first clock now) = true
  /\ shouldSendMessage true ttl recent1 second clock' now' = (false, recent1).
Proof.
  intros Hfirst Hsecond Hsame Htext Httl Hfar Hnear.
  assert (Heq : second = first).
  { assert (Hclick : handleActionClick cellChartId config row'
                      = handleActionClick cellChartId config row)
      by (unfold handleActionClick; now rewrite Hsame).
    rewrite Hclick in Hsecond. congruence. }
  subst second. cbv zeta.
  pose proof (shouldSendMessage_delivered ttl recent first clock now Httl Hfar)
    as Hsent.
  destruct (shouldSendMessage true ttl recent first clock now)
    as [answer recent1].
  destruct Hsent as [-> Hrec]. cbn [fst snd]. split; [reflexivity |].
  rewrite (makeEventKey_clock first clock clock' Htext) in Hrec.
  now apply (shouldSendMessage_suppressed ttl recent1 first clock' now' now).
Qed.

Lemma row_clicks_share_fingerprint_witness :
  let config :=
    VObj [("key", VStr "flag"); ("valueColumns", VArr [VStr "status"])] in
  let row := [("id", VNum 1); ("status", VStr "open")] in
  let row' := [("id", VNum 2); ("status", VStr "open")] in
  let first :=
    VObj [("action", VStr "table-action"); ("chartId", VNum 9);
          ("actionType", VStr "flag");
          ("values", VArr [VObj [("status", VStr "open")]]);
          ("origin", VStr "row")] in
  let recent1 :=
    snd (shouldSendMessage true 1000 ∅ first 0 1762041600000) in
  payloadRow config row = payloadRow config row'
  /\ shouldSendMessage true 1000 recent1 first 0 1762041600400
     = (false, recent1).
Proof.
  cbv zeta. split; [reflexivity |].
  refine (proj2
    (row_clicks_share_fingerprint 1000 ∅ (VNum 9) VUndefined
       (VObj [("key", VStr "flag"); ("valueColumns", VArr [VStr "status"])])
       [("id", VNum 1); ("status", VStr "open")]
       [("id", VNum 2); ("status", VStr "open")]
       _ _ 0 1762041600000 0 1762041600400
       eq_refl eq_refl eq_refl _ _ _ _)).
  - vm_compute. discriminate.
  - lia.
  - vm_compute. discriminate.
  - lia.
Defined.

(** What a spread over an object with distinct property names holds. *)
Lemma spread_with_props (updates base : list (string * JsVal)) (k : string) :
  unique_keys updates = true ->
  has_prop k (spread_with base updates) = has_prop k updates || has_prop k base
  /\ lookup_prop k (spread_with base updates)
     = if has_prop k updates then lookup_prop k updates
       else lookup_prop k base.
Proof.
  unfold spread_with. revert base.
  induction updates as [| [a x] rest IH]; intros base Huniq;
    cbn [fold_left fst snd]; [auto |].
  cbn [unique_keys] in Huniq. apply andb_true_iff in Huniq as [Hfresh Huniq].
  apply negb_true_iff in Hfresh. fold (has_prop a rest) in Hfresh.
  destruct (IH (set_prop a x base) Huniq) as [Hhas Hlook].
  rewrite Hhas, Hlook, has_prop_set_prop, lookup_prop_set_prop, has_prop_cons.
  cbn [lookup_prop].
  destruct (String.eqb_spec a k) as [-> | Hne]; cbn [orb].
  - rewrite Hfresh. auto.
  - split; [| reflexivity]. now destruct (has_prop k rest).
Qed.

(** X7. A [publish-event] notification whose data is an object is always
    published with an [origin]: the data's own when it has one (even when
    that is [undefined]), and [header] otherwise.  Every other property of
    the data is passed on as it is, so the fingerprint of the published
    message is that of the data. *)
Theorem handleMessage_publish (eventData : JsVal)
    (props : list (string * JsVal)) :
  get_prop eventData "notification" = VStr "publish-event" ->
  get_prop eventData "data" = VObj props ->
  unique_keys props = true ->
  exists enriched,
    handleMessage eventData = NotifyPublish (VObj enriched)
    /\ has_prop "origin" enriched = true
    /\ lookup_prop "origin" enriched
       = (if has_prop "origin" props then lookup_prop "origin" props
          else VStr "header")
    /\ (forall k, k <> "origin" ->
                  has_prop k enriched = has_prop k props
                  /\ lookup_prop k enriched = lookup_prop k props)
    /\ (forall clock,
           makeEventKey (VObj enriched) clock = makeEventKey (VObj props) clock).
Proof.
  intros Hkind Hdata Huniq.
  set (origin := if has_prop "origin" props then lookup_prop "origin" props
                 else VStr "header").
  exists (spread_with [("origin", origin)] props).
  assert (Hother : forall k, k <> "origin" ->
            has_prop k (spread_with [("origin", origin)] props)
            = has_prop k props
            /\ lookup_prop k (spread_with [("origin", origin)] props)
               = lookup_prop k props).
  { intros k Hk.
    destruct (spread_with_props props [("origin", origin)] k Huniq)
      as [Hhas Hlook].
    rewrite Hhas, Hlook, has_prop_cons. cbn [lookup_prop].
    destruct (String.eqb_spec "origin" k) as [<- | _]; [congruence |].
    change (has_prop k []) with false. rewrite !orb_false_r.
    split; [reflexivity |].
    destruct (has_prop k props) eqn:Hp; [reflexivity |].
    symmetry. now apply has_prop_lookup_prop. }
  destruct (spread_with_props props [("origin", origin)] "origin" Huniq)
    as [Hhas Hlook].
  repeat match goal with |- _ /\ _ => split end.
  - unfold handleMessage.
    destruct eventData; try discriminate. cbn [is_nullish].
    rewrite Hdata, Hkind. reflexivity.
  - rewrite Hhas, has_prop_cons, String.eqb_refl. now rewrite orb_true_r.
  - rewrite Hlook. subst origin. cbn [lookup_prop].
    now destruct (has_prop "origin" props).
  - exact Hother.
  - intros clock. unfold makeEventKey, keyPayload. cbn [truthy get_prop].
    now rewrite (proj2 (Hother "action" ltac:(discriminate))),
      (proj2 (Hother "chartId" ltac:(discriminate))),
      (proj2 (Hother "actionType" ltac:(discriminate))),
      (proj2 (Hother "values" ltac:(discriminate))).
Qed.

Lemma handleMessage_publish_witness :
  let eventData :=
    VObj [("notification", VStr "publish-event");
          ("data", VObj [("action", VStr "refresh"); ("chartId", VNum 3)])] in
  unique_keys [("action", VStr "refresh"); ("chartId", VNum 3)] = true
  /\ exists enriched,
       handleMessage eventData = NotifyPublish (VObj enriched)
       /\ lookup_prop "origin" enriched = VStr "header".
Proof.
  cbv zeta. split; [reflexivity |].
  destruct (handleMessage_publish
              (VObj [("notification", VStr "publish-event");
                     ("data",
                      VObj [("action", VStr "refresh"); ("chartId", VNum 3)])])
              [("action", VStr "refresh"); ("chartId", VNum 3)]
              eq_refl eq_refl eq_refl)
    as [enriched [Hsent [_ [Horigin _]]]].
  exists enriched. split; [exact Hsent | exact Horigin].
Defined.

(** ** Bulk action bar *)

Lemma action_visible_selected (action : JsVal) (keep : bool) :
  action_visible true action = Some keep ->
  action_visible false action
  = Some (keep
          || (negb (truthy (get_prop action "showInSliceHeader"))
              && text_is (get_prop action "visibilityCondition") "unselected")).
Proof.
  unfold action_visible. destruct (is_nullish action); [discriminate |].
  intros [= <-]. f_equal.
  destruct (truthy (get_prop action "showInSliceHeader")); [reflexivity |].
  cbn [negb andb].
  destruct (get_prop action "visibilityCondition");
    cbn [text_is truthy negb andb orb];
    repeat match goal with
      | |- context [String.eqb ?a ?b] => destruct (String.eqb a b)
      | |- context [Z.eqb ?a ?b] => destruct (Z.eqb a b)
      | b : bool |- _ => destruct b
      end; reflexivity.
Qed.

Lemma unselected_not_kept (action : JsVal) :
  text_is (get_prop action "visibilityCondition") "unselected" = true ->
  action_visible true action = Some false.
Proof.
  unfold action_visible. intros Hvc.
  destruct (is_nullish action) eqn:Hnull.
  - destruct action; discriminate.
  - f_equal.
    destruct (get_prop action "visibilityCondition") as [| | | | | s | | | | | |];
      try discriminate.
    cbn [text_is truthy] in *. apply String.eqb_eq in Hvc as ->.
    now rewrite andb_false_r.
Qed.

(** X8. Selecting rows never brings an action into the bar: the actions
    shown while rows are selected are those shown while none is selected,
    less the ones whose visibility condition is [unselected].  An action
    whose condition is [selected] is shown in both cases. *)
Theorem filter_visible_selection (actions shown : list JsVal) :
  filter_visible true actions = Some shown ->
  exists shown_unselected,
    filter_visible false actions = Some shown_unselected
    /\ shown
       = List.filter
           (fun a =>
              negb (text_is (get_prop a "visibilityCondition") "unselected"))
           shown_unselected
    /\ (forall a,
           In a actions ->
           text_is (get_prop a "visibilityCondition") "selected" = true ->
           truthy (get_prop a "showInSliceHeader") = false ->
           In a shown /\ In a shown_unselected).
Proof.
  revert shown. induction actions as [| a rest IH]; intros shown Hshown.
  - injection Hshown as <-. exists []. repeat split; try reflexivity;
      contradiction.
  - cbn [filter_visible] in Hshown |- *.
    destruct (action_visible true a) as [keep |] eqn:Hkeep; [| discriminate].
    destruct (filter_visible true rest) as [kept |]; [| discriminate].
    injection Hshown as <-.
    destruct (IH kept eq_refl) as [kept0 [Hrest [Hfilter Hsel]]].
    rewrite (action_visible_selected a keep Hkeep), Hrest.
    eexists. split; [reflexivity |].
    set (hidden := negb (truthy (get_prop a "showInSliceHeader"))
                   && text_is (get_prop a "visibilityCondition") "unselected").
    assert (Hkeep_shape :
              keep = true ->
              text_is (get_prop a "visibilityCondition") "unselected" = false).
    { intros ->.
      destruct (text_is (get_prop a "visibilityCondition") "unselected")
        eqn:Hun; [| reflexivity].
      rewrite (unselected_not_kept a Hun) in Hkeep. discriminate. }
    split.
    + destruct keep; cbn [orb].
      * cbn [List.filter]. rewrite (Hkeep_shape eq_refl). cbn [negb].
        now rewrite Hfilter.
      * destruct hidden eqn:Hhidden; [| exact Hfilter].
        cbn [List.filter]. subst hidden.
        apply andb_true_iff in Hhidden as [_ ->]. exact Hfilter.
    + intros b [<- | Hin] Hvc Hheader.
      * assert (Hk : keep = true).
        { unfold action_visible in Hkeep.
          destruct (is_nullish a); [discriminate |].
          injection Hkeep as <-. rewrite Hheader, Hvc.
          cbn [negb andb orb]. now rewrite orb_true_r. }
        subst keep. cbn [orb]. split; left; reflexivity.
      * destruct (Hsel b Hin Hvc Hheader) as [H1 H0].
        split.
        -- destruct keep; [right |]; exact H1.
        -- destruct (keep || hidden); [right |]; exact H0.
Qed.

Lemma filter_visible_selection_witness :
  let actions :=
    [VObj [("key", VStr "add"); ("visibilityCondition", VStr "unselected")];
     VObj [("key", VStr "approve"); ("visibilityCondition", VStr "selected")]] in
  filter_visible true actions
  = Some [VObj [("key", VStr "approve");
                ("visibilityCondition", VStr "selected")]]
  /\ exists shown_unselected,
       filter_visible false actions = Some shown_unselected
       /\ [VObj [("key", VStr "approve");
                 ("visibilityCondition", VStr "selected")]]
          = List.filter
              (fun a =>
                 negb (text_is (get_prop a "visibilityCondition")
                         "unselected"))
              shown_unselected.
Proof.
  cbv zeta. split; [reflexivity |].
  destruct (filter_visible_selection
              [VObj [("key", VStr "add");
                     ("visibilityCondition", VStr "unselected")];
               VObj [("key", VStr "approve");
                     ("visibilityCondition", VStr "selected")]]
              [VObj [("key", VStr "approve");
                     ("visibilityCondition", VStr "selected")]] eq_refl)
    as [shown_unselected [Hshown [Hfilter _]]].
  exists shown_unselected. split; [exact Hshown | exact Hfilter].
Defined.

(** X9. Whenever the dropdown of split actions is shown, it is disabled
    exactly when every item in it is disabled; and while rows are selected
    neither the dropdown nor any item or button is disabled. *)
Theorem dropdown_disabled_with_items (initialSelectedRows : option Selection)
    (split nonSplit : option (list JsVal)) (showSplitInSliceHeader : bool)
    (bar : BulkActionBar) :
  bulk_action_bar initialSelectedRows split nonSplit showSplitInSliceHeader
  = Some bar ->
  (shouldShowDropdown bar = true ->
   isDropdownDisabled bar
   = List.forallb (item_disabled (hasSelection initialSelectedRows))
       (dropdown bar))
  /\ (hasSelection initialSelectedRows = true ->
      isDropdownDisabled bar = false
      /\ forall action, item_disabled true action = false).
Proof.
  unfold bulk_action_bar.
  destruct (filter_visible _ (match split with Some l => l | None => [] end))
    as [visibleDropdown |]; [| discriminate].
  destruct (filter_visible _ (match nonSplit with Some l => l | None => [] end))
    as [visibleButtons |]; [| discriminate].
  intros [= <-]. cbn [shouldShowDropdown isDropdownDisabled dropdown].
  split.
  - intros Hshown. apply andb_true_iff in Hshown as [Hsome _].
    unfold item_disabled.
    destruct (hasSelection initialSelectedRows); cbn [negb andb].
    + destruct visibleDropdown as [| a rest]; [discriminate |].
      cbn [forallb]. now rewrite andb_false_r.
    + clear Hsome. induction visibleDropdown as [| a rest IH]; [reflexivity |].
      cbn [forallb]. now rewrite <- IH, andb_true_r.
  - intros ->. split; [reflexivity |].
    intros action. unfold item_disabled. now rewrite andb_false_r.
Qed.

Lemma dropdown_disabled_with_items_witness :
  let split :=
    Some [VObj [("key", VStr "approve"); ("boundToSelection", VBool true)];
          VObj [("key", VStr "export")]] in
  exists bar,
    bulk_action_bar (Some []) split None false = Some bar
    /\ shouldShowDropdown bar = true
    /\ isDropdownDisabled bar
       = List.forallb (item_disabled (hasSelection (Some []))) (dropdown bar).
Proof.
  cbv zeta. eexists. split; [reflexivity |]. split; [reflexivity |].
  exact (proj1
           (dropdown_disabled_with_items (Some [])
              (Some [VObj [("key", VStr "approve");
                           ("boundToSelection", VBool true)];
                     VObj [("key", VStr "export")]])
              None false _ eq_refl) eq_refl).
Defined.

(** ** Selection column *)

Lemma map_has_without_in (ids : list string) (m : Selection) (id : string) :
  In id ids -> map_has id (without ids m) = false.
Proof. intros Hin. apply map_has_get. now apply map_get_without_in. Qed.

(** X10. A click on the header checkbox over a page that is not empty
    inverts its checked state and never leaves it indeterminate: after the
    click either every row of the page is selected or none is. *)
Theorem header_after_handleBulkSelect (bulk_action_id_column : string)
    (pageData : list Row) (prev : Selection) :
  pageData <> [] ->
  header_state bulk_action_id_column (Some pageData)
    (handleBulkSelect bulk_action_id_column pageData prev)
  = (negb (fst (header_state bulk_action_id_column (Some pageData) prev)),
     false).
Proof.
  intros Hpage. unfold header_state. cbn [fst].
  set (ids := List.map (row_id bulk_action_id_column) pageData).
  assert (Hlen : Nat.ltb 0 (List.length ids) = true).
  { subst ids. destruct pageData; [contradiction | reflexivity]. }
  rewrite Hlen. cbn [andb].
  destruct (List.forallb (fun id => map_has id prev) ids) eqn:Hall.
  - rewrite (handleBulkSelect_all _ _ _ Hpage Hall). fold ids.
    assert (Hnone : List.existsb (fun id => map_has id (without ids prev)) ids
                    = false).
    { apply not_true_is_false. intros Hsome.
      apply existsb_exists in Hsome as [id [Hin Hhas]].
      rewrite (map_has_without_in ids prev id Hin) in Hhas. discriminate. }
    rewrite Hnone, andb_false_r.
    assert (Hnot : List.forallb (fun id => map_has id (without ids prev)) ids
                   = false).
    { destruct ids as [| id rest]; [discriminate |]. cbn [forallb].
      now rewrite (map_has_without_in (id :: rest) prev id (or_introl eq_refl)). }
    now rewrite Hnot.
  - rewrite (handleBulkSelect_not_all _ _ _ Hall).
    assert (Hnow : List.forallb
                     (fun id =>
                        map_has id
                          (select_rows bulk_action_id_column pageData prev))
                     ids = true).
    { apply forallb_forall. intros id Hin. now apply select_rows_has. }
    now rewrite Hnow.
Qed.

Lemma header_after_handleBulkSelect_witness :
  [row_a; row_b] <> []
  /\ header_state "id" (Some [row_a; row_b]) [("a", row_a)] = (false, true)
  /\ header_state "id" (Some [row_a; row_b])
       (handleBulkSelect "id" [row_a; row_b] [("a", row_a)])
     = (true, false).
Proof.
  split; [discriminate |]. split; [reflexivity |].
  exact (header_after_handleBulkSelect "id" [row_a; row_b] [("a", row_a)]
           ltac:(discriminate)).
Defined.

Lemma map_delete_fresh {V : Type} (k : string) (m : JsMap V) :
  map_has k m = false -> map_delete k m = m.
Proof.
  unfold map_has, map_delete.
  induction m as [| [k' v'] m IH]; cbn [map_get List.filter fst];
    [reflexivity |].
  destruct (String.eqb k' k); [discriminate |].
  intros Hm. cbn [negb]. now rewrite (IH Hm).
Qed.

Lemma map_delete_set_fresh {V : Type} (k : string) (v : V) (m : JsMap V) :
  map_has k m = false -> map_delete k (map_set k v m) = m.
Proof.
  unfold map_has, map_delete, map_set.
  induction m as [| [k' v'] m IH]; cbn [map_get set_prop List.filter fst].
  - now rewrite String.eqb_refl.
  - destruct (String.eqb k' k) eqn:Hk; [discriminate |].
    intros Hm. cbn [List.filter fst]. rewrite Hk. cbn [negb].
    now rewrite (IH Hm).
Qed.

(** X11. Ticking the box of a row adds the first row of the data that
    carries the cell's id and leaves every other entry of the selection as
    it was, whatever the selection mode, which the handler does not read;
    ticking and then unticking the box of a row that was not selected gives
    back the selection exactly. *)
Theorem cell_onChange_tick (data : list Row) (bulk_action_id_column : string)
    (rowId : string) (prev : Selection) :
  (forall rowData,
      List.find
        (fun row => String.eqb (row_id bulk_action_id_column row) rowId) data
      = Some rowData ->
      map_get rowId (cell_onChange data bulk_action_id_column rowId true prev)
      = Some rowData)
  /\ (forall id,
         id <> rowId ->
         map_get id (cell_onChange data bulk_action_id_column rowId true prev)
         = map_get id prev)
  /\ (map_has rowId prev = false ->
      cell_onChange data bulk_action_id_column rowId false
        (cell_onChange data bulk_action_id_column rowId true prev)
      = prev).
Proof.
  unfold cell_onChange.
  destruct (List.find _ data) as [rowData |].
  - split; [| split].
    + intros r [= <-]. apply map_get_set_eq.
    + intros id Hne. apply map_get_set_ne. congruence.
    + apply map_delete_set_fresh.
  - split; [| split].
    + discriminate.
    + reflexivity.
    + apply map_delete_fresh.
Qed.

Lemma cell_onChange_tick_witness :
  map_has "b" [("a", row_a)] = false
  /\ cell_onChange [row_a; row_b] "id" "b" true [("a", row_a)]
     = [("a", row_a); ("b", row_b)]
  /\ cell_onChange [row_a; row_b] "id" "b" false
       (cell_onChange [row_a; row_b] "id" "b" true [("a", row_a)])
     = [("a", row_a)].
Proof.
  split; [reflexivity |]. split; [reflexivity |].
  exact (proj2 (proj2 (cell_onChange_tick [row_a; row_b] "id" "b"
                         [("a", row_a)])) eq_refl).
Defined.




Lemma cell_onChange_keeps (data : list Row) (idColumn rowId id : string)
    (prev : Selection) :
  map_has id prev = true ->
  map_has id (cell_onChange data idColumn rowId true prev) = true.
Proof.
  unfold cell_onChange. destruct (List.find _ data); [| auto].
  intros Hhas. unfold map_has in *.
  destruct (String.eqb_spec rowId id) as [-> | Hne].
  - now rewrite map_get_set_eq.
  - now rewrite map_get_set_ne.
Qed.

Lemma tick_cells_keeps (data : list Row) (idColumn id : string)
    (cells : list (nat * Row)) (prev : Selection) :
  map_has id prev = true ->
  map_has id (tick_cells data idColumn cells prev) = true.
Proof.
  unfold tick_cells. revert prev.
  induction cells as [| cell rest IH]; intros prev Hhas; [exact Hhas |].
  cbn [fold_left]. apply IH. now apply cell_onChange_keeps.
Qed.

Lemma cell_onChange_selects (data : list Row) (idColumn : string)
    (row : Row) (index : nat) (prev : Selection) :
  In row data ->
  is_nullish (lookup_prop idColumn row) = false ->
  map_has (row_id idColumn row)
    (cell_onChange data idColumn (cell_row_id idColumn row index) true prev)
  = true.
Proof.
  intros Hin Hid.
  assert (Hcell : cell_row_id idColumn row index = row_id idColumn row).
  { unfold cell_row_id, nullish_or, row_id. now rewrite Hid. }
  rewrite Hcell. unfold cell_onChange.
  destruct (List.find _ data) as [found |] eqn:Hfind.
  - unfold map_has. now rewrite map_get_set_eq.
  - pose proof (find_none _ _ Hfind row Hin) as Hno. cbv beta in Hno.
    now rewrite String.eqb_refl in Hno.
Qed.

(** X13. When the boxes of all rows of a page are ticked one after the
    other, each row being a row of the data with an id that is neither
    [null] nor [undefined], the header checkbox ends up checked and not
    indeterminate, whatever was selected before. *)
Theorem tick_cells_header (data : list Row) (bulk_action_id_column : string)
    (cells : list (nat * Row)) (prev : Selection) :
  cells <> [] ->
  (forall cell,
      In cell cells ->
      In (snd cell) data
      /\ is_nullish (lookup_prop bulk_action_id_column (snd cell)) = false) ->
  header_state bulk_action_id_column (Some (List.map snd cells))
    (tick_cells data bulk_action_id_column cells prev)
  = (true, false).
Proof.
  intros Hsome Hcells. unfold header_state.
  assert (Hall : List.forallb
                   (fun id =>
                      map_has id
                        (tick_cells data bulk_action_id_column cells prev))
                   (List.map (row_id bulk_action_id_column)
                      (List.map snd cells)) = true).
  { clear Hsome. revert prev Hcells.
    induction cells as [| cell rest IH]; intros prev Hcells; [reflexivity |].
    cbn [List.map forallb]. apply andb_true_iff. split.
    - unfold tick_cells. cbn [fold_left].
      apply (tick_cells_keeps data bulk_action_id_column _ rest).
      destruct (Hcells cell (or_introl eq_refl)) as [Hin Hid].
      now apply cell_onChange_selects.
    - unfold tick_cells. cbn [fold_left]. apply IH.
      intros c Hc. apply Hcells. now right. }
  rewrite Hall.
  destruct cells as [| cell rest]; [contradiction | reflexivity].
Qed.

Lemma tick_cells_header_witness :
  [(0, row_a); (1, row_b)] <> []
  /\ header_state "id" (Some [row_a; row_b])
       (tick_cells [row_a; row_b; row_c] "id" [(0, row_a); (1, row_b)]
          [("c", row_c)])
     = (true, false).
Proof.
  split; [discriminate |].
  apply (tick_cells_header [row_a; row_b; row_c] "id"
           [(0, row_a); (1, row_b)] [("c", row_c)]); [discriminate |].
  intros cell [<- | [<- | []]]; split; cbn; auto.
Defined.

(** ** Page size handed to the table hook *)

Lemma number_or_nonzero (a b : Z) : b <> 0%Z -> number_or a b <> 0%Z.
Proof. unfold number_or. destruct (Z.eqb_spec a 0); auto. Qed.

Lemma desiredPageSize_nonzero (p : PaginationProps) :
  desiredPageSize p <> 0%Z.
Proof.
  unfold desiredPageSize. destruct (serverPagination p).
  - now apply number_or_nonzero.
  - destruct (Z.ltb_spec 0 (initialPageSize p)); [lia |].
    now apply number_or_nonzero.
Qed.

(** X14. The table hook is never given a page size of zero, which it does
    not understand: not as its initial page size, not by [setPageSize], and
    not by the forced update, which hands over the desired page size
    whenever it makes the call.  Without server pagination the desired page
    size is positive, for data of any length. *)
Theorem page_size_never_zero (p : PaginationProps) (size : Z)
    (pageSizeRef : Z * Z) :
  desiredPageSize p <> 0%Z
  /\ snd (setPageSize p size) <> Some 0%Z
  /\ (snd (sync_page_size p pageSizeRef) = None
      \/ snd (sync_page_size p pageSizeRef) = Some (desiredPageSize p))
  /\ (serverPagination p = false -> (0 <= data_length p)%Z ->
      (0 < desiredPageSize p)%Z).
Proof.
  pose proof (desiredPageSize_nonzero p) as Hdesired.
  split; [exact Hdesired |]. split; [| split].
  - unfold setPageSize. cbn [snd].
    destruct (Z.eqb_spec size 0) as [-> | Hsize]; cbn [negb orb].
    + destruct (Z.eqb_spec (resultsSize p) 0); cbn [negb]; congruence.
    + congruence.
  - unfold sync_page_size.
    destruct (negb _ || _); cbn [snd]; [| now left].
    destruct (Z.eqb_spec (desiredPageSize p) 0); [contradiction |].
    now right.
  - intros Hclient Hlen. unfold desiredPageSize, resultsSize, number_or.
    rewrite Hclient.
    destruct (Z.ltb_spec 0 (initialPageSize p)); [assumption |].
    destruct (Z.eqb_spec (data_length p) 0); lia.
Qed.

Lemma page_size_never_zero_witness :
  let p :=
    {| serverPagination := false; rowCount := 0; data_length := 25;
       serverPaginationData := None; initialPageSize := 0;
       pageSizeOptions := [10; 20; 0]%Z;
       pageCount := 1; pageSize := 25; pageIndex := 0 |} in
  (0 <= data_length p)%Z
  /\ desiredPageSize p = 25%Z
  /\ (0 < desiredPageSize p)%Z.
Proof.
  cbv zeta. split; [cbn; lia |]. split; [reflexivity |].
  refine (proj2 (proj2 (proj2
    (page_size_never_zero
       {| serverPagination := false; rowCount := 0; data_length := 25;
          serverPaginationData := None; initialPageSize := 0;
          pageSizeOptions := [10; 20; 0]%Z;
          pageCount := 1; pageSize := 25; pageIndex := 0 |} 0%Z (0, 0)%Z)))
    eq_refl _).
  cbn. lia.
Defined.

(** X15. With server pagination the table hook is always told a page count.
    It is the page count of the pagination bar whenever the page size in
    force is not zero; with a page size of zero the hook is told the count
    for pages of ten rows while the bar shows zero pages. *)
Theorem serverPageCount_rendered (p : PaginationProps) :
  serverPagination p = true ->
  let size :=
    optional_field (serverPaginationData p) sp_pageSize (initialPageSize p) in
  (size <> 0%Z ->
   serverPageCount p = Some (resultPageCount (render_pagination p)))
  /\ (size = 0%Z ->
      serverPageCount p = Some (ceil_div (rowCount p) 10)
      /\ resultPageCount (render_pagination p) = 0%Z).
Proof.
  intros Hserver. cbv zeta.
  unfold serverPageCount, render_pagination, finite_page_count, number_or.
  rewrite Hserver. cbn [resultPageCount].
  destruct (Z.eqb_spec
              (optional_field (serverPaginationData p) sp_pageSize
                 (initialPageSize p)) 0) as [Hzero | Hsize].
  - split; [contradiction |]. intros _. split; reflexivity.
  - split; [| contradiction]. intros _.
    now rewrite (proj2 (Z.eqb_neq _ 0) Hsize).
Qed.

Lemma serverPageCount_rendered_witness :
  let p :=
    {| serverPagination := true; rowCount := 25; data_length := 0;
       serverPaginationData :=
         Some {| sp_pageSize := Some 0%Z; sp_currentPage := Some 0%Z |};
       initialPageSize := 10;
       pageSizeOptions := [10; 20]%Z;
       pageCount := 3; pageSize := 10; pageIndex := 0 |} in
  serverPagination p = true
  /\ serverPageCount p = Some 3%Z
  /\ resultPageCount (render_pagination p) = 0%Z.
Proof.
  cbv zeta. split; [reflexivity |].
  exact (proj2
    (serverPageCount_rendered
       {| serverPagination := true; rowCount := 25; data_length := 0;
          serverPaginationData :=
            Some {| sp_pageSize := Some 0%Z; sp_currentPage := Some 0%Z |};
          initialPageSize := 10;
          pageSizeOptions := [10; 20]%Z;
          pageCount := 3; pageSize := 10; pageIndex := 0 |} eq_refl)
    eq_refl).
Defined.

Lemma last_Some_In (options : list Z) (fallback : Z) :
  List.last (List.map Some options) None = Some fallback -> In fallback options.
Proof.
  induction options as [| a rest IH]; [discriminate |].
  destruct rest as [| b rest].
  - cbn. intros [= ->]. now left.
  - intros Hlast. right. apply IH. exact Hlast.
Qed.

Lemma last_Some_nonempty (options : list Z) :
  options <> [] -> List.last (List.map Some options) None <> None.
Proof.
  induction options as [| a rest IH]; [contradiction |]. intros _.
  destruct rest as [| b rest]; [discriminate |].
  apply IH. discriminate.
Qed.

Lemma shown_page_size_In (p : PaginationProps) :
  serverPagination p = true ->
  pageSizeOptions p <> [] ->
  In (resultCurrentPageSize (render_pagination p)) (pageSizeOptions p).
Proof.
  intros Hserver Hoffer. unfold render_pagination. rewrite Hserver.
  cbn [resultCurrentPageSize].
  destruct (List.existsb _ (pageSizeOptions p)) eqn:Hfound.
  - apply existsb_exists in Hfound as [option [Hin Heq]].
    apply Z.eqb_eq in Heq. now subst option.
  - destruct (List.last (List.map Some (pageSizeOptions p)) None)
      as [fallback |] eqn:Hlast.
    + now apply last_Some_In.
    + now destruct (last_Some_nonempty _ Hoffer).
Qed.

(** X16. With server pagination and at least one page size on offer, the
    page size shown by the selector is always one of the sizes on offer: the
    page size in force when it is on offer, and otherwise the last size on
    offer. *)
Theorem shown_page_size_on_offer (p : PaginationProps) :
  serverPagination p = true ->
  pageSizeOptions p <> [] ->
  let size :=
    optional_field (serverPaginationData p) sp_pageSize (initialPageSize p) in
  In (resultCurrentPageSize (render_pagination p)) (pageSizeOptions p)
  /\ (In size (pageSizeOptions p) ->
      resultCurrentPageSize (render_pagination p) = size)
  /\ (~ In size (pageSizeOptions p) ->
      Some (resultCurrentPageSize (render_pagination p))
      = List.last (List.map Some (pageSizeOptions p)) None).
Proof.
  intros Hserver Hoffer. cbv zeta.
  split; [now apply shown_page_size_In |].
  unfold render_pagination. rewrite Hserver. cbn [resultCurrentPageSize].
  set (size := optional_field (serverPaginationData p) sp_pageSize
                 (initialPageSize p)).
  destruct (List.existsb (Z.eqb size) (pageSizeOptions p)) eqn:Hfound.
  - split; [reflexivity |]. intros Hout.
    apply existsb_exists in Hfound as [option [Hin Heq]].
    apply Z.eqb_eq in Heq. subst option. contradiction.
  - split.
    + intros Hin. assert (Hyes : List.existsb (Z.eqb size) (pageSizeOptions p)
                                 = true).
      { apply existsb_exists. exists size. split; [exact Hin |].
        apply Z.eqb_refl. }
      congruence.
    + intros _.
      destruct (List.last (List.map Some (pageSizeOptions p)) None)
        as [fallback |] eqn:Hlast; [reflexivity |].
      now destruct (last_Some_nonempty _ Hoffer).
Qed.

Lemma shown_page_size_on_offer_witness :
  let p :=
    {| serverPagination := true; rowCount := 45; data_length := 15;
       serverPaginationData :=
         Some {| sp_pageSize := Some 15%Z; sp_currentPage := Some 0%Z |};
       initialPageSize := 10;
       pageSizeOptions := [10; 20; 40]%Z;
       pageCount := 3; pageSize := 15; pageIndex := 0 |} in
  pageSizeOptions p <> []
  /\ resultCurrentPageSize (render_pagination p) = 40%Z
  /\ In (resultCurrentPageSize (render_pagination p)) (pageSizeOptions p).
Proof.
  cbv zeta. split; [discriminate |]. split; [reflexivity |].
  exact (proj1 (shown_page_size_on_offer
    {| serverPagination := true; rowCount := 45; data_length := 15;
       serverPaginationData :=
         Some {| sp_pageSize := Some 15%Z; sp_currentPage := Some 0%Z |};
       initialPageSize := 10;
       pageSizeOptions := [10; 20; 40]%Z;
       pageCount := 3; pageSize := 15; pageIndex := 0 |}
    eq_refl ltac:(discriminate))).
Defined.

(** X17. With server pagination, the page sizes on offer are the
    configured sizes that do not exceed the number of rows; so whenever a
    size is on offer, the page size shown by the selector does not exceed
    the number of rows, whatever page size is in force. *)
Theorem shown_page_size_bounded (p : PaginationProps) (opts : list Z) :
  serverPagination p = true ->
  pageSizeOptions p
  = pageSizeOptions_for true (rowCount p) (data_length p) opts ->
  pageSizeOptions p <> [] ->
  (resultCurrentPageSize (render_pagination p) <= rowCount p)%Z.
Proof.
  intros Hserver Hoffer Hsome.
  pose proof (shown_page_size_In p Hserver Hsome) as Hin.
  rewrite Hoffer in Hin. unfold pageSizeOptions_for in Hin.
  apply filter_In in Hin as [_ Hle]. now apply Z.leb_le.
Qed.

Lemma shown_page_size_bounded_witness :
  let p :=
    {| serverPagination := true; rowCount := 45; data_length := 15;
       serverPaginationData :=
         Some {| sp_pageSize := Some 100%Z; sp_currentPage := Some 0%Z |};
       initialPageSize := 10;
       pageSizeOptions := [10; 20; 40]%Z;
       pageCount := 1; pageSize := 100; pageIndex := 0 |} in
  pageSizeOptions p
  = pageSizeOptions_for true (rowCount p) (data_length p)
      [10; 20; 40; 80; 100; 200]%Z
  /\ resultCurrentPageSize (render_pagination p) = 40%Z
  /\ (resultCurrentPageSize (render_pagination p) <= rowCount p)%Z.
Proof.
  cbv zeta. split; [reflexivity |]. split; [reflexivity |].
  exact (shown_page_size_bounded
    {| serverPagination := true; rowCount := 45; data_length := 15;
       serverPaginationData :=
         Some {| sp_pageSize := Some 100%Z; sp_currentPage := Some 0%Z |};
       initialPageSize := 10;
       pageSizeOptions := [10; 20; 40]%Z;
       pageCount := 1; pageSize := 100; pageIndex := 0 |}
    [10; 20; 40; 80; 100; 200]%Z eq_refl eq_refl ltac:(discriminate)).
Defined.

(** ** Own state of the table *)

(** X18. The effect that copies the configured page length into the own
    state does so at most once: it never replaces a page size that the own
    state holds, and on the state that it hands over it hands over nothing
    more, whatever page length is configured later. *)
Theorem sync_page_length_once (serverPagination : bool) (pageSize : JsVal)
    (serverPaginationData : option (list (string * JsVal))) :
  (is_nullish (lookup_prop "pageSize" (own_state serverPaginationData))
   = false ->
   sync_page_length serverPagination pageSize serverPaginationData = None)
  /\ (forall next,
         sync_page_length serverPagination pageSize serverPaginationData
         = Some next ->
         lookup_prop "pageSize" next = pageSize
         /\ lookup_prop "currentPage" next = VNum 0
         /\ forall pageSize',
              sync_page_length serverPagination pageSize' (Some next) = None).
Proof.
  unfold sync_page_length. split.
  - intros Hheld. rewrite Hheld, andb_false_r. now destruct serverPagination.
  - intros next. destruct serverPagination; [| discriminate].
    cbn [negb]. destruct (truthy pageSize) eqn:Hsize; [| discriminate].
    destruct (is_nullish _); [| discriminate]. cbn [andb].
    intros [= <-].
    assert (Hnot : is_nullish pageSize = false)
      by (destruct pageSize; try reflexivity; discriminate).
    unfold spread_with. cbn [fold_left fst snd own_state].
    rewrite !lookup_prop_set_prop. cbn [String.eqb Ascii.eqb Bool.eqb].
    split; [reflexivity |]. split; [reflexivity |].
    intros pageSize'. now rewrite Hnot, andb_false_r.
Qed.

Lemma sync_page_length_once_witness :
  sync_page_length true (VNum 20) (Some [("searchText", VStr "ab")])
  = Some [("searchText", VStr "ab"); ("currentPage", VNum 0);
          ("pageSize", VNum 20)]
  /\ sync_page_length true (VNum 50)
       (Some [("searchText", VStr "ab"); ("currentPage", VNum 0);
              ("pageSize", VNum 20)])
     = None.
Proof.
  split; [reflexivity |].
  exact (proj2 (proj2
    (proj2 (sync_page_length_once true (VNum 20)
              (Some [("searchText", VStr "ab")]))
       [("searchText", VStr "ab"); ("currentPage", VNum 0);
        ("pageSize", VNum 20)] eq_refl)) (VNum 50)).
Defined.

(** X19. A search hands over an own state whose current page is the first
    one, with the page size and every other property it does not name as
    they were.  A change of the search column to another column clears the
    search text and leaves the current page as it was; a change to the
    column already set hands over nothing. *)
Theorem search_own_state
    (serverPaginationData : option (list (string * JsVal)))
    (defaultSearchColumn searchText : JsVal) (searchCol : string) :
  let searched :=
    handleSearch serverPaginationData defaultSearchColumn searchText in
  lookup_prop "currentPage" searched = VNum 0
  /\ lookup_prop "searchText" searched = searchText
  /\ (forall k,
         k <> "searchColumn" -> k <> "searchText" -> k <> "currentPage" ->
         lookup_prop k searched
         = lookup_prop k (own_state serverPaginationData))
  /\ (lookup_prop "searchColumn" (own_state serverPaginationData)
      = VStr searchCol ->
      handleChangeSearchCol serverPaginationData searchCol = None)
  /\ (forall next,
         handleChangeSearchCol serverPaginationData searchCol = Some next ->
         lookup_prop "searchColumn" next = VStr searchCol
         /\ lookup_prop "searchText" next = VStr EmptyString
         /\ lookup_prop "currentPage" next
            = lookup_prop "currentPage" (own_state serverPaginationData)).
Proof.
  cbv zeta. unfold handleSearch, handleChangeSearchCol, spread_with.
  set (props := own_state serverPaginationData).
  cbn [fold_left fst snd].
  split; [| split; [| split; [| split]]].
  - rewrite !lookup_prop_set_prop. reflexivity.
  - rewrite !lookup_prop_set_prop. reflexivity.
  - intros k Hcol Htext Hpage. rewrite !lookup_prop_set_prop.
    destruct (String.eqb_spec "currentPage" k); [congruence |].
    destruct (String.eqb_spec "searchText" k); [congruence |].
    destruct (String.eqb_spec "searchColumn" k); [congruence |].
    reflexivity.
  - intros ->. cbn [text_is]. now rewrite String.eqb_refl.
  - intros next. destruct (text_is _ searchCol); [discriminate |].
    intros [= <-]. rewrite !lookup_prop_set_prop.
    repeat split; reflexivity.
Qed.

Lemma search_own_state_witness :
  let state :=
    Some [("currentPage", VNum 3); ("pageSize", VNum 20);
          ("searchColumn", VStr "name")] in
  handleSearch state (VStr "id") (VStr "ada")
  = [("currentPage", VNum 0); ("pageSize", VNum 20);
     ("searchColumn", VStr "name"); ("searchText", VStr "ada")]
  /\ handleChangeSearchCol state "city"
     = Some [("currentPage", VNum 3); ("pageSize", VNum 20);
             ("searchColumn", VStr "city"); ("searchText", VStr EmptyString)]
  /\ handleChangeSearchCol state "name" = None.
Proof.
  cbv zeta. split; [reflexivity |]. split; [reflexivity |].
  exact (proj1 (proj2 (proj2 (proj2
    (search_own_state
       (Some [("currentPage", VNum 3); ("pageSize", VNum 20);
              ("searchColumn", VStr "name")])
       (VStr "id") (VStr "ada") "name")))) eq_refl).
Defined.

Lemma useCallback_render_kept (mount : ChartRender)
    (rerenders : list ChartRender) :
  Forall (fun render => setDataMask render = setDataMask mount) rerenders ->
  useCallback_render mount rerenders = mount.
Proof.
  unfold useCallback_render.
  induction rerenders as [| render rest IH]; intros Hsame; [reflexivity |].
  inversion Hsame as [| ? ? Hrender Hrest]; subst.
  cbn [fold_left]. rewrite Hrender, Nat.eqb_refl. now apply IH.
Qed.

(** X20. With server pagination, choosing a page size asks for the first
    page with that size, and the own state that results holds them.  Its
    other properties are those of the [serverPaginationData] that the
    callback captured when it was created: while [setDataMask] stays the
    function of the first render, those of the first render, so that a
    search text, a search column or a sort set since then is not carried
    over. *)
Theorem page_size_change_first_page (p : PaginationProps) (size : Z)
    (mount : ChartRender) (rerenders : list ChartRender) :
  serverPagination p = true ->
  exists pageNumber pageSize,
    fst (setPageSize p size) = Some (pageNumber, pageSize)
    /\ let next :=
         handleServerPaginationChange mount rerenders (VNum pageNumber)
           (VNum pageSize) in
       lookup_prop "currentPage" next = VNum 0
       /\ lookup_prop "pageSize" next = VNum size
       /\ (Forall (fun render => setDataMask render = setDataMask mount)
             rerenders ->
           forall k,
             k <> "currentPage" -> k <> "pageSize" ->
             lookup_prop k next
             = lookup_prop k (own_state (render_serverPaginationData mount))).
Proof.
  intros Hserver. exists 0%Z, size. unfold setPageSize. rewrite Hserver.
  split; [reflexivity |]. cbv zeta.
  unfold handleServerPaginationChange, spread_with. cbn [fold_left fst snd].
  split; [| split].
  - rewrite !lookup_prop_set_prop. reflexivity.
  - rewrite !lookup_prop_set_prop. reflexivity.
  - intros Hsame k Hpage Hsize.
    rewrite (useCallback_render_kept mount rerenders Hsame).
    rewrite !lookup_prop_set_prop.
    destruct (String.eqb_spec "pageSize" k); [congruence |].
    destruct (String.eqb_spec "currentPage" k); [congruence |].
    reflexivity.
Qed.

(** The chart is mounted on page 4 with pages of 10 rows; a search for
    [ada] then puts the search text into [serverPaginationData].  Choosing
    pages of 20 rows hands over an own state without the search text. *)
Lemma page_size_change_first_page_witness :
  let p :=
    {| serverPagination := true; rowCount := 45; data_length := 10;
       serverPaginationData :=
         Some {| sp_pageSize := Some 10%Z; sp_currentPage := Some 4%Z |};
       initialPageSize := 10;
       pageSizeOptions := [10; 20; 40]%Z;
       pageCount := 5; pageSize := 10; pageIndex := 4 |} in
  let mount :=
    {| setDataMask := 0;
       render_serverPaginationData :=
         Some [("currentPage", VNum 4); ("pageSize", VNum 10)] |} in
  let searched :=
    {| setDataMask := 0;
       render_serverPaginationData :=
         Some [("currentPage", VNum 0); ("pageSize", VNum 10);
               ("searchText", VStr "ada")] |} in
  serverPagination p = true
  /\ exists pageNumber pageSize,
       fst (setPageSize p 20) = Some (pageNumber, pageSize)
       /\ handleServerPaginationChange mount [searched] (VNum pageNumber)
            (VNum pageSize)
          = [("currentPage", VNum 0); ("pageSize", VNum 20)]
       /\ lookup_prop "searchText"
            (handleServerPaginationChange mount [searched] (VNum pageNumber)
               (VNum pageSize)) = VUndefined.
Proof.
  cbv zeta. split; [reflexivity |].
  destruct (page_size_change_first_page
              {| serverPagination := true; rowCount := 45; data_length := 10;
                 serverPaginationData :=
                   Some {| sp_pageSize := Some 10%Z;
                           sp_currentPage := Some 4%Z |};
                 initialPageSize := 10;
                 pageSizeOptions := [10; 20; 40]%Z;
                 pageCount := 5; pageSize := 10; pageIndex := 4 |} 20%Z
              {| setDataMask := 0;
                 render_serverPaginationData :=
                   Some [("currentPage", VNum 4); ("pageSize", VNum 10)] |}
              [{| setDataMask := 0;
                  render_serverPaginationData :=
                    Some [("currentPage", VNum 0); ("pageSize", VNum 10);
                          ("searchText", VStr "ada")] |}] eq_refl)
    as [pageNumber [pageSize [Hcall [_ [_ Hkept]]]]].
  exists pageNumber, pageSize. split; [exact Hcall |].
  injection Hcall as <- <-. split; [reflexivity |].
  exact (Hkept ltac:(repeat constructor) "searchText"
           ltac:(discriminate) ltac:(discriminate)).
Defined.

(** ** Global filter *)

(** X21. The global filter returns all rows, without consulting the
    matcher, for a filter value that is [undefined], [null] or the empty
    text, and for a filter object whose text is [null] or empty.  A filter
    object without a text is not read as an empty filter: the rows are
    matched against the text that the object itself prints as. *)
Theorem defaultGlobalFilter_empty (TableRow : Type)
    (matchSorter_column : list TableRow -> string -> JsVal -> list TableRow)
    (matchSorter_all : list TableRow -> string -> list string -> list TableRow)
    (rows : list TableRow) (columnIds : list string) (filterValue : JsVal) :
  let filter :=
    defaultGlobalFilter TableRow matchSorter_column matchSorter_all rows
      columnIds in
  (is_nullish filterValue = true \/ filterValue = VStr EmptyString ->
   filter filterValue = rows)
  /\ (forall props,
         filterValue = VObj props ->
         lookup_prop "text" props = VNull
         \/ lookup_prop "text" props = VStr EmptyString ->
         filter filterValue = rows)
  /\ (forall props,
         filterValue = VObj props ->
         lookup_prop "text" props = VUndefined ->
         filter filterValue = matchSorter_all rows "[object Object]" columnIds).
Proof.
  cbv zeta. unfold defaultGlobalFilter. split; [| split].
  - intros [Hnull | ->]; [| reflexivity].
    destruct filterValue; try discriminate; reflexivity.
  - intros props -> [Htext | Htext]; cbn [get_prop]; rewrite Htext;
      reflexivity.
  - intros props -> Htext. cbn [get_prop]. rewrite Htext. reflexivity.
Qed.

Lemma defaultGlobalFilter_empty_witness :
  let matcher (rows : list nat) (text : string) (columnIds : list string) :=
    if String.eqb text "[object Object]" then [] else rows in
  defaultGlobalFilter nat (fun rows _ _ => rows) matcher [1; 2] ["name"]
    (VObj [("text", VNull); ("column", VStr "name")]) = [1; 2]
  /\ defaultGlobalFilter nat (fun rows _ _ => rows) matcher [1; 2] ["name"]
       (VObj [("column", VStr "name")]) = [].
Proof.
  cbv zeta.
  pose proof (defaultGlobalFilter_empty nat (fun rows _ _ => rows)
                (fun rows text _ =>
                   if String.eqb text "[object Object]" then [] else rows)
                [1; 2] ["name"]) as Hfilter.
  split.
  - exact (proj1 (proj2 (Hfilter (VObj [("text", VNull);
                                        ("column", VStr "name")])))
             _ eq_refl (or_introl eq_refl)).
  - exact (proj2 (proj2 (Hfilter (VObj [("column", VStr "name")])))
             _ eq_refl eq_refl).
Defined.

(** ** Action settings *)

Lemma toBool_truthy (v fallback : JsVal) : toBool v fallback = VBool (truthy v).
Proof. now destruct v as [| | [|] | | | | | | | | |]. Qed.

Lemma toBool_again (v fallback : JsVal) :
  toBool (toBool v fallback) fallback = toBool v fallback.
Proof. now rewrite !toBool_truthy. Qed.

Lemma toStr_again (v : JsVal) (label : string) :
  toStr (toStr v (VStr label)) (VStr label) = toStr v (VStr label).
Proof. unfold toStr. now destruct (is_nullish v). Qed.

Lemma truthy_or_again (a b : JsVal) :
  truthy_or (truthy_or a b) b = truthy_or a b.
Proof.
  unfold truthy_or. destruct (truthy a) eqn:Ha; [now rewrite Ha |].
  now destruct (truthy b).
Qed.

Lemma nullish_or_again (a : JsVal) :
  nullish_or (nullish_or a (VArr [])) (VArr []) = nullish_or a (VArr []).
Proof. unfold nullish_or. destruct (is_nullish a) eqn:Ha; now rewrite ?Ha. Qed.

Lemma selection_mode_again (mode : JsVal) :
  let coerced :=
    if text_is mode "single" || text_is mode "multiple"
    then mode else VStr "multiple" in
  (if text_is coerced "single" || text_is coerced "multiple"
   then coerced else VStr "multiple") = coerced.
Proof.
  cbv zeta.
  destruct (text_is mode "single" || text_is mode "multiple") eqn:Hmode;
    [now rewrite Hmode | reflexivity].
Qed.

(** X22. Coercing settings that are already coerced changes nothing, for
    the same columns and value column: what the control emits is read back
    as it is. *)
Theorem coerceConfig_idempotent (value columns valueColumn : JsVal) :
  coerceConfig (coerceConfig value columns valueColumn) columns valueColumn
  = coerceConfig value columns valueColumn.
Proof.
  unfold coerceConfig.
  cbn [get_prop lookup_prop String.eqb Ascii.eqb Bool.eqb].
  apply (f_equal VObj).
  repeat (apply (f_equal2 cons); [apply (f_equal2 pair); [reflexivity |] |]);
    first [ reflexivity
          | apply toBool_again
          | apply toStr_again
          | apply truthy_or_again
          | apply nullish_or_again
          | apply selection_mode_again ].
Qed.

(** X23. Neither the fallback of [toBool] nor the legacy flags ever reach
    the settings: [toBool] answers the truth value of its first argument,
    and the effect that merges the legacy flags leaves coerced settings as
    they are, whatever the flags. *)
Theorem legacy_flags_unused (value columns valueColumn : JsVal)
    (bulkEnabledLegacy selectionEnabledLegacy tableActionsEnabledLegacy
       : JsVal) :
  (forall v fallback, toBool v fallback = VBool (truthy v))
  /\ exists props,
       coerceConfig value columns valueColumn = VObj props
       /\ merge_legacy props bulkEnabledLegacy selectionEnabledLegacy
            tableActionsEnabledLegacy = props.
Proof.
  split; [exact toBool_truthy |].
  eexists. split; [reflexivity |].
  unfold merge_legacy, spread_with.
  cbn [lookup_prop String.eqb Ascii.eqb Bool.eqb].
  rewrite !toBool_truthy. cbn [nullish_or is_nullish fold_left fst snd].
  cbn [set_prop String.eqb Ascii.eqb Bool.eqb]. reflexivity.
Qed.

(** ** Time comparison menu *)

Lemma handleOnClick_tidy (key : string) (selected : list string) :
  tidy_selection selected -> tidy_selection (handleOnClick key selected).
Proof.
  intros [Hnodup Hall]. unfold handleOnClick.
  assert (Hone : forall k : string, List.NoDup [k])
    by (intros k; constructor; [intros [] | constructor]).
  destruct (String.eqb_spec key allKey) as [-> | Hkey].
  - split; [apply Hone | reflexivity].
  - destruct (includes allKey selected) eqn:Hhas.
    + split; [apply Hone |]. intros [Heq | []]. congruence.
    + assert (Hnot : ~ In allKey selected).
      { intros Hin. apply includes_In in Hin. congruence. }
      destruct (includes key selected) eqn:Hkeyin.
      * split.
        -- now apply List.NoDup_filter.
        -- intros Hin. apply filter_In in Hin as [Hin _]. contradiction.
      * split.
        -- apply List.NoDup_app; [exact Hnodup | apply Hone |].
           intros x Hx [<- | []]. apply includes_In in Hx. congruence.
        -- intros Hin. apply in_app_or in Hin as [Hin | [Heq | []]];
             [contradiction | congruence].
Qed.

Lemma handleOnBlur_tidy (selected : list string) :
  tidy_selection selected -> tidy_selection (handleOnBlur selected).
Proof.
  intros Htidy. unfold handleOnBlur.
  destruct (Nat.eqb (List.length selected) 3); [| exact Htidy].
  split; [| reflexivity]. constructor; [intros [] | constructor].
Qed.

(** X24. Whatever is clicked in the time comparison menu, and whenever it
    loses the focus, the selection of comparison columns is either the one
    key that stands for all columns or a list of other keys in which none is
    repeated; and with three other keys selected, losing the focus sets it
    to the key for all columns. *)
Theorem menu_run_tidy (events : list MenuEvent) :
  let selected := menu_run events in
  List.NoDup selected
  /\ (In allKey selected -> selected = [allKey])
  /\ (List.length selected = 3 -> handleOnBlur selected = [allKey]).
Proof.
  cbv zeta.
  assert (Htidy : tidy_selection (menu_run events)).
  { unfold menu_run.
    assert (Hstart : tidy_selection [allKey]).
    { split; [| reflexivity]. constructor; [intros [] | constructor]. }
    revert Hstart. generalize [allKey].
    induction events as [| event rest IH]; intros selected Hsel;
      [exact Hsel |].
    cbn [fold_left]. apply IH.
    destruct event; [now apply handleOnClick_tidy | now apply handleOnBlur_tidy]. }
  destruct Htidy as [Hnodup Hall]. split; [exact Hnodup |].
  split; [exact Hall |].
  intros Hlen. unfold handleOnBlur. now rewrite Hlen.
Qed.

Lemma menu_run_tidy_witness :
  let events := [MenuClick "a"; MenuClick "b"; MenuClick "c"] in
  menu_run events = ["a"; "b"; "c"]
  /\ handleOnBlur (menu_run events) = [allKey].
Proof.
  cbv zeta. split; [reflexivity |].
  exact (proj2 (proj2 (menu_run_tidy
                         [MenuClick "a"; MenuClick "b"; MenuClick "c"]))
           eq_refl).
Defined.

(** ** Column order *)

Lemma findIndex_range {A : Type} (test : A -> bool) (l : list A) :
  findIndex test l = (-1)%Z
  \/ (0 <= findIndex test l < Z.of_nat (List.length l))%Z.
Proof.
  induction l as [| x rest IH]; [now left |].
  cbn [findIndex List.length]. destruct (test x); [right; lia |].
  destruct IH as [-> | Hrange]; [now left |].
  destruct (Z.ltb_spec (findIndex test rest) 0); [lia |]. right. lia.
Qed.

Lemma splice_one_inside {A : Type} (start : nat) (l : list A) (d : A) :
  start < List.length l ->
  splice_one (Z.of_nat start) l
  = ([List.nth start l d],
     (firstn start l ++ skipn (S start) l)%list).
Proof.
  intros Hin. unfold splice_one.
  destruct (Z.ltb_spec (Z.of_nat start) 0) as [Hneg | _]; [lia |].
  rewrite Z.min_l by lia. rewrite Nat2Z.id. f_equal.
  revert start Hin. induction l as [| x rest IH]; intros start Hin;
    [cbn in Hin; lia |].
  destruct start as [| start]; [reflexivity |].
  cbn [skipn List.nth]. apply IH. cbn in Hin. lia.
Qed.

Lemma splice_one_last {A : Type} (l : list A) (d : A) :
  l <> [] ->
  splice_one (-1) l
  = ([List.nth (List.length l - 1) l d],
     (firstn (List.length l - 1) l ++ skipn (S (List.length l - 1)) l)%list).
Proof.
  intros Hsome.
  assert (Hlen : 0 < List.length l) by (destruct l; [contradiction | cbn; lia]).
  rewrite <- (splice_one_inside (List.length l - 1) l d) by lia.
  unfold splice_one. cbn [Z.ltb Z.compare].
  destruct (Z.ltb_spec (Z.of_nat (List.length l - 1)) 0); [lia |].
  repeat f_equal; lia.
Qed.

Lemma taken_out_Permutation {A : Type} (a : nat) (l : list A) (d : A) :
  a < List.length l ->
  Permutation (List.nth a l d :: firstn a l ++ skipn (S a) l) l.
Proof.
  revert a. induction l as [| x rest IH]; intros a Ha; [cbn in Ha; lia |].
  destruct a as [| a]; [reflexivity |].
  cbn [List.nth firstn skipn app]. cbn in Ha.
  rewrite perm_swap. constructor. apply IH. lia.
Qed.

Lemma splice_insert_Permutation {A : Type} (pos : nat) (x : A) (l : list A) :
  Permutation (splice_insert pos x l) (x :: l).
Proof.
  unfold splice_insert. rewrite <- Permutation_middle.
  now rewrite firstn_skipn.
Qed.

Lemma splice_insert_nth {A : Type} (pos : nat) (x d : A) (l : list A) :
  pos <= List.length l -> List.nth pos (splice_insert pos x l) d = x.
Proof.
  intros Hpos. unfold splice_insert.
  rewrite app_nth2; rewrite length_firstn, Nat.min_l by lia; [| lia].
  now rewrite Nat.sub_diag.
Qed.

Lemma nth_map_id (n : nat) (columns : list JsVal) :
  List.nth n (List.map (fun c => get_prop c "id") columns) VUndefined
  = get_prop (List.nth n columns VUndefined) "id".
Proof.
  change VUndefined with (get_prop VUndefined "id") at 1.
  apply (map_nth (fun c => get_prop c "id")).
Qed.

(** The columns in the order that [onDrop] computes. *)
Lemma onDrop_order (chartId : JsVal) (allColumns : list JsVal)
    (columnBeingDragged : Z) (columnName : option string)
    (localStorage : gmap string string) (order : list JsVal) :
  (-1 <= columnBeingDragged < Z.of_nat (List.length allColumns))%Z ->
  fst (onDrop chartId allColumns columnBeingDragged columnName localStorage)
  = Some order ->
  let moved :=
    if (columnBeingDragged =? -1)%Z then List.length allColumns - 1
    else Z.to_nat columnBeingDragged in
  let pos := Z.to_nat (findIndex (named columnName) allColumns) in
  let reordered :=
    splice_insert pos (List.nth moved allColumns VUndefined)
      (firstn moved allColumns ++ skipn (S moved) allColumns) in
  moved < List.length allColumns
  /\ pos < List.length allColumns
  /\ order = List.map (fun c => get_prop c "id") reordered
  /\ onDrop chartId allColumns columnBeingDragged columnName localStorage
     = (Some order,
        if truthy chartId then
          match JSON_stringify
                  (VArr (List.map VStr
                           (present_texts
                              (List.map
                                 (fun id =>
                                    map_get (ToString id) (keyById allColumns))
                                 order)))) with
          | Text text => <[column_order_key chartId := text]> localStorage
          | Omitted | TypeError => localStorage
          end
        else localStorage).
Proof.
  intros Hrange Hdrop. cbv zeta. unfold onDrop in *.
  set (ids := List.map (fun c => get_prop c "id") allColumns) in *.
  set (found := findIndex (named columnName) allColumns) in *.
  destruct (Z.eqb_spec found (-1)) as [Hnone | Hfound]; [discriminate |].
  assert (Hpos : (0 <= found < Z.of_nat (List.length allColumns))%Z).
  { destruct (findIndex_range (named columnName) allColumns); [contradiction |].
    assumption. }
  assert (Hlen : List.length ids = List.length allColumns)
    by (subst ids; apply length_map).
  assert (Hsome : ids <> []).
  { intros Hnil. rewrite Hnil in Hlen. cbn in Hlen. lia. }
  set (moved := if (columnBeingDragged =? -1)%Z
                then List.length allColumns - 1
                else Z.to_nat columnBeingDragged).
  assert (Hmoved : moved < List.length allColumns).
  { subst moved. destruct (Z.eqb_spec columnBeingDragged (-1)); lia. }
  assert (Hsplice :
            splice_one columnBeingDragged ids
            = ([List.nth moved ids VUndefined],
               (firstn moved ids ++ skipn (S moved) ids)%list)).
  { subst moved. destruct (Z.eqb_spec columnBeingDragged (-1)) as [-> | Hne].
    - rewrite <- Hlen. now apply splice_one_last.
    - rewrite <- (splice_one_inside (Z.to_nat columnBeingDragged) ids VUndefined)
        by lia.
      f_equal. lia. }
  rewrite Hsplice in Hdrop |- *. cbn [fst List.nth] in Hdrop |- *.
  injection Hdrop as <-.
  split; [exact Hmoved |]. split; [lia |]. split; [| reflexivity].
  unfold splice_insert. subst ids.
  rewrite List.map_app. cbn [List.map].
  rewrite <- !firstn_map, <- !skipn_map, List.map_app.
  rewrite <- !firstn_map, <- !skipn_map.
  now rewrite nth_map_id.
Qed.

(** X25. A drop on a column header always gives the table the same columns
    in a new order, none lost and none twice.  The column that moves is the
    dragged one, and it ends at the position of the column it was dropped
    on; when no drag was recorded in the same render (the counter still
    holds [-1]) it is the last column that moves. *)
Theorem onDrop_reorders (chartId : JsVal) (allColumns : list JsVal)
    (columnBeingDragged : Z) (columnName : option string)
    (localStorage : gmap string string) (order : list JsVal) :
  (-1 <= columnBeingDragged < Z.of_nat (List.length allColumns))%Z ->
  fst (onDrop chartId allColumns columnBeingDragged columnName localStorage)
  = Some order ->
  let ids := List.map (fun c => get_prop c "id") allColumns in
  let moved :=
    if (columnBeingDragged =? -1)%Z then List.length ids - 1
    else Z.to_nat columnBeingDragged in
  Permutation order ids
  /\ List.nth (Z.to_nat (onDragStart allColumns columnName)) order VUndefined
     = List.nth moved ids VUndefined.
Proof.
  intros Hrange Hdrop. cbv zeta.
  destruct (onDrop_order chartId allColumns columnBeingDragged columnName
              localStorage order Hrange Hdrop)
    as [Hmoved [Hpos [-> _]]].
  rewrite length_map. unfold onDragStart.
  set (moved := if (columnBeingDragged =? -1)%Z
                then List.length allColumns - 1
                else Z.to_nat columnBeingDragged) in *.
  split.
  - apply Permutation_map. rewrite splice_insert_Permutation.
    now apply taken_out_Permutation.
  - rewrite !nth_map_id. f_equal.
    apply splice_insert_nth.
    rewrite length_app, length_firstn, length_skipn. lia.
Qed.

Lemma onDrop_reorders_witness :
  let allColumns :=
    [VObj [("id", VStr "0"); ("columnKey", VStr "name")];
     VObj [("id", VStr "1"); ("columnKey", VStr "city")];
     VObj [("id", VStr "2"); ("columnKey", VStr "amount")]] in
  (-1 <= -1 < Z.of_nat (List.length allColumns))%Z
  /\ fst (onDrop (VNum 7) allColumns (-1) (Some "0") ∅)
     = Some [VStr "2"; VStr "0"; VStr "1"]
  /\ Permutation [VStr "2"; VStr "0"; VStr "1"]
       (List.map (fun c => get_prop c "id") allColumns).
Proof.
  cbv zeta. split; [cbn; lia |]. split; [reflexivity |].
  refine (proj1
    (onDrop_reorders (VNum 7)
       [VObj [("id", VStr "0"); ("columnKey", VStr "name")];
        VObj [("id", VStr "1"); ("columnKey", VStr "city")];
        VObj [("id", VStr "2"); ("columnKey", VStr "amount")]]
       (-1) (Some "0") ∅ [VStr "2"; VStr "0"; VStr "1"] _ eq_refl)).
  cbn. lia.
Defined.

Lemma fold_map_set_other {A V : Type} (f : A -> string) (g : A -> V)
    (l : list A) (m : JsMap V) (k : string) :
  ~ In k (List.map f l) ->
  map_get k (fold_left (fun m c => map_set (f c) (g c) m) l m) = map_get k m.
Proof.
  revert m. induction l as [| c rest IH]; intros m Hout; [reflexivity |].
  cbn [fold_left]. rewrite IH.
  - apply map_get_set_ne. intros Heq. apply Hout. now left.
  - intros Hin. apply Hout. now right.
Qed.

Lemma fold_map_set_get {A V : Type} (f : A -> string) (g : A -> V)
    (l : list A) (m : JsMap V) (c : A) :
  List.NoDup (List.map f l) -> In c l ->
  map_get (f c) (fold_left (fun m c => map_set (f c) (g c) m) l m)
  = Some (g c).
Proof.
  revert m. induction l as [| x rest IH]; intros m Hnodup Hin; [contradiction |].
  cbn [List.map] in Hnodup. apply List.NoDup_cons_iff in Hnodup as [Hfresh Hnodup].
  cbn [fold_left]. destruct Hin as [-> | Hin].
  - rewrite fold_map_set_other by exact Hfresh. apply map_get_set_eq.
  - now apply IH.
Qed.

Lemma keyed_column_texts (c : JsVal) :
  keyed_column c ->
  ~ is_nullish c = true
  /\ id_text c <> EmptyString /\ key_text c <> EmptyString
  /\ get_prop c "id" = VStr (id_text c)
  /\ get_prop c "columnKey" = VStr (key_text c).
Proof.
  intros [[props ->] [[id [Hid Hid_some]] [key [Hkey Hkey_some]]]].
  unfold id_text, key_text. rewrite Hid, Hkey. cbn [ToString is_nullish].
  repeat split; try assumption; try reflexivity; discriminate.
Qed.

Lemma keyById_keyed (allColumns : list JsVal) (c : JsVal) :
  keyed_columns allColumns -> In c allColumns ->
  map_get (id_text c) (keyById allColumns) = Some (key_text c).
Proof.
  intros [Hkeyed [Hids _]] Hin.
  pose proof (fold_map_set_get id_text
                (fun c => ToString (truthy_or (get_prop c "columnKey")
                                      (get_prop c "id")))
                allColumns [] c Hids Hin) as Hget.
  change (map_get (id_text c) (keyById allColumns)
          = Some (ToString (truthy_or (get_prop c "columnKey")
                              (get_prop c "id")))) in Hget.
  rewrite Hget.
  pose proof (proj1 (List.Forall_forall _ _) Hkeyed c Hin) as Hc.
  destruct (keyed_column_texts c Hc) as [_ [_ [Hkey [_ Hread]]]].
  rewrite Hread. unfold truthy_or. cbn [truthy].
  destruct (String.eqb_spec (key_text c) EmptyString); [contradiction |].
  reflexivity.
Qed.

Lemma colIdByKey_fold (columns : list JsVal) (m : JsMap string) :
  Forall keyed_column columns ->
  fold_left
    (fun m col =>
       match col with
       | VObj _ | VArr _ | VDate _ _ | VSet _ =>
           let id := get_prop col "id" in
           let key := get_prop col "columnKey" in
           if negb (is_nullish id) && negb (is_nullish key)
           then map_set (ToString key) (ToString id) m
           else m
       | _ => m
       end)
    columns m
  = fold_left (fun m c => map_set (key_text c) (id_text c) m) columns m.
Proof.
  revert m. induction columns as [| c rest IH]; intros m Hkeyed;
    [reflexivity |].
  apply List.Forall_cons_iff in Hkeyed as [Hc Hrest].
  cbn [fold_left]. rewrite <- (IH _ Hrest). f_equal.
  destruct (keyed_column_texts c Hc) as [_ [_ [_ [Hid Hkey]]]].
  destruct Hc as [[props ->] _]. cbv zeta.
  rewrite Hid, Hkey. reflexivity.
Qed.

Lemma colIdByKey_keyed (columns : list JsVal) (c : JsVal) :
  keyed_columns columns -> In c columns ->
  map_get (key_text c) (colIdByKey columns) = Some (id_text c).
Proof.
  intros [Hkeyed [_ Hkeys]] Hin. unfold colIdByKey.
  rewrite colIdByKey_fold by exact Hkeyed.
  now apply fold_map_set_get.
Qed.

Lemma column_ids_keyed (columns : list JsVal) :
  Forall keyed_column columns ->
  column_ids columns = Some (List.map id_text columns).
Proof.
  induction columns as [| c rest IH]; intros Hkeyed; [reflexivity |].
  apply List.Forall_cons_iff in Hkeyed as [Hc Hrest].
  cbn [column_ids List.map]. rewrite (IH Hrest).
  destruct (keyed_column_texts c Hc) as [Hnull _].
  destruct (is_nullish c); [now destruct Hnull | reflexivity].
Qed.

Lemma present_texts_all {A : Type} (text : A -> string) (l : list A) :
  (forall x, In x l -> text x <> EmptyString) ->
  present_texts (List.map (fun x => Some (text x)) l) = List.map text l.
Proof.
  induction l as [| x rest IH]; intros Hsome; [reflexivity |].
  unfold present_texts in *. cbn [List.map flat_map].
  destruct (String.eqb_spec (text x) EmptyString) as [Hempty | _].
  - now destruct (Hsome x (or_introl eq_refl)).
  - cbn [app]. f_equal. apply IH. intros y Hy. apply Hsome. now right.
Qed.

Lemma texts_plain (texts : list string) :
  json_plain (VArr (List.map VStr texts)) = true.
Proof. induction texts as [| t rest IH]; [reflexivity | exact IH]. Qed.

Lemma filter_none {A : Type} (f : A -> bool) (l : list A) :
  (forall x, In x l -> f x = false) -> List.filter f l = [].
Proof.
  induction l as [| x rest IH]; intros Hnone; [reflexivity |].
  cbn [List.filter]. rewrite (Hnone x (or_introl eq_refl)).
  apply IH. intros y Hy. apply Hnone. now right.
Qed.

Lemma keyed_columns_Permutation (columns columns' : list JsVal) :
  Permutation columns columns' -> keyed_columns columns ->
  keyed_columns columns'.
Proof.
  intros Hperm [Hkeyed [Hids Hkeys]]. split; [| split].
  - apply List.Forall_forall. intros c Hc.
    apply (proj1 (List.Forall_forall _ _) Hkeyed).
    apply (Permutation_in _ (Permutation_sym Hperm) Hc).
  - eapply Permutation_NoDup; [| exact Hids]. now apply Permutation_map.
  - eapply Permutation_NoDup; [| exact Hkeys]. now apply Permutation_map.
Qed.

(** X26. When every column carries an id and a column key, texts that are
    not empty and not used twice, the order that a drop gives the table is
    the order the table starts with after a reload: what [onDrop] writes to
    the storage of the chart, [initialColumnOrder] reads back as the same
    list of column ids. *)
Theorem column_order_roundtrip (chartId : JsVal)
    (columns allColumns : list JsVal) (columnBeingDragged : Z)
    (columnName : option string) (localStorage : gmap string string)
    (order : list JsVal) :
  truthy chartId = true ->
  keyed_columns allColumns ->
  Permutation columns allColumns ->
  (-1 <= columnBeingDragged < Z.of_nat (List.length allColumns))%Z ->
  fst (onDrop chartId allColumns columnBeingDragged columnName localStorage)
  = Some order ->
  initialColumnOrder chartId columns
    (snd (onDrop chartId allColumns columnBeingDragged columnName
            localStorage))
  = Some (List.map ToString order).
Proof.
  intros Hchart Hkeyed Hperm Hrange Hdrop.
  destruct (onDrop_order chartId allColumns columnBeingDragged columnName
              localStorage order Hrange Hdrop)
    as [Hmoved [Hpos [Horder Hstored]]].
  cbv zeta in Horder, Hstored.
  set (reordered :=
         splice_insert (Z.to_nat (findIndex (named columnName) allColumns))
           (List.nth
              (if (columnBeingDragged =? -1)%Z
               then List.length allColumns - 1
               else Z.to_nat columnBeingDragged) allColumns VUndefined)
           (firstn
              (if (columnBeingDragged =? -1)%Z
               then List.length allColumns - 1
               else Z.to_nat columnBeingDragged) allColumns
            ++ skipn
                 (S (if (columnBeingDragged =? -1)%Z
                     then List.length allColumns - 1
                     else Z.to_nat columnBeingDragged)) allColumns)) in *.
  assert (Hre : Permutation reordered allColumns).
  { subst reordered. rewrite splice_insert_Permutation.
    now apply taken_out_Permutation. }
  pose proof (keyed_columns_Permutation _ _ (Permutation_sym Hperm) Hkeyed)
    as Hkeyed_columns.
  assert (Hin_all : forall c, In c reordered -> In c allColumns)
    by (intros c Hc; exact (Permutation_in _ Hre Hc)).
  assert (Hin_columns : forall c, In c reordered -> In c columns).
  { intros c Hc. apply (Permutation_in _ (Permutation_sym Hperm)).
    now apply Hin_all. }
  assert (Htexts : forall c, In c reordered ->
                     id_text c <> EmptyString /\ key_text c <> EmptyString).
  { intros c Hc. destruct Hkeyed as [Hall _].
    pose proof (proj1 (List.Forall_forall _ _) Hall c (Hin_all c Hc)) as Hk.
    destruct (keyed_column_texts c Hk) as [_ [Hid [Hkey _]]]. now split. }
  assert (Hkeys :
            present_texts
              (List.map (fun id => map_get (ToString id) (keyById allColumns))
                 order)
            = List.map key_text reordered).
  { rewrite Horder, List.map_map.
    rewrite <- (present_texts_all key_text reordered)
      by (intros c Hc; apply (Htexts c Hc)).
    f_equal. apply List.map_ext_in. intros c Hc.
    apply (keyById_keyed allColumns c Hkeyed (Hin_all c Hc)). }
  rewrite Hstored, Hchart, Hkeys. cbn [snd].
  destruct (JSON_roundtrip (VArr (List.map VStr (List.map key_text reordered)))
              (texts_plain _)) as [text [Htext [Hsome Hparse]]].
  rewrite Htext. unfold initialColumnOrder. rewrite Hchart.
  rewrite lookup_insert_eq.
  destruct (String.eqb_spec text EmptyString) as [Hempty | _];
    [contradiction |].
  rewrite Hparse.
  assert (Hids :
            present_texts
              (List.map (fun k => map_get (ToString k) (colIdByKey columns))
                 (List.map VStr (List.map key_text reordered)))
            = List.map id_text reordered).
  { rewrite !List.map_map. cbn [ToString].
    rewrite <- (present_texts_all id_text reordered)
      by (intros c Hc; apply (Htexts c Hc)).
    f_equal. apply List.map_ext_in. intros c Hc.
    apply (colIdByKey_keyed columns c Hkeyed_columns (Hin_columns c Hc)). }
  rewrite Hids.
  rewrite (column_ids_keyed columns (proj1 Hkeyed_columns)).
  assert (Hnone :
            List.filter
              (fun id => negb (includes id (List.map id_text reordered)))
              (List.map id_text columns) = []).
  { apply filter_none. intros id Hid. apply in_map_iff in Hid as [c [<- Hc]].
    apply negb_false_iff. apply includes_In. apply in_map.
    apply (Permutation_in _ (Permutation_sym Hre)).
    exact (Permutation_in _ Hperm Hc). }
  rewrite Hnone, app_nil_r. f_equal.
  rewrite Horder, List.map_map. reflexivity.
Qed.

Lemma column_order_roundtrip_witness :
  let allColumns :=
    [VObj [("id", VStr "0"); ("columnKey", VStr "name")];
     VObj [("id", VStr "1"); ("columnKey", VStr "city")];
     VObj [("id", VStr "2"); ("columnKey", VStr "amount")]] in
  keyed_columns allColumns
  /\ initialColumnOrder (VNum 7) allColumns
       (snd (onDrop (VNum 7) allColumns 2 (Some "0") ∅))
     = Some ["2"; "0"; "1"].
Proof.
  cbv zeta.
  assert (Hkeyed :
    keyed_columns
      [VObj [("id", VStr "0"); ("columnKey", VStr "name")];
       VObj [("id", VStr "1"); ("columnKey", VStr "city")];
       VObj [("id", VStr "2"); ("columnKey", VStr "amount")]]).
  { split; [| split].
    - repeat constructor; try (now eexists);
        (eexists; split; [reflexivity | discriminate]).
    - repeat constructor; cbn; intuition discriminate.
    - repeat constructor; cbn; intuition discriminate. }
  split; [exact Hkeyed |].
  refine (column_order_roundtrip (VNum 7) _ _ 2 (Some "0") ∅
            [VStr "2"; VStr "0"; VStr "1"] eq_refl Hkeyed
            (Permutation_refl _) _ eq_refl).
  cbn. lia.
Defined.

Lemma colIdByKey_snoc (columns : list JsVal) (c : JsVal) :
  colIdByKey (columns ++ [c])
  = match c with
    | VObj _ | VArr _ | VDate _ _ | VSet _ =>
        if negb (is_nullish (get_prop c "id"))
           && negb (is_nullish (get_prop c "columnKey"))
        then map_set (key_text c) (id_text c) (colIdByKey columns)
        else colIdByKey columns
    | _ => colIdByKey columns
    end.
Proof.
  unfold colIdByKey. rewrite fold_left_app. cbn [fold_left].
  destruct c; reflexivity.
Qed.

(** What [colIdByKey] answers for a key is the id of the last column that
    carries the key. *)
Lemma colIdByKey_column_of_key (columns : list JsVal) (key : string) :
  map_get key (colIdByKey columns)
  = option_map id_text (column_of_key columns key).
Proof.
  induction columns as [| c rest IH] using rev_ind; [reflexivity |].
  rewrite colIdByKey_snoc. unfold column_of_key in *.
  rewrite rev_app_distr. cbn [List.rev List.app List.find].
  destruct c; cbn [has_key]; try exact IH.
  - destruct (negb (is_nullish (get_prop (VObj props) "id"))
              && negb (is_nullish (get_prop (VObj props) "columnKey")));
      cbn [andb]; [| exact IH].
    destruct (String.eqb_spec (key_text (VObj props)) key) as [-> | Hne].
    + now rewrite map_get_set_eq.
    + rewrite map_get_set_ne by exact Hne. exact IH.
Qed.

Lemma present_texts_ids_found (columns savedKeys : list JsVal) :
  present_texts
    (List.map (fun k => map_get (ToString k) (colIdByKey columns)) savedKeys)
  = ids_found columns savedKeys.
Proof.
  unfold present_texts, ids_found.
  induction savedKeys as [| k rest IH]; [reflexivity |].
  cbn [List.map List.flat_map]. rewrite IH, colIdByKey_column_of_key.
  now destruct (column_of_key columns (ToString k)).
Qed.

Lemma column_ids_texts (columns : list JsVal) (ids : list string) :
  column_ids columns = Some ids -> ids = List.map id_text columns.
Proof.
  revert ids. induction columns as [| c rest IH]; intros ids Hids.
  - now injection Hids as <-.
  - cbn [column_ids] in Hids. destruct (is_nullish c); [discriminate |].
    destruct (column_ids rest) as [ids' |]; [| discriminate].
    injection Hids as <-. cbn [List.map]. now rewrite (IH ids' eq_refl).
Qed.

Lemma column_of_key_Some (columns : list JsVal) (key : string) (d : JsVal) :
  column_of_key columns key = Some d ->
  In d columns /\ is_nullish (get_prop d "columnKey") = false.
Proof.
  unfold column_of_key. intros Hfind. apply find_some in Hfind as [Hin Hkey].
  split; [now apply in_rev |].
  destruct d; try discriminate. cbn [has_key] in Hkey.
  apply andb_true_iff in Hkey as [Hkey _].
  apply andb_true_iff in Hkey as [_ Hkey].
  now apply negb_true_iff in Hkey.
Qed.

(** X27. A column without a column key, such as the selection column and
    the actions column that the chart adds, is never found among the saved
    keys.  Whenever an order is restored, the stored text is an array of
    saved keys, and the order lists first, in the order of the saved keys,
    the ids of the columns that the saved keys find (for each key the last
    column that carries it), and after them, in the order of the columns,
    the ids of all columns that are not among those; a column whose id is
    not the id of any column with a column key is among the latter,
    wherever it stood when the order was saved. *)
Theorem unkeyed_column_restored_last (chartId : JsVal) (columns : list JsVal)
    (localStorage : gmap string string) (order : list string) (c : JsVal) :
  initialColumnOrder chartId columns localStorage = Some order ->
  In c columns ->
  (forall d,
      In d columns ->
      is_nullish (get_prop d "columnKey") = false ->
      id_text d <> id_text c) ->
  exists text savedKeys,
    localStorage !! column_order_key chartId = Some text
    /\ JSON_parse text = Some (VArr savedKeys)
    /\ let saved := ids_found columns savedKeys in
       let remaining :=
         List.filter (fun id => negb (List.existsb (String.eqb id) saved))
           (List.map id_text columns) in
       order = (saved ++ remaining)%list
       /\ ~ In (id_text c) saved
       /\ In (id_text c) remaining.
Proof.
  unfold initialColumnOrder. intros Horder Hin Hunkeyed.
  destruct (truthy chartId); [| discriminate].
  destruct (localStorage !! column_order_key chartId) as [text |] eqn:Hitem;
    [| discriminate].
  destruct (String.eqb text EmptyString); [discriminate |].
  destruct (JSON_parse text) as [parsed |] eqn:Hparse; [| discriminate].
  destruct parsed as [| | | | | | | savedKeys | | | |]; try discriminate.
  destruct (column_ids columns) as [ids |] eqn:Hids; [| discriminate].
  injection Horder as <-. apply column_ids_texts in Hids as ->.
  rewrite present_texts_ids_found.
  exists text, savedKeys. split; [reflexivity |]. split; [exact Hparse |].
  cbv zeta.
  assert (Hnot : ~ In (id_text c) (ids_found columns savedKeys)).
  { unfold ids_found. intros Hsaved.
    apply in_flat_map in Hsaved as [k [_ Hk]].
    destruct (column_of_key columns (ToString k)) as [d |] eqn:Hfind;
      [| contradiction].
    apply column_of_key_Some in Hfind as [Hd Hkey].
    destruct (String.eqb (id_text d) EmptyString); [contradiction |].
    destruct Hk as [Heq | []]. exact (Hunkeyed d Hd Hkey Heq). }
  split; [reflexivity |]. split; [exact Hnot |].
  apply filter_In. split; [now apply in_map |].
  apply negb_true_iff. apply not_true_is_false. intros Hinc.
  apply existsb_exists in Hinc as [x [Hx Heq]].
  apply String.eqb_eq in Heq as <-. contradiction.
Qed.

Lemma unkeyed_column_restored_last_witness :
  let columns :=
    [VObj [("id", VStr "selection")];
     VObj [("id", VStr "0"); ("columnKey", VStr "name")];
     VObj [("id", VStr "1"); ("columnKey", VStr "city")]] in
  let stored := snd (onDrop (VNum 7) columns 2 (Some "0") ∅) in
  fst (onDrop (VNum 7) columns 2 (Some "0") ∅)
  = Some [VStr "selection"; VStr "1"; VStr "0"]
  /\ initialColumnOrder (VNum 7) columns stored
     = Some ["1"; "0"; "selection"]
  /\ exists text savedKeys,
       stored !! column_order_key (VNum 7) = Some text
       /\ JSON_parse text = Some (VArr savedKeys)
       /\ let saved := ids_found columns savedKeys in
          let remaining :=
            List.filter (fun id => negb (List.existsb (String.eqb id) saved))
              (List.map id_text columns) in
          ["1"; "0"; "selection"] = (saved ++ remaining)%list
          /\ ~ In "selection" saved
          /\ In "selection" remaining.
Proof.
  cbv zeta. split; [vm_compute; reflexivity |].
  split; [vm_compute; reflexivity |].
  refine (unkeyed_column_restored_last (VNum 7)
            [VObj [("id", VStr "selection")];
             VObj [("id", VStr "0"); ("columnKey", VStr "name")];
             VObj [("id", VStr "1"); ("columnKey", VStr "city")]]
            (snd (onDrop (VNum 7)
                    [VObj [("id", VStr "selection")];
                     VObj [("id", VStr "0"); ("columnKey", VStr "name")];
                     VObj [("id", VStr "1"); ("columnKey", VStr "city")]]
                    2 (Some "0") ∅))
            ["1"; "0"; "selection"]
            (VObj [("id", VStr "selection")]) _ _ _).
  - vm_compute. reflexivity.
  - now left.
  - intros d [<- | [<- | [<- | []]]] Hkey; cbn in *; discriminate.
Defined.

(** ** Progress indicator of the filter bar *)

Lemma progress_step_sound (s : Progress) (event : ProgressEvent) :
  progress_sound s -> progress_sound (progress_step s event).
Proof.
  intros [Hshown Hdue]. destruct event as [raw now | now].
  - cbn [progress_step]. unfold progress_effect.
    destruct raw, (progressVisible s) eqn:Hvis; cbn [negb]; split;
      cbn [progressVisible visibleSinceRef hideRef];
      try discriminate; try (intros _; now apply Hshown);
      try (intros _; now eexists).
    intros due [= <-]. split; [reflexivity |].
    destruct (Hshown eq_refl) as [since Hsince]. rewrite Hsince.
    exists since. split; [reflexivity |]. unfold MIN_VISIBLE_MS. lia.
  - cbn [progress_step]. destruct (hideRef s) as [due |] eqn:Hhide.
    + destruct (due <=? now)%Z.
      * split; cbn; discriminate.
      * split; [exact Hshown |]. rewrite Hhide. exact Hdue.
    + split; [exact Hshown |]. rewrite Hhide. exact Hdue.
Qed.

Lemma progress_run_sound (events : list ProgressEvent) :
  progress_sound (progress_run events).
Proof.
  unfold progress_run.
  assert (Hstart : progress_sound progress_start)
    by (split; cbn; discriminate).
  revert Hstart. generalize progress_start.
  induction events as [| event rest IH]; intros s Hs; [exact Hs |].
  cbn [fold_left]. apply IH. now apply progress_step_sound.
Qed.

(** X28. The progress indicator of the filter bar is never hidden before it
    has been visible for [MIN_VISIBLE_MS]: after any run of the effect and
    of the timer, a step that hides the indicator is the timer firing at
    least 400 ms after the time at which the indicator was shown. *)
Theorem progress_min_visible (events : list ProgressEvent)
    (event : ProgressEvent) :
  progressVisible (progress_run events) = true ->
  progressVisible (progress_step (progress_run events) event) = false ->
  exists since now,
    visibleSinceRef (progress_run events) = Some since
    /\ event = TimerFires now
    /\ (since + 400 <= now)%Z.
Proof.
  intros Hshown Hhidden.
  destruct (progress_run_sound events) as [_ Hdue].
  destruct event as [raw now | now]; cbn [progress_step] in Hhidden.
  - unfold progress_effect in Hhidden. rewrite Hshown in Hhidden.
    destruct raw; cbn in Hhidden; discriminate.
  - destruct (hideRef (progress_run events)) as [due |] eqn:Hhide;
      [| congruence].
    destruct (Z.leb_spec due now) as [Hfired | Hearly]; [| congruence].
    destruct (Hdue due eq_refl) as [_ [since [Hsince Hlate]]].
    exists since, now. split; [exact Hsince |]. split; [reflexivity |].
    unfold MIN_VISIBLE_MS in Hlate. lia.
Qed.

Lemma progress_min_visible_witness :
  let events := [EffectRuns true 1000; EffectRuns false 1100]%Z in
  progress_run events
  = {| progressVisible := true; visibleSinceRef := Some 1000%Z;
       hideRef := Some 1400%Z |}
  /\ progressVisible (progress_step (progress_run events) (TimerFires 1399))
     = true
  /\ exists since now,
       visibleSinceRef (progress_run events) = Some since
       /\ TimerFires 1400 = TimerFires now
       /\ (since + 400 <= now)%Z.
Proof.
  cbv zeta. split; [reflexivity |]. split; [reflexivity |].
  exact (progress_min_visible [EffectRuns true 1000; EffectRuns false 1100]%Z
           (TimerFires 1400) eq_refl eq_refl).
Defined.
